(** * NUMA-aware CPU hint calculation and inter-pod affinity filtering

    A shallow embedding of
    [pkg/agent/qrm-plugins/cpu/dynamicpolicy/policy_hint_handlers.go]
    (katalyst-core) together with the properties of its hint calculator,
    affinity info collector, hint filter and strategy dispatcher.

    Go values are modelled as follows.
    - [int] and [uint64] are [Z]; the one conversion that can change a value
      ([int(numa)] on a [uint64]) is written out in [int_of_uint64].
    - a Go map is a [gmap]; reading an absent key yields the zero value.
      Maps whose iteration order is observable (the pod and container
      entries of a NUMA node) are association lists, the list order being
      the order in which the Go runtime happens to iterate.
    - a pointer that the code compares with [nil], or that a caller may hand
      over as [nil] (a request, a hint, a hint list, a node state, a parsed
      affinity part), is an [option].  The policy object's own pointers
      (machine info, topology, state store) and the allocation records held
      in pod entries are taken to be non-nil.
    - counters stay far below [2 ^ 63]; their increments are written without
      wrap-around.
    - a function returning [(T, error)] returns a pair whose second
      component is [option error]; a run-time panic (nil dereference) is the
      [Panic] outcome. *)

From stdpp Require Import base option list gmap strings sorting.
From Stdlib Require Import ZArith Lia Ascii.

Local Open Scope string_scope.
Local Open Scope Z_scope.

(** ** Outcomes of Go calls *)

Definition error := string.

Inductive outcome (A : Type) : Type :=
| Return (a : A)
| Panic.
Arguments Return {A} a.
Arguments Panic {A}.

(** [v, nil] and [nil, err] for a function returning a pointer or a map
    together with an error. *)
Definition retOk {A} (a : A) : outcome (option A * option error) :=
  Return (Some a, None).
Definition retErr {A} (e : error) : outcome (option A * option error) :=
  Return (None, Some e).

(** Result of a helper that follows the Go convention "non-nil pointer iff
    nil error". *)
Inductive result (A : Type) : Type :=
| Ok (a : A)
| Err (e : error).
Arguments Ok {A} a.
Arguments Err {A} e.

(** [fmt.Errorf(format, err)] with a trailing [%v]: the rendered inner error
    is appended.  Other format arguments are not rendered. *)
Definition Errorf (format : string) (inner : error) : error :=
  String.append format inner.

(** ** Integers *)

(** [int(x)] for [x : uint64] on a 64-bit platform. *)
Definition int_of_uint64 (x : Z) : Z :=
  let m := x mod 2 ^ 64 in
  if m <? 2 ^ 63 then m else m - 2 ^ 64.

(** [uint64(x)] for [x : int]. *)
Definition uint64_of_int (x : Z) : Z := x mod 2 ^ 64.

(** [sort.Ints]. *)
Definition sortInts (l : list Z) : list Z := merge_sort Z.le l.

(** ** CPU sets *)

(** Modelled from the spec: the CPU-set arithmetic library ([machine.CPUSet]:
    union, size, membership) is not part of the sources; a CPU set is a finite
    set of integer IDs. *)
Module machine.
Abbreviation CPUSet := (gset Z).

Definition NewCPUSet : CPUSet := ∅.
Definition Size (s : CPUSet) : Z := Z.of_nat (size s).
Definition Union (a b : CPUSet) : CPUSet := a ∪ b.
Definition Difference (a b : CPUSet) : CPUSet := a ∖ b.
(** [ToSliceInt] lists the members in increasing order. *)
Definition ToSliceInt (s : CPUSet) : list Z := sortInts (elements s).
End machine.

(** ** Bit masks *)

(** Modelled from the spec: the bitmask package
    ([k8s.io/kubernetes/pkg/kubelet/cm/topologymanager/bitmask]) is not part of
    the sources.  A mask is a bit-indexed membership set over NUMA-node IDs
    held in a [uint64]; [IterateBitMasks] enumerates every non-empty subset of
    the given IDs, by increasing size and, within a size, in the order of the
    ID list. *)
Module bitmask.
Definition bitMask := Z.

Definition validBit (i : Z) : bool := (0 <=? i) && (i <? 64).

(** Modelled from the spec: [Add] sets the given bits of the membership set;
    it fails, leaving no mask, when a bit is outside [0, 63]. *)
Definition Add (s : bitMask) (bits : list Z) : option bitMask :=
  if forallb validBit bits
  then Some (fold_left (fun m i => Z.lor m (Z.shiftl 1 i)) bits s)
  else None.

(** Modelled from the spec: [NewBitMask] builds the mask holding the given
    IDs; it returns a nil mask together with its error. *)
Definition NewBitMask (bits : list Z) : option bitMask := Add 0 bits.

(** Modelled from the spec: bit-indexed membership, [s & (1 << i) > 0]. *)
Definition isSet (s : bitMask) (i : Z) : bool :=
  0 <? Z.land s (Z.shiftl 1 i).

(** Modelled from the spec: [GetBits] lists the member IDs in increasing
    order. *)
Definition GetBits (s : bitMask) : list Z :=
  List.filter (isSet s) (Z.of_nat <$> seq 0 64).

(** [bits.OnesCount64]. *)
Definition OnesCount64 (s : Z) : Z :=
  Z.of_nat (length (List.filter (Z.testbit s) (Z.of_nat <$> seq 0 64))).

(** Modelled from the spec: [Count] is the size of the subset. *)
Definition Count (s : bitMask) : Z := OnesCount64 s.

(** Modelled from the spec: the recursive closure of [IterateBitMasks],
    which extends [accum] by the IDs of [bits] in order until it holds [size]
    of them; the callback is applied to each element of the resulting list,
    in order.  The error of [NewBitMask] is dropped, so a failed construction
    hands a nil mask to the callback. *)
Fixpoint iterate (bits : list Z) (accum : list Z) (size : nat)
  {struct bits} : list (option bitMask) :=
  if (length accum =? size)%nat then [NewBitMask accum]
  else
    (fix loop (bs : list Z) : list (option bitMask) :=
       match bs with
       | [] => []
       | b :: rest => (iterate rest (accum ++ [b]) size ++ loop rest)%list
       end) bits.

(** Modelled from the spec: every non-empty subset of [bits], by increasing
    size. *)
Definition IterateBitMasks (bits : list Z) : list (option bitMask) :=
  flat_map (fun i => iterate bits [] i) (seq 1 (length bits)).
End bitmask.


(** ** Data model *)

(** The wire types of the resource plugin API that the handlers read. *)
Module pluginapi.
Inductive ContainerType : Type :=
| ContainerType_INIT
| ContainerType_MAIN
| ContainerType_SIDECAR
| ContainerType_EPHEMERAL.

#[global] Instance ContainerType_eq_dec : EqDecision ContainerType.
Proof. solve_decision. Defined.

Record TopologyHint : Type := {
  Nodes : list Z;      (* []uint64 *)
  Preferred : bool
}.

#[global] Instance TopologyHint_eq_dec : EqDecision TopologyHint.
Proof. solve_decision. Defined.

Record ListOfTopologyHints : Type := {
  Hints : list (option TopologyHint)
}.

Record ResourceRequest : Type := {
  PodUid : string;
  PodNamespace : string;
  PodName : string;
  ContainerName : string;
  ContainerType_ : ContainerType;
  Labels : gmap string string;
  Annotations : gmap string string
}.

(** Nil-safe getter generated for the [Nodes] field. *)
Definition GetNodes (hint : option TopologyHint) : list Z :=
  match hint with
  | Some h => Nodes h
  | None => []
  end.
End pluginapi.

(** [map[string]*pluginapi.ListOfTopologyHints]. *)
Abbreviation HintsMap := (gmap string (option pluginapi.ListOfTopologyHints)).

(** [hints[name]] on a possibly nil map: the pointer stored there, nil when
    the key is absent. *)
Definition hintsAt (hints : option HintsMap) (name : string)
  : option pluginapi.ListOfTopologyHints :=
  match hints with
  | Some m => default None (m !! name)
  | None => None
  end.

(** [m[k]] for a [map[string]string]. *)
Definition strAt (m : gmap string string) (k : string) : string :=
  default EmptyString (m !! k).

(** Inter-pod affinity descriptors carried by annotations. *)
Module apiconsts.
Record Selector : Type := {
  MatchLabels : gmap string string;
  Zone : string
}.
End apiconsts.

Module util.
(** [map[int]int], zero by default. *)
Abbreviation TopologyAffinityCount := (gmap Z Z).

Definition countAt (c : TopologyAffinityCount) (numa : Z) : Z :=
  default 0 (c !! numa).

(** [c[n] += 1]. *)
Definition incr (c : TopologyAffinityCount) (n : Z) : TopologyAffinityCount :=
  <[n := countAt c n + 1]> c.

Record MicroTopologyPodAffinityAnnotation : Type := {
  Required : list apiconsts.Selector
}.

Record MicroTopologyPodAffnity : Type := {
  Affinity : option MicroTopologyPodAffinityAnnotation;
  AntiAffinity : option MicroTopologyPodAffinityAnnotation
}.
End util.

(** Modelled from the spec: the [state] package is not part of the sources.
    MachineState maps a NUMA-node ID to a per-node allocation record: the
    node's CPU IDs, its allocated CPU set and the allocation entries (one per
    pod and container) resident on the node, each carrying labels and
    annotations.  The CPUs available on a node are its total minus the
    allocated ones minus the globally reserved ones. *)
Module state.
(** Modelled from the spec: an allocation entry carries labels and
    annotations. *)
Record AllocationInfo : Type := {
  Labels : gmap string string;
  Annotations : gmap string string
}.

(** Container name to allocation record, in iteration order. *)
Abbreviation ContainerEntries := (list (string * AllocationInfo)).
(** Pod UID to container entries, in iteration order. *)
Abbreviation PodEntries := (list (string * ContainerEntries)).

(** Modelled from the spec: the per-node allocation record. *)
Record NUMANodeState : Type := {
  TotalCPUSet : machine.CPUSet;
  AllocatedCPUSet : machine.CPUSet;
  PodEntries_ : PodEntries
}.

Abbreviation NUMANodeMap := (gmap Z (option NUMANodeState)).

(** Modelled from the spec: available = total minus allocated minus globally
    reserved. *)
Definition GetAvailableCPUSet (ns : NUMANodeState)
  (reservedCPUs : machine.CPUSet) : machine.CPUSet :=
  machine.Difference
    (machine.Difference (TotalCPUSet ns) (AllocatedCPUSet ns)) reservedCPUs.

(** [machineState[nodeID]]: nil when the key is absent or maps to nil. *)
Definition stateAt (machineState : NUMANodeMap) (nodeID : Z)
  : option NUMANodeState :=
  default None (machineState !! nodeID).

(** [podEntries[uid]] and [containerEntries[name]]. *)
Definition lookupEntry {A} (l : list (string * A)) (k : string) : option A :=
  snd <$> List.find (fun kv => bool_decide (fst kv = k)) l.

(** [delete(entries, k)]. *)
Definition deleteEntry {A} (l : list (string * A)) (k : string)
  : list (string * A) :=
  List.filter (fun kv => negb (bool_decide (fst kv = k))) l.
End state.

(** Modelled from the spec: the topology description ([machine.CPUTopology])
    is not part of the sources.  It records the number of CPUs, sockets and
    NUMA nodes and, for every CPU ID, the NUMA node and socket it belongs to,
    from which the socket-to-nodes and node-to-CPUs mappings derive. *)
Module topology.
Record CPUInfo : Type := {
  NUMANodeID : Z;
  SocketID : Z;
  CoreID : Z
}.

Abbreviation CPUDetails_t := (gmap Z CPUInfo).

Record CPUTopology : Type := {
  NumCPUs : Z;
  NumSockets : Z;
  NumNUMANodes : Z;
  CPUDetails : CPUDetails_t
}.
End topology.

Record KatalystMachineInfo : Type := {
  CPUTopology : topology.CPUTopology
}.

(** Modelled from the spec: the response names the resource and carries,
    for it, either no preference or an ordered hint list. *)
Record ResourceHintsResponse : Type := {
  RespPodUid : string;
  RespContainerName : string;
  ResourceName : string;
  ResourceHints : option HintsMap
}.

(** The state store behind [p.state]. *)
Record policyState : Type := {
  machineState : state.NUMANodeMap;
  podEntries : state.PodEntries
}.

Record DynamicPolicy : Type := {
  machineInfo : KatalystMachineInfo;
  reservedCPUs : machine.CPUSet;
  state : policyState;
  extraStateFileAbsPath : string
}.

(** Record all numa level affinity information on numa *)
Record numaInfo : Type := {
  labels : gmap string (list string);
  socketID : Z;
  numaID : Z;
  AntiAffinityRequiredSelectors : list apiconsts.Selector
}.

(** Record numa level affinity information on pod *)
Record podInfo : Type := {
  pod_labels : gmap string string;
  pod_AffinityRequiredSelectors : list apiconsts.Selector;
  pod_AntiAffinityRequiredSelectors : list apiconsts.Selector
}.

Record preFilterState : Type := {
  existingAntiAffinityCounts : util.TopologyAffinityCount;
  affinityCounts : util.TopologyAffinityCount;
  antiAffinityCounts : util.TopologyAffinityCount;
  podAffinityInfo : podInfo;
  numaAffinityInfoList : list numaInfo
}.

(** ** Collaborators

    Functions and constants of other packages that the handlers call and
    whose code is not part of the sources.  The handlers are defined, and
    their properties proved, for every implementation of this interface. *)
Class Collaborators : Type := {
  (* apiconsts *)
  PodAnnotationMemoryEnhancementNumaBinding : string;
  PodAnnotationMemoryEnhancementNumaBindingEnable : string;
  PodAnnotationMemoryEnhancementNumaExclusive : string;
  PodAnnotationMemoryEnhancementNumaExclusiveEnable : string;
  PodAnnotationMicroTopologyInterPodAntiAffinity : string;
  PodAnnotationMicroTopologyAffinitySocket : string;
  (* v1 *)
  ResourceCPU : string;
  (* qosutil *)
  AnnotationsIndicateNUMABinding : gmap string string -> bool;
  AnnotationsIndicateNUMAExclusive : gmap string string -> bool;
  (* util *)
  GetNUMANodesCountToFitCPUReq :
    Z -> topology.CPUTopology -> Z * Z * option error;
  GetQuantityFromResourceReq : pluginapi.ResourceRequest -> Z * option error;
  GetHintsFromExtraStateFile :
    string -> string -> string -> machine.CPUSet ->
    option HintsMap * option error;
  PackResourceHintsResponse :
    option pluginapi.ResourceRequest -> string -> option HintsMap ->
    option ResourceHintsResponse * option error;
  MergeNumaInfoMap :
    gmap string string -> gmap string (list string) ->
    gmap string (list string);
  UnmarshalAffinity :
    gmap string string -> result util.MicroTopologyPodAffnity;
  Append :
    util.TopologyAffinityCount -> util.TopologyAffinityCount ->
    util.TopologyAffinityCount;
  (* cpuutil *)
  RegenerateHints : state.AllocationInfo -> Z -> option HintsMap;
  (* machine *)
  NUMAsPerSocket : KatalystMachineInfo -> Z * option error;
  CheckNUMACrossSockets :
    list Z -> topology.CPUTopology -> bool * option error;
  SocketsInNUMANodes : topology.CPUDetails_t -> Z -> machine.CPUSet;
  NUMANodesInSockets : topology.CPUDetails_t -> Z -> machine.CPUSet;
  (* state *)
  generateMachineStateFromPodEntries :
    topology.CPUTopology -> state.PodEntries ->
    state.NUMANodeMap * option error;
  GetFilteredNUMASet : state.NUMANodeMap -> machine.CPUSet
}.

(** Modelled from the spec: [machine.MaskToUInt64Array] is not part of the
    sources; a hint's node subset is the mask's member IDs, each converted to
    [uint64]. *)
Definition MaskToUInt64Array (mask : bitmask.bitMask) : list Z :=
  uint64_of_int <$> bitmask.GetBits mask.

(** ** The handlers *)

Section Handlers.
Context `{Collaborators}.
Variable p : DynamicPolicy.

(** The hint set [{cpu: nil}]: no NUMA preference. *)
Definition noPreference : option HintsMap :=
  Some {[ ResourceCPU := None ]}.

Definition sharedCoresHintHandler (req : option pluginapi.ResourceRequest)
  : outcome (option ResourceHintsResponse * option error) :=
  match req with
  | None => retErr "got nil request"
  | Some _ => Return (PackResourceHintsResponse req ResourceCPU noPreference)
  end.

Definition reclaimedCoresHintHandler (req : option pluginapi.ResourceRequest)
  : outcome (option ResourceHintsResponse * option error) :=
  sharedCoresHintHandler req.

Definition dedicatedCoresWithoutNUMABindingHintHandler
  (req : option pluginapi.ResourceRequest)
  : outcome (option ResourceHintsResponse * option error) :=
  retErr "not support dedicated_cores without NUMA binding".

(** *** Hint calculator *)

(** The request is NUMA-bound but not exclusive. *)
Definition bindingNotExclusive (reqAnnotations : gmap string string) : bool :=
  AnnotationsIndicateNUMABinding reqAnnotations
  && negb (AnnotationsIndicateNUMAExclusive reqAnnotations).

(** The loop over [maskBits] in the callback of [calculateHints]: [None] when
    the callback returns from inside the loop, otherwise the accumulated
    union of available CPUs. *)
Fixpoint availableCPUsInMask (machineState : state.NUMANodeMap)
  (reqAnnotations : gmap string string) (maskBits : list Z)
  (allAvailableCPUsInMask : machine.CPUSet) : option machine.CPUSet :=
  match maskBits with
  | [] => Some allAvailableCPUsInMask
  | nodeID :: rest =>
      match state.stateAt machineState nodeID with
      | None => None
      | Some ns =>
          if AnnotationsIndicateNUMAExclusive reqAnnotations
             && (0 <? machine.Size (state.AllocatedCPUSet ns))
          then None
          else availableCPUsInMask machineState reqAnnotations rest
                 (machine.Union allAvailableCPUsInMask
                    (state.GetAvailableCPUSet ns (reservedCPUs p)))
      end
  end.

(** The callback handed to [bitmask.IterateBitMasks]: [Return None] when the
    mask is skipped, [Return (Some hint)] when a hint is appended, [Panic] on
    a nil mask. *)
Definition hintCallback (reqInt minNUMAsCountNeeded numaPerSocket : Z)
  (machineState : state.NUMANodeMap) (reqAnnotations : gmap string string)
  (mask : option bitmask.bitMask) : outcome (option pluginapi.TopologyHint) :=
  match mask with
  | None => Panic
  | Some mask =>
      let maskCount := bitmask.Count mask in
      if maskCount <? minNUMAsCountNeeded then Return None
      else if bindingNotExclusive reqAnnotations && (1 <? maskCount)
      then Return None
      else
        let maskBits := bitmask.GetBits mask in
        let numaCountNeeded := bitmask.Count mask in
        match availableCPUsInMask machineState reqAnnotations maskBits
                machine.NewCPUSet with
        | None => Return None
        | Some allAvailableCPUsInMask =>
            if machine.Size allAvailableCPUsInMask <? reqInt then Return None
            else
              match CheckNUMACrossSockets maskBits
                      (CPUTopology (machineInfo p)) with
              | (_, Some _) => Return None
              | (crossSockets, None) =>
                  if (numaCountNeeded <=? numaPerSocket) && crossSockets
                  then Return None
                  else Return (Some
                    {| pluginapi.Nodes := MaskToUInt64Array mask;
                       pluginapi.Preferred :=
                         Z.of_nat (length maskBits) =? minNUMAsCountNeeded |})
              end
        end
  end.

(** Running the callback over the enumerated masks, appending to the hint
    list of the CPU resource. *)
Fixpoint runCallbacks (callback : option bitmask.bitMask ->
                                  outcome (option pluginapi.TopologyHint))
  (masks : list (option bitmask.bitMask))
  (hints : list (option pluginapi.TopologyHint))
  : outcome (list (option pluginapi.TopologyHint)) :=
  match masks with
  | [] => Return hints
  | mask :: rest =>
      match callback mask with
      | Panic => Panic
      | Return None => runCallbacks callback rest hints
      | Return (Some hint) =>
          runCallbacks callback rest (hints ++ [Some hint])%list
      end
  end.

(** calculateHints is a helper function to calculate the topology hints
    with the given container requests. *)
Definition calculateHints (reqInt : Z) (machineState : state.NUMANodeMap)
  (reqAnnotations : gmap string string)
  : outcome (option HintsMap * option error) :=
  let numaNodes := sortInts (fst <$> map_to_list machineState) in
  match GetNUMANodesCountToFitCPUReq reqInt (CPUTopology (machineInfo p)) with
  | (_, _, Some err) =>
      retErr (Errorf "GetNUMANodesCountToFitCPUReq failed with error: " err)
  | (minNUMAsCountNeeded, _, None) =>
      if bindingNotExclusive reqAnnotations && (1 <? minNUMAsCountNeeded)
      then retErr
        "NUMA not exclusive binding container has request larger than 1 NUMA"
      else
        match NUMAsPerSocket (machineInfo p) with
        | (_, Some err) =>
            retErr (Errorf "NUMAsPerSocket failed with error: " err)
        | (numaPerSocket, None) =>
            match runCallbacks
                    (hintCallback reqInt minNUMAsCountNeeded numaPerSocket
                       machineState reqAnnotations)
                    (bitmask.IterateBitMasks numaNodes) [] with
            | Panic => Panic
            | Return cpuHints =>
                retOk {[ ResourceCPU :=
                           Some {| pluginapi.Hints := cpuHints |} ]}
            end
        end
  end.

(** *** Affinity info collector *)

(** One iteration of the loop over a node's pod entries.  The inner loop over
    the pod's containers breaks after its first entry. *)
Definition collectPod (numaNodeInfo : numaInfo)
  (containerEntries : state.ContainerEntries) : outcome (result numaInfo) :=
  match containerEntries with
  | [] => Return (Ok numaNodeInfo)
  | (_, allocationInfo) :: _ =>
      let merged :=
        {| labels := MergeNumaInfoMap (state.Labels allocationInfo)
                       (labels numaNodeInfo);
           socketID := socketID numaNodeInfo;
           numaID := numaID numaNodeInfo;
           AntiAffinityRequiredSelectors :=
             AntiAffinityRequiredSelectors numaNodeInfo |} in
      if bool_decide
           (strAt (state.Annotations allocationInfo)
              PodAnnotationMicroTopologyInterPodAntiAffinity ≠ EmptyString)
      then
        match UnmarshalAffinity (state.Annotations allocationInfo) with
        | Err _ => Return (Err "unmarshalAffinity failed")
        | Ok podAffinity =>
            match util.AntiAffinity podAffinity with
            | None => Panic
            | Some antiAffinity =>
                Return (Ok
                  {| labels := labels merged;
                     socketID := socketID merged;
                     numaID := numaID merged;
                     AntiAffinityRequiredSelectors :=
                       (AntiAffinityRequiredSelectors merged
                        ++ util.Required antiAffinity)%list |})
            end
        end
      else Return (Ok merged)
  end.

Fixpoint collectPods (numaNodeInfo : numaInfo) (pods : state.PodEntries)
  : outcome (result numaInfo) :=
  match pods with
  | [] => Return (Ok numaNodeInfo)
  | (_, containerEntries) :: rest =>
      match collectPod numaNodeInfo containerEntries with
      | Return (Ok numaNodeInfo') => collectPods numaNodeInfo' rest
      | other => other
      end
  end.

(** The body of the loop over NUMA nodes, for node [i]. *)
Definition collectNode (numaResourceMap : state.NUMANodeMap) (i : Z)
  : outcome (result numaInfo) :=
  let cpuSet :=
    SocketsInNUMANodes (topology.CPUDetails (CPUTopology (machineInfo p))) i in
  if machine.Size cpuSet =? 0 then
    Return (Err
      "failed to find the associated socket ID for the specified numanode: %d, cpuDetails: %v")
  else
    match head (machine.ToSliceInt cpuSet) with
    | None => Panic
    | Some socket =>
        match state.stateAt numaResourceMap i with
        | None => Panic
        | Some numaState =>
            collectPods
              {| labels := ∅; socketID := socket; numaID := i;
                 AntiAffinityRequiredSelectors := [] |}
              (state.PodEntries_ numaState)
        end
    end.

Fixpoint collectNodes (numaResourceMap : state.NUMANodeMap) (nodes : list Z)
  (numaNodesInfo : list numaInfo) : outcome (list numaInfo * option error) :=
  match nodes with
  | [] => Return (numaNodesInfo, None)
  | i :: rest =>
      match collectNode numaResourceMap i with
      | Panic => Panic
      | Return (Err e) => Return ([], Some e)
      | Return (Ok numaNodeInfo) =>
          collectNodes numaResourceMap rest
            (numaNodesInfo ++ [numaNodeInfo])%list
      end
  end.

(** Get affinityInfo of all numa nodes *)
Definition getNumaNodesAffinityInfo
  : outcome (list numaInfo * option error) :=
  let numaResourceMap := machineState (state p) in
  collectNodes numaResourceMap
    (Z.of_nat <$>
       seq 0 (Z.to_nat
                (topology.NumNUMANodes (CPUTopology (machineInfo p)))))
    [].

(** *** Affinity counter *)

(** The increments made for one matching label: every node of the socket for
    a socket-scoped selector, the evaluated node otherwise. *)
Definition countMatch (seletor : apiconsts.Selector) (socket numa : Z)
  (topologyMap : util.TopologyAffinityCount) : util.TopologyAffinityCount :=
  if bool_decide
       (apiconsts.Zone seletor = PodAnnotationMicroTopologyAffinitySocket)
  then
    let cpuSet :=
      NUMANodesInSockets
        (topology.CPUDetails (CPUTopology (machineInfo p))) socket in
    foldl util.incr topologyMap (machine.ToSliceInt cpuSet)
  else util.incr topologyMap numa.

(** Analyze whether the existing pod on NUMA is compatible with the new pod,
    and calculate numa nodes' util.TopologyAffinityCount through imformation
    of Seletors and labels *)
Definition matchNUMAAffinity (Seletors : list apiconsts.Selector)
  (labels : gmap string string) (socket numa : Z)
  : util.TopologyAffinityCount :=
  foldl
    (fun topologyMap seletor =>
       foldl
         (fun topologyMap kv =>
            if bool_decide (strAt labels kv.1 = kv.2)
            then countMatch seletor socket numa topologyMap
            else topologyMap)
         topologyMap (map_to_list (apiconsts.MatchLabels seletor)))
    ∅ Seletors.

(** Analyze whether the new pod is compatible with the existing pod on NUMA,
    Calculate numa nodes' util.TopologyAffinityCount through imformation of
    Seletors and labels *)
Definition matchPodAffinity (Seletors : list apiconsts.Selector)
  (labels : gmap string (list string)) (socket numa : Z)
  : util.TopologyAffinityCount :=
  foldl
    (fun topologyMap seletor =>
       foldl
         (fun topologyMap kv =>
            foldl
              (fun topologyMap numaVal =>
                 if bool_decide (numaVal = kv.2)
                 then countMatch seletor socket numa topologyMap
                 else topologyMap)
              topologyMap (default [] (labels !! kv.1)))
         topologyMap (map_to_list (apiconsts.MatchLabels seletor)))
    ∅ Seletors.

(** The three tallies below start one unit of work per NUMA node, each
    writing the slot of its own index, wait for all of them and then append
    the slots in index order; the units are pure, so the result is that of
    the sequential map. *)
Definition getExistingAntiAffinityCounts (st : preFilterState)
  : preFilterState :=
  let topologyMaps :=
    (fun numaAffinity =>
       matchNUMAAffinity (AntiAffinityRequiredSelectors numaAffinity)
         (pod_labels (podAffinityInfo st))
         (socketID numaAffinity) (numaID numaAffinity))
      <$> numaAffinityInfoList st in
  {| existingAntiAffinityCounts :=
       foldl Append (existingAntiAffinityCounts st) topologyMaps;
     affinityCounts := affinityCounts st;
     antiAffinityCounts := antiAffinityCounts st;
     podAffinityInfo := podAffinityInfo st;
     numaAffinityInfoList := numaAffinityInfoList st |}.

Definition getAntiAffinityCounts (st : preFilterState) : preFilterState :=
  let topologyMaps :=
    (fun numaAffinity =>
       matchPodAffinity
         (pod_AntiAffinityRequiredSelectors (podAffinityInfo st))
         (labels numaAffinity)
         (socketID numaAffinity) (numaID numaAffinity))
      <$> numaAffinityInfoList st in
  {| existingAntiAffinityCounts := existingAntiAffinityCounts st;
     affinityCounts := affinityCounts st;
     antiAffinityCounts := foldl Append (antiAffinityCounts st) topologyMaps;
     podAffinityInfo := podAffinityInfo st;
     numaAffinityInfoList := numaAffinityInfoList st |}.

Definition getAffinityCounts (st : preFilterState) : preFilterState :=
  let topologyMaps :=
    (fun numaAffinity =>
       matchPodAffinity
         (pod_AffinityRequiredSelectors (podAffinityInfo st))
         (labels numaAffinity)
         (socketID numaAffinity) (numaID numaAffinity))
      <$> numaAffinityInfoList st in
  {| existingAntiAffinityCounts := existingAntiAffinityCounts st;
     affinityCounts := foldl Append (affinityCounts st) topologyMaps;
     antiAffinityCounts := antiAffinityCounts st;
     podAffinityInfo := podAffinityInfo st;
     numaAffinityInfoList := numaAffinityInfoList st |}.

Definition requiredPodAffinityInfo (podAffinity : util.MicroTopologyPodAffnity)
  (req : pluginapi.ResourceRequest) : podInfo :=
  let affinityReq :=
    match util.Affinity podAffinity with
    | Some a => util.Required a
    | None => []
    end in
  let antiAffinityReq :=
    match util.AntiAffinity podAffinity with
    | Some a => util.Required a
    | None => []
    end in
  {| pod_labels := pluginapi.Labels req;
     pod_AffinityRequiredSelectors := affinityReq;
     pod_AntiAffinityRequiredSelectors := antiAffinityReq |}.

(** *** Hint filter *)

Definition prePodAffinityFilter (req : pluginapi.ResourceRequest)
  : outcome (option preFilterState * option error) :=
  match UnmarshalAffinity (pluginapi.Annotations req) with
  | Err err => retErr err
  | Ok podAffinity =>
      (* There is no need to do numa level inter-pod affinity selction if
         exclusive = true *)
      if bool_decide
           (strAt (pluginapi.Annotations req)
              PodAnnotationMemoryEnhancementNumaExclusive
            = PodAnnotationMemoryEnhancementNumaExclusiveEnable)
      then
        match util.Affinity podAffinity with
        | Some _ =>
            retErr
              "can not find required affinity numa nodes while exclusive is enabled"
        | None => Return (None, None)
        end
      else
        (* Get affinityInfo of all numa nodes and the pod to be binded *)
        match getNumaNodesAffinityInfo with
        | Panic => Panic
        | Return (_, Some err) => retErr err
        | Return (numaAffinityInfoList, None) =>
            let podAffinityInfo := requiredPodAffinityInfo podAffinity req in
            let st :=
              {| podAffinityInfo := podAffinityInfo;
                 numaAffinityInfoList := numaAffinityInfoList;
                 existingAntiAffinityCounts := ∅;
                 antiAffinityCounts := ∅;
                 affinityCounts := ∅ |} in
            retOk (getAffinityCounts
                     (getAntiAffinityCounts
                        (getExistingAntiAffinityCounts st)))
        end
  end.

(** The checks made on one node of a hint; [true] when the node passes. *)
Definition numaPasses (st : preFilterState) (numa : Z) : bool :=
  if 0 <? util.countAt (existingAntiAffinityCounts st) (int_of_uint64 numa)
  then false
  else if 0 <? util.countAt (antiAffinityCounts st) (int_of_uint64 numa)
  then false
  else if (0 <? Z.of_nat
                  (length (pod_AffinityRequiredSelectors (podAffinityInfo st))))
          && (util.countAt (affinityCounts st) (int_of_uint64 numa) <=? 0)
  then false
  else true.

(** Judge whether hint meets the affinity requirements, true means the hint
    is valid *)
Fixpoint hintNodesPass (st : preFilterState) (numaList : list Z) : bool :=
  match numaList with
  | [] => true
  | numa :: rest =>
      if numaPasses st numa then hintNodesPass st rest else false
  end.

Definition hintPodAffinityFilter (st : preFilterState)
  (hint : option pluginapi.TopologyHint) : bool :=
  hintNodesPass st (pluginapi.GetNodes hint).

(** Screen all hints through the results of preFilter *)
Definition podAffinityFilter (st : preFilterState) (hints : option HintsMap)
  : outcome (option HintsMap) :=
  match hintsAt hints ResourceCPU with
  | None => Panic
  | Some cpuHints =>
      let filterdTopologyHints :=
        List.filter (hintPodAffinityFilter st) (pluginapi.Hints cpuHints) in
      Return (Some {[ ResourceCPU :=
                        Some {| pluginapi.Hints := filterdTopologyHints |} ]})
  end.

(** *** Strategy dispatcher *)

(** [delete(podEntries[uid], name)], then [delete(podEntries, uid)] when the
    pod has no container left. *)
Definition dropContainer (entries : state.PodEntries) (uid name : string)
  : state.PodEntries :=
  match state.lookupEntry entries uid with
  | None => entries
  | Some containers =>
      let containers' := state.deleteEntry containers name in
      match containers' with
      | [] => state.deleteEntry entries uid
      | _ =>
          (fun kv => if bool_decide (kv.1 = uid) then (kv.1, containers')
                     else kv) <$> entries
      end
  end.

(** The last step of the NUMA-binding handler: inter-pod affinity and
    anti-affinity selection at numa level over the hints obtained so far. *)
Definition affinitySelection (req : pluginapi.ResourceRequest)
  (hints : option HintsMap)
  : outcome (option ResourceHintsResponse * option error) :=
  match prePodAffinityFilter req with
  | Panic => Panic
  | Return (_, Some err) =>
      let resp :=
        fst (PackResourceHintsResponse (Some req) ResourceCPU noPreference) in
      Return (resp, Some err)
  | Return (None, None) =>
      Return (PackResourceHintsResponse (Some req) ResourceCPU hints)
  | Return (Some st, None) =>
      match podAffinityFilter st hints with
      | Panic => Panic
      | Return filterdHints =>
          Return (PackResourceHintsResponse (Some req) ResourceCPU
                    filterdHints)
      end
  end.

(** The request is not nil here: the dispatcher has checked it. *)
Definition dedicatedCoresWithNUMABindingHintHandler
  (req : pluginapi.ResourceRequest)
  : outcome (option ResourceHintsResponse * option error) :=
  (* currently, we set cpuset of sidecar to the cpuset of its main container,
     so there is no numa preference here. *)
  if bool_decide
       (pluginapi.ContainerType_ req = pluginapi.ContainerType_SIDECAR)
  then Return (PackResourceHintsResponse (Some req) ResourceCPU noPreference)
  else
    match GetQuantityFromResourceReq req with
    | (_, Some err) =>
        retErr (Errorf "getReqQuantityFromResourceReq failed with error: " err)
    | (reqInt, None) =>
        let regenerated
          : result (state.NUMANodeMap * option HintsMap) :=
          match
            state.lookupEntry (podEntries (state p)) (pluginapi.PodUid req)
              ≫= (fun containers =>
                    state.lookupEntry containers (pluginapi.ContainerName req))
          with
          | None => Ok (machineState (state p), None)
          | Some allocationInfo =>
              match RegenerateHints allocationInfo reqInt with
              | Some hints => Ok (machineState (state p), Some hints)
              | None =>
                  (* regenerateHints failed. need to clear container record
                     and re-calculate. *)
                  let entries :=
                    dropContainer (podEntries (state p))
                      (pluginapi.PodUid req) (pluginapi.ContainerName req) in
                  match generateMachineStateFromPodEntries
                          (CPUTopology (machineInfo p)) entries with
                  | (_, Some err) =>
                      Err (Errorf
                        "GenerateMachineStateFromPodEntries failed with error: "
                        err)
                  | (machineState', None) => Ok (machineState', None)
                  end
              end
          end in
        match regenerated with
        | Err err => retErr err
        | Ok (machineState, hints) =>
            (* if hints exists in extra state-file, prefer to use them *)
            let hints :=
              match hints with
              | Some _ => hints
              | None =>
                  let availableNUMAs := GetFilteredNUMASet machineState in
                  fst (GetHintsFromExtraStateFile (pluginapi.PodName req)
                         ResourceCPU (extraStateFileAbsPath p) availableNUMAs)
              end in
            (* otherwise, calculate hint for container without allocated
               cpus *)
            match hints with
            | Some _ => affinitySelection req hints
            | None =>
                match calculateHints reqInt machineState
                        (pluginapi.Annotations req) with
                | Panic => Panic
                | Return (_, Some calculateErr) =>
                    retErr (Errorf "calculateHints failed with error: "
                              calculateErr)
                | Return (hints, None) => affinitySelection req hints
                end
            end
        end
    end.

Definition dedicatedCoresHintHandler (req : option pluginapi.ResourceRequest)
  : outcome (option ResourceHintsResponse * option error) :=
  match req with
  | None => retErr "dedicatedCoresHintHandler got nil req"
  | Some r =>
      if bool_decide
           (strAt (pluginapi.Annotations r)
              PodAnnotationMemoryEnhancementNumaBinding
            = PodAnnotationMemoryEnhancementNumaBindingEnable)
      then dedicatedCoresWithNUMABindingHintHandler r
      else dedicatedCoresWithoutNUMABindingHintHandler req
  end.
End Handlers.

(** ** Views used to state the properties *)

Section Views.
Context `{Collaborators}.
Variable p : DynamicPolicy.

(** The node IDs enumerated by [calculateHints]: the sorted keys of the
    snapshot. *)
Definition numaNodesOf (machineState : state.NUMANodeMap) : list Z :=
  sortInts (fst <$> map_to_list machineState).

(** The first component of [GetNUMANodesCountToFitCPUReq]'s return. *)
Definition minNUMAsCountNeededOf (reqInt : Z) : Z :=
  (GetNUMANodesCountToFitCPUReq reqInt (CPUTopology (machineInfo p))).1.1.

(** The first component of [NUMAsPerSocket]'s return. *)
Definition numaPerSocketOf : Z := (NUMAsPerSocket (machineInfo p)).1.

(** The hint list of the CPU resource in what a call returned; empty when
    the call returned an error or panicked. *)
Definition emittedHints (o : outcome (option HintsMap * option error))
  : list (option pluginapi.TopologyHint) :=
  match o with
  | Return (hints, None) =>
      match hintsAt hints ResourceCPU with
      | Some l => pluginapi.Hints l
      | None => []
      end
  | _ => []
  end.

(** The CPUs available on one node, and on a subset of nodes. *)
Definition nodeAvailable (machineState : state.NUMANodeMap) (nodeID : Z)
  : machine.CPUSet :=
  match state.stateAt machineState nodeID with
  | Some ns => state.GetAvailableCPUSet ns (reservedCPUs p)
  | None => ∅
  end.

Definition subsetAvailable (machineState : state.NUMANodeMap)
  (nodes : list Z) : machine.CPUSet :=
  ⋃ (nodeAvailable machineState <$> nodes).






End Views.

(** ** A reference implementation of the collaborators

    Used to evaluate the handlers on concrete machines. *)
Module Reference.

(** Modelled from the spec: the annotation keys and values of the API
    constants package are not part of the sources; the request carries a QoS
    class, a NUMA-binding flag, a NUMA-exclusivity flag and a serialized
    inter-pod affinity descriptor under fixed annotation keys. *)
Definition numaBindingKey : string := "numa_binding".
Definition numaExclusiveKey : string := "numa_exclusive".
Definition enable : string := "true".
Definition interPodAffinityKey : string := "microtopology_interpod_affinity".
Definition interPodAntiAffinityKey : string :=
  "microtopology_interpod_antiaffinity".
Definition socketZone : string := "socket".
Definition cpu : string := "cpu".

Definition annotationsIndicateNUMABinding (a : gmap string string) : bool :=
  bool_decide (strAt a numaBindingKey = enable).

Definition annotationsIndicateNUMAExclusive (a : gmap string string) : bool :=
  annotationsIndicateNUMABinding a
  && bool_decide (strAt a numaExclusiveKey = enable).

(** [ceil(a / b)] for [0 < b]. *)
Definition ceilDiv (a b : Z) : Z := - ((- a) / b).

(** Modelled from the spec: the helper is not part of the sources.  It
    computes the minimum number of NUMA nodes whose combined CPU capacity can
    satisfy the requested count, using the topology's per-node CPU count, and
    fails if no combination can ever satisfy the request. *)
Definition getNUMANodesCountToFitCPUReq (cpuReq : Z)
  (t : topology.CPUTopology) : Z * Z * option error :=
  let numaCount := topology.NumNUMANodes t in
  if numaCount <=? 0 then (0, 0, Some "there is no NUMA in cpuTopology")
  else if negb (topology.NumCPUs t mod numaCount =? 0)
  then (0, 0, Some "invalid NUMAs count")
  else
    let cpusPerNUMA := topology.NumCPUs t / numaCount in
    if cpusPerNUMA <=? 0 then (0, 0, Some "invalid CPUs count")
    else
      let numaCountNeeded := ceilDiv cpuReq cpusPerNUMA in
      if numaCountNeeded =? 0 then (0, 0, Some "zero numaCountNeeded")
      else if numaCount <? numaCountNeeded then (0, 0, Some "invalid cpu req")
      else (numaCountNeeded, ceilDiv cpuReq numaCountNeeded, None).

(** Modelled from the spec: socket-to-nodes and node-to-sockets lookups over
    the topology. *)
Definition socketsInNUMANodes (d : topology.CPUDetails_t) (numa : Z)
  : machine.CPUSet :=
  list_to_set
    (topology.SocketID <$>
       List.filter (fun i => topology.NUMANodeID i =? numa)
         (snd <$> map_to_list d)).

Definition numaNodesInSockets (d : topology.CPUDetails_t) (socket : Z)
  : machine.CPUSet :=
  list_to_set
    (topology.NUMANodeID <$>
       List.filter (fun i => topology.SocketID i =? socket)
         (snd <$> map_to_list d)).

(** Modelled from the spec: the count of NUMA nodes per socket; the lookup
    fails on a topology without sockets or with unevenly spread nodes. *)
Definition numasPerSocket (mi : KatalystMachineInfo) : Z * option error :=
  let t := CPUTopology mi in
  if topology.NumSockets t <=? 0 then (0, Some "invalid sockets count")
  else if negb (topology.NumNUMANodes t mod topology.NumSockets t =? 0)
  then (0, Some "NUMAs count is not a multiple of sockets count")
  else (topology.NumNUMANodes t / topology.NumSockets t, None).

(** Modelled from the spec: whether the given nodes span more than one
    socket; the lookup fails when a node has no socket. *)
Definition checkNUMACrossSockets (numaNodes : list Z)
  (t : topology.CPUTopology) : bool * option error :=
  if forallb
       (fun n =>
          negb (bool_decide
                  (socketsInNUMANodes (topology.CPUDetails t) n = ∅)))
       numaNodes
  then
    (1 <? machine.Size
            (⋃ (socketsInNUMANodes (topology.CPUDetails t) <$> numaNodes)),
     None)
  else (false, Some "failed to find the socket of a NUMA node").

(** Modelled from the spec: aggregated labels map a label key to the
    distinct values seen. *)
Definition mergeNumaInfoMap (podLabels : gmap string string)
  (numaLabels : gmap string (list string)) : gmap string (list string) :=
  foldl
    (fun acc kv =>
       let seen := default [] (acc !! kv.1) in
       if bool_decide (kv.2 ∈ seen) then acc
       else <[kv.1 := (seen ++ [kv.2])%list]> acc)
    numaLabels (map_to_list podLabels).

(** Modelled from the spec: partial counts are merged by summing key-wise. *)
Definition append (a b : util.TopologyAffinityCount)
  : util.TopologyAffinityCount :=
  union_with (fun x y => Some (x + y)) a b.

(** Modelled from the spec: the parser of affinity annotations is not part
    of the sources and the spec leaves the textual syntax to it.  In this
    stand-in an annotation value [zone:key=value] declares one required
    selector and any other non-empty value does not parse. *)
Fixpoint splitAt (c : Ascii.ascii) (s : string) : option (string * string) :=
  match s with
  | EmptyString => None
  | String a rest =>
      if Ascii.eqb a c then Some (EmptyString, rest)
      else match splitAt c rest with
           | Some (l, r) => Some (String a l, r)
           | None => None
           end
  end.

Definition parseSelector (v : string) : result apiconsts.Selector :=
  match splitAt ":"%char v with
  | None => Err "affinity descriptor: missing zone"
  | Some (zone, rest) =>
      match splitAt "="%char rest with
      | None => Err "affinity descriptor: missing label value"
      | Some (k, val) =>
          Ok {| apiconsts.MatchLabels := {[ k := val ]};
                apiconsts.Zone := zone |}
      end
  end.

Definition parseRequired (a : gmap string string) (key : string)
  : result (option util.MicroTopologyPodAffinityAnnotation) :=
  if bool_decide (strAt a key = EmptyString) then Ok None
  else match parseSelector (strAt a key) with
       | Ok s => Ok (Some {| util.Required := [s] |})
       | Err e => Err e
       end.

Definition unmarshalAffinity (a : gmap string string)
  : result util.MicroTopologyPodAffnity :=
  match parseRequired a interPodAffinityKey with
  | Err e => Err e
  | Ok affinity =>
      match parseRequired a interPodAntiAffinityKey with
      | Err e => Err e
      | Ok antiAffinity =>
          Ok {| util.Affinity := affinity; util.AntiAffinity := antiAffinity |}
      end
  end.

Definition packResourceHintsResponse (req : option pluginapi.ResourceRequest)
  (resourceName : string) (hints : option HintsMap)
  : option ResourceHintsResponse * option error :=
  match req with
  | None => (None, Some "PackResourceHintsResponse got nil request")
  | Some r =>
      (Some {| RespPodUid := pluginapi.PodUid r;
               RespContainerName := pluginapi.ContainerName r;
               ResourceName := resourceName;
               ResourceHints := hints |}, None)
  end.

(** Modelled from the spec: the collaborators gathered in one instance.
    Those that no property below exercises are stand-ins: every request asks
    for four CPUs, there is no allocation record to regenerate from and no
    override file. *)
Definition collaborators : Collaborators := {|
  PodAnnotationMemoryEnhancementNumaBinding := numaBindingKey;
  PodAnnotationMemoryEnhancementNumaBindingEnable := enable;
  PodAnnotationMemoryEnhancementNumaExclusive := numaExclusiveKey;
  PodAnnotationMemoryEnhancementNumaExclusiveEnable := enable;
  PodAnnotationMicroTopologyInterPodAntiAffinity := interPodAntiAffinityKey;
  PodAnnotationMicroTopologyAffinitySocket := socketZone;
  ResourceCPU := cpu;
  AnnotationsIndicateNUMABinding := annotationsIndicateNUMABinding;
  AnnotationsIndicateNUMAExclusive := annotationsIndicateNUMAExclusive;
  GetNUMANodesCountToFitCPUReq := getNUMANodesCountToFitCPUReq;
  GetQuantityFromResourceReq := fun _ => (4, None);
  GetHintsFromExtraStateFile := fun _ _ _ _ => (None, None);
  PackResourceHintsResponse := packResourceHintsResponse;
  MergeNumaInfoMap := mergeNumaInfoMap;
  UnmarshalAffinity := unmarshalAffinity;
  Append := append;
  RegenerateHints := fun _ _ => None;
  NUMAsPerSocket := numasPerSocket;
  CheckNUMACrossSockets := checkNUMACrossSockets;
  SocketsInNUMANodes := socketsInNUMANodes;
  NUMANodesInSockets := numaNodesInSockets;
  generateMachineStateFromPodEntries :=
    fun _ _ => (∅, Some "machine state cannot be regenerated");
  GetFilteredNUMASet := fun m => dom m
|}.

(** A machine with two sockets, two NUMA nodes per socket and four CPUs per
    node: CPU [c] sits on node [c / 4] and socket [c / 8]. *)
Definition cpuDetails : topology.CPUDetails_t :=
  list_to_map
    ((fun c : nat =>
        (Z.of_nat c,
         {| topology.NUMANodeID := Z.of_nat c / 4;
            topology.SocketID := Z.of_nat c / 8;
            topology.CoreID := Z.of_nat c |})) <$> seq 0 16).

Definition cpuTopology : topology.CPUTopology :=
  {| topology.NumCPUs := 16;
     topology.NumSockets := 2;
     topology.NumNUMANodes := 4;
     topology.CPUDetails := cpuDetails |}.

Definition cpusOfNode (n : nat) : machine.CPUSet :=
  list_to_set (Z.of_nat <$> seq (4 * n) 4).

Definition idleNode (n : nat) : state.NUMANodeState :=
  {| state.TotalCPUSet := cpusOfNode n;
     state.AllocatedCPUSet := ∅;
     state.PodEntries_ := [] |}.

(** All four nodes idle. *)
Definition idleMachine : state.NUMANodeMap :=
  {[ 0 := Some (idleNode 0); 1 := Some (idleNode 1);
     2 := Some (idleNode 2); 3 := Some (idleNode 3) ]}.

Definition policyOn (m : state.NUMANodeMap) : DynamicPolicy :=
  {| machineInfo := {| CPUTopology := cpuTopology |};
     reservedCPUs := ∅;
     state := {| machineState := m; podEntries := [] |};
     extraStateFileAbsPath := EmptyString |}.

Definition request (labels annotations : gmap string string)
  : pluginapi.ResourceRequest :=
  {| pluginapi.PodUid := "uid-1";
     pluginapi.PodNamespace := "default";
     pluginapi.PodName := "pod-1";
     pluginapi.ContainerName := "main";
     pluginapi.ContainerType_ := pluginapi.ContainerType_MAIN;
     pluginapi.Labels := labels;
     pluginapi.Annotations := annotations |}.
End Reference.

(** ** The admission conditions of the hint filter, as the specification
    words them *)

Section FilterSpec.
Context `{Collaborators}.

(** Counts are accumulated from zero and never negative. *)
Definition nonNegative (c : util.TopologyAffinityCount) : Prop :=
  forall numa, 0 <= util.countAt c numa.

(** A member node of a hint is admissible when no resident pod's
    anti-affinity matches the new pod, the new pod's anti-affinity matches no
    resident pod and, if the new pod declares required-affinity selectors,
    some resident pod matches them. *)
Definition spec_nodeAdmissible (st : preFilterState) (numa : Z) : Prop :=
  util.countAt (existingAntiAffinityCounts st) (int_of_uint64 numa) = 0 /\
  util.countAt (antiAffinityCounts st) (int_of_uint64 numa) = 0 /\
  (pod_AffinityRequiredSelectors (podAffinityInfo st) <> [] ->
   0 < util.countAt (affinityCounts st) (int_of_uint64 numa)).
End FilterSpec.

Section CollectorSpec.
Context `{Collaborators}.

End CollectorSpec.

Section ResponseViews.
Context `{Collaborators}.

(** The hint list of the CPU resource in the response of a handler; empty
    when the handler returned an error, no preference, or panicked. *)
Definition respondedHints
  (o : outcome (option ResourceHintsResponse * option error))
  : list (option pluginapi.TopologyHint) :=
  match o with
  | Return (Some resp, None) =>
      match hintsAt (ResourceHints resp) ResourceCPU with
      | Some l => pluginapi.Hints l
      | None => []
      end
  | _ => []
  end.
End ResponseViews.

Section DispatcherViews.
Context `{Collaborators}.
Variable p : DynamicPolicy.

(** The NUMA-binding handler, serving a primary container, finds neither an
    allocation record nor hints in the override file, runs the calculator for
    [reqInt] CPUs and obtains [calcHints] from it. *)
Definition calculatesFresh (req : pluginapi.ResourceRequest) (reqInt : Z)
  (calcHints : option HintsMap) : Prop :=
  pluginapi.ContainerType_ req <> pluginapi.ContainerType_SIDECAR /\
  GetQuantityFromResourceReq req = (reqInt, None) /\
  state.lookupEntry (podEntries (state p)) (pluginapi.PodUid req)
    ≫= (fun containers =>
          state.lookupEntry containers (pluginapi.ContainerName req)) = None /\
  (GetHintsFromExtraStateFile (pluginapi.PodName req) ResourceCPU
     (extraStateFileAbsPath p)
     (GetFilteredNUMASet (machineState (state p)))).1 = None /\
  calculateHints p reqInt (machineState (state p)) (pluginapi.Annotations req)
  = Return (calcHints, None).
End DispatcherViews.

(** Machines and requests used to evaluate the handlers. *)
Module Samples.
Import Reference.

(** Node 1 of the idle machine has lost its state. *)
Definition machineWithNilNode : state.NUMANodeMap :=
  <[1 := None]> idleMachine.

(** A pod with two containers whose entries carry different labels, resident
    on node 0. *)
Definition mainEntry : state.AllocationInfo :=
  {| state.Labels := {[ "app" := "db" ]}; state.Annotations := ∅ |}.
Definition sidecarEntry : state.AllocationInfo :=
  {| state.Labels := {[ "tier" := "cache" ]}; state.Annotations := ∅ |}.

Definition sharedNode : state.NUMANodeState :=
  {| state.TotalCPUSet := cpusOfNode 0;
     state.AllocatedCPUSet := {[ 0; 1 ]};
     state.PodEntries_ :=
       [("uid-a", [("main", mainEntry); ("sidecar", sidecarEntry)])] |}.

Definition machineWithPod : state.NUMANodeMap :=
  <[0 := Some sharedNode]> idleMachine.

(** An idle node 0 whose resident pod declares anti-affinity, scoped to the
    node, against pods labelled [env=prod]. *)
Definition guardedEntry : state.AllocationInfo :=
  {| state.Labels := {[ "app" := "db" ]};
     state.Annotations := {[ interPodAntiAffinityKey := "numa:env=prod" ]} |}.

Definition guardedNode : state.NUMANodeState :=
  {| state.TotalCPUSet := cpusOfNode 0;
     state.AllocatedCPUSet := ∅;
     state.PodEntries_ := [("uid-g", [("main", guardedEntry)])] |}.

Definition machineWithGuard : state.NUMANodeMap :=
  <[0 := Some guardedNode]> idleMachine.

(** Annotations of a NUMA-bound request, shared or exclusive. *)
Definition boundAnnotations : gmap string string :=
  {[ numaBindingKey := enable ]}.
Definition exclusiveAnnotations : gmap string string :=
  {[ numaBindingKey := enable; numaExclusiveKey := enable ]}.

(** A filter state in which a resident pod on node 1 rejects the new pod and
    the new pod's required affinity is matched on nodes 0 and 2. *)
Definition sampleSelector : apiconsts.Selector :=
  {| apiconsts.MatchLabels := {[ "app" := "db" ]}; apiconsts.Zone := "numa" |}.

Definition sampleFilterState : preFilterState :=
  {| existingAntiAffinityCounts := {[ 1 := 1 ]};
     affinityCounts := {[ 0 := 1; 2 := 2 ]};
     antiAffinityCounts := ∅;
     podAffinityInfo :=
       {| pod_labels := ∅;
          pod_AffinityRequiredSelectors := [sampleSelector];
          pod_AntiAffinityRequiredSelectors := [] |};
     numaAffinityInfoList := [] |}.

Definition hintOn (nodes : list Z) (preferred : bool)
  : option pluginapi.TopologyHint :=
  Some {| pluginapi.Nodes := nodes; pluginapi.Preferred := preferred |}.

Definition sampleCPUHints : pluginapi.ListOfTopologyHints :=
  {| pluginapi.Hints :=
       [hintOn [0] true; hintOn [1] true; hintOn [2] true; hintOn [3] true;
        hintOn [0; 2] false] |}.

Definition sampleHints : option HintsMap :=
  Some {[ cpu := Some sampleCPUHints ]}.
End Samples.

(** ** Further views of the calculator, the counter and the dispatcher *)

Section CalculatorViews.
Context `{Collaborators}.
Variable p : DynamicPolicy.

(** What the callback appends to the hint list for one mask, if anything. *)
Definition appended
  (callback : option bitmask.bitMask -> outcome (option pluginapi.TopologyHint))
  (mask : option bitmask.bitMask) : option (option pluginapi.TopologyHint) :=
  match callback mask with
  | Return (Some hint) => Some (Some hint)
  | _ => None
  end.

(** The hint that [calculateHints] builds for a node subset. *)
Definition hintFor (reqInt : Z) (nodes : list Z) : pluginapi.TopologyHint :=
  {| pluginapi.Nodes := nodes;
     pluginapi.Preferred :=
       Z.of_nat (length nodes) =? minNUMAsCountNeededOf p reqInt |}.

(** The checks of the callback, read as conditions on a node subset: enough
    nodes, a single node for a NUMA-bound non-exclusive request, every node
    with a state (and idle, for an exclusive request), enough available CPUs,
    and a cross-socket lookup that succeeds and does not reject the subset. *)
Definition subsetAccepted (reqInt : Z) (machineState : state.NUMANodeMap)
  (reqAnnotations : gmap string string) (nodes : list Z) : Prop :=
  minNUMAsCountNeededOf p reqInt <= Z.of_nat (length nodes) /\
  (bindingNotExclusive reqAnnotations = true ->
   Z.of_nat (length nodes) <= 1) /\
  Forall (fun nodeID =>
            exists ns, state.stateAt machineState nodeID = Some ns /\
              (AnnotationsIndicateNUMAExclusive reqAnnotations = true ->
               state.AllocatedCPUSet ns = ∅)) nodes /\
  reqInt <= machine.Size (subsetAvailable p machineState nodes) /\
  exists crossSockets,
    CheckNUMACrossSockets nodes (CPUTopology (machineInfo p))
    = (crossSockets, None) /\
    (Z.of_nat (length nodes) <= numaPerSocketOf p -> crossSockets = false).

(** The checks made before the enumeration all pass. *)
Definition preChecksPass (reqInt : Z) (reqAnnotations : gmap string string)
  : Prop :=
  (GetNUMANodesCountToFitCPUReq reqInt (CPUTopology (machineInfo p))).2 = None /\
  bindingNotExclusive reqAnnotations && (1 <? minNUMAsCountNeededOf p reqInt)
  = false /\
  (NUMAsPerSocket (machineInfo p)).2 = None.
End CalculatorViews.

Section CounterViews.
Context `{Collaborators}.
Variable p : DynamicPolicy.

(** What one matching label adds to the count of node [n] when the selector
    is evaluated for the node [numa] of socket [socket]: one on every node
    of the socket for a socket-scoped selector, one on [numa] otherwise. *)
Definition matchIncrement (seletor : apiconsts.Selector) (socket numa n : Z)
  : Z :=
  if bool_decide
       (apiconsts.Zone seletor = PodAnnotationMicroTopologyAffinitySocket)
  then
    if bool_decide
         (n ∈ NUMANodesInSockets
                (topology.CPUDetails (CPUTopology (machineInfo p))) socket)
    then 1 else 0
  else if bool_decide (n = numa) then 1 else 0.

(** The number of label pairs of a selector that a pod's labels satisfy. *)
Definition matchingPairs (labels : gmap string string)
  (seletor : apiconsts.Selector) : Z :=
  Z.of_nat
    (length
       (List.filter (fun kv : string * string =>
                       bool_decide (strAt labels kv.1 = kv.2))
          (map_to_list (apiconsts.MatchLabels seletor)))).

(** The number of label values aggregated on a node that the label pairs of
    a selector match, each value counted as often as it is listed. *)
Definition matchingValues (labels : gmap string (list string))
  (seletor : apiconsts.Selector) : Z :=
  foldr Z.add 0
    ((fun kv : string * string =>
        Z.of_nat
          (length
             (List.filter (fun numaVal => bool_decide (numaVal = kv.2))
                (default [] (labels !! kv.1)))))
       <$> map_to_list (apiconsts.MatchLabels seletor)).

Definition sumZ (l : list Z) : Z := foldr Z.add 0 l.

(** Appending partial counts sums them key-wise. *)
Definition AppendAdds : Prop :=
  forall a b n,
    util.countAt (Append a b) n = util.countAt a n + util.countAt b n.
End CounterViews.

(** Further machines and requests used to evaluate the handlers. *)
Module MoreSamples.
Import Reference Samples.


(** A machine with two CPUs per NUMA node: CPU [c] sits on node [c / 2] and
    socket [c / 4], so that four CPUs need two nodes. *)
Definition narrowDetails : topology.CPUDetails_t :=
  list_to_map
    ((fun c : nat =>
        (Z.of_nat c,
         {| topology.NUMANodeID := Z.of_nat c / 2;
            topology.SocketID := Z.of_nat c / 4;
            topology.CoreID := Z.of_nat c |})) <$> seq 0 8).

Definition narrowTopology : topology.CPUTopology :=
  {| topology.NumCPUs := 8;
     topology.NumSockets := 2;
     topology.NumNUMANodes := 4;
     topology.CPUDetails := narrowDetails |}.

Definition narrowPolicy : DynamicPolicy :=
  {| machineInfo := {| CPUTopology := narrowTopology |};
     reservedCPUs := ∅;
     state := {| machineState := idleMachine; podEntries := [] |};
     extraStateFileAbsPath := EmptyString |}.

(** The policy object holds an allocation record for the requesting
    container. *)
Definition storedRecord : state.AllocationInfo :=
  {| state.Labels := ∅; state.Annotations := boundAnnotations |}.

Definition policyWithRecord : DynamicPolicy :=
  {| machineInfo := {| CPUTopology := cpuTopology |};
     reservedCPUs := ∅;
     state := {| machineState := idleMachine;
                 podEntries := [("uid-1", [("main", storedRecord)])] |};
     extraStateFileAbsPath := EmptyString |}.

(** The sidecar of a NUMA-bound pod. *)
Definition sidecarRequest : pluginapi.ResourceRequest :=
  {| pluginapi.PodUid := "uid-1";
     pluginapi.PodNamespace := "default";
     pluginapi.PodName := "pod-1";
     pluginapi.ContainerName := "sidecar";
     pluginapi.ContainerType_ := pluginapi.ContainerType_SIDECAR;
     pluginapi.Labels := ∅;
     pluginapi.Annotations := boundAnnotations |}.

(** Requests against the machine whose node 0 hosts the guarded pod: one
    labelled [env=prod], one declaring anti-affinity against [app=db], one
    requiring a pod labelled [rack=a] on its socket, one whose affinity
    annotation does not parse. *)
Definition prodRequest : pluginapi.ResourceRequest :=
  request {[ "env" := "prod" ]} boundAnnotations.

Definition avoidingRequest : pluginapi.ResourceRequest :=
  request ∅ (<[interPodAntiAffinityKey := "numa:app=db"]> boundAnnotations).

Definition rackRequest : pluginapi.ResourceRequest :=
  request ∅ (<[interPodAffinityKey := "socket:rack=a"]> boundAnnotations).

Definition garbledRequest : pluginapi.ResourceRequest :=
  request ∅ (<[interPodAffinityKey := "rack"]> boundAnnotations).

Definition prodSelector : apiconsts.Selector :=
  {| apiconsts.MatchLabels := {[ "env" := "prod" ]};
     apiconsts.Zone := "numa" |}.

Definition guardedInfo : numaInfo :=
  {| labels := {[ "app" := ["db"] ]};
     socketID := 0;
     numaID := 0;
     AntiAffinityRequiredSelectors := [prodSelector] |}.

(** The hints left by the filter on the sample hints. *)
Definition filteredSampleHints : option HintsMap :=
  Some {[ cpu := Some {| pluginapi.Hints :=
                           [hintOn [0] true; hintOn [2] true;
                            hintOn [0; 2] false] |} ]}.
End MoreSamples.

(** * Properties *)

(** ** Bit masks *)

Section BitMaskFacts.
Import bitmask.

Lemma land_single_bit (s i : Z) :
  0 <= i -> Z.land s (Z.shiftl 1 i) = if Z.testbit s i then 2 ^ i else 0.
Proof.
  intros Hi. rewrite Z.shiftl_1_l.
  apply Z.bits_inj'. intros n Hn.
  rewrite Z.land_spec, Z.pow2_bits_eqb by lia.
  destruct (Z.eqb_spec i n) as [->|Hne].
  - destruct (Z.testbit s n); simpl.
    + rewrite Z.pow2_bits_eqb by lia. now rewrite Z.eqb_refl.
    + now rewrite Z.bits_0.
  - rewrite andb_false_r.
    destruct (Z.testbit s i).
    + rewrite Z.pow2_bits_eqb by lia. symmetry. now apply Z.eqb_neq.
    + now rewrite Z.bits_0.
Qed.

Lemma isSet_testbit (s i : Z) : 0 <= i -> isSet s i = Z.testbit s i.
Proof.
  intros Hi. unfold isSet. rewrite land_single_bit by done.
  destruct (Z.testbit s i).
  - apply Z.ltb_lt. apply Z.pow_pos_nonneg; lia.
  - reflexivity.
Qed.

Lemma elem_of_bit_range (i : Z) :
  i ∈ (Z.of_nat <$> seq 0 64) <-> 0 <= i < 64.
Proof.
  rewrite list_elem_of_fmap. split.
  - intros (n & -> & Hn). apply elem_of_seq in Hn. lia.
  - intros Hi. exists (Z.to_nat i). split; [lia|]. apply elem_of_seq. lia.
Qed.

Lemma filter_ext_elem {A} (f g : A -> bool) (l : list A) :
  (forall x, x ∈ l -> f x = g x) -> List.filter f l = List.filter g l.
Proof.
  induction l as [|a l IH]; intros Hfg; [done|]. simpl.
  rewrite (Hfg a) by left. rewrite IH; [done|].
  intros x Hx. apply Hfg. now right.
Qed.

Lemma Count_GetBits (s : bitMask) :
  Count s = Z.of_nat (length (GetBits s)).
Proof.
  unfold Count, OnesCount64, GetBits. do 2 f_equal.
  apply filter_ext_elem. intros i Hi.
  apply elem_of_bit_range in Hi. symmetry. apply isSet_testbit. lia.
Qed.

Lemma elem_of_GetBits (s : bitMask) (i : Z) :
  i ∈ GetBits s <-> 0 <= i < 64 /\ Z.testbit s i = true.
Proof.
  unfold GetBits. rewrite list_elem_of_In, filter_In, <- list_elem_of_In.
  rewrite elem_of_bit_range. split.
  - intros [Hi Hs]. split; [done|]. now rewrite <- isSet_testbit by lia.
  - intros [Hi Hs]. split; [done|]. now rewrite isSet_testbit by lia.
Qed.

Lemma MaskToUInt64Array_GetBits (mask : bitMask) :
  MaskToUInt64Array mask = GetBits mask.
Proof.
  unfold MaskToUInt64Array.
  transitivity (id <$> GetBits mask); [|apply list_fmap_id].
  apply Forall_fmap_ext_1, Forall_forall. intros i Hi.
  apply elem_of_GetBits in Hi as [Hi _].
  unfold uint64_of_int, id. apply Z.mod_small.
  split; [lia|]. apply Z.lt_trans with 64; [lia|reflexivity].
Qed.

Lemma testbit_fold_lor (bits : list Z) (s j : Z) :
  0 <= j -> Forall (fun b => 0 <= b) bits ->
  Z.testbit (fold_left (fun m i => Z.lor m (Z.shiftl 1 i)) bits s) j
  = Z.testbit s j || bool_decide (j ∈ bits).
Proof.
  intros Hj. revert s.
  induction bits as [|b bits IH]; intros s Hall; cbn [fold_left].
  - rewrite bool_decide_eq_false_2 by apply not_elem_of_nil.
    now rewrite orb_false_r.
  - apply Forall_cons in Hall as [Hb Hall].
    rewrite IH by done. rewrite Z.lor_spec, Z.shiftl_1_l.
    rewrite Z.pow2_bits_eqb by done.
    destruct (Z.eqb_spec b j) as [->|Hne].
    + rewrite (bool_decide_eq_true_2 (j ∈ j :: bits)) by left.
      now rewrite !orb_true_r.
    + rewrite orb_false_r. f_equal. apply bool_decide_ext.
      rewrite elem_of_cons. intuition congruence.
Qed.

Lemma NewBitMask_members (bits : list Z) (mask : bitMask) (b : Z) :
  NewBitMask bits = Some mask -> b ∈ bits -> b ∈ GetBits mask.
Proof.
  unfold NewBitMask, Add. intros Hnew Hb.
  destruct (forallb validBit bits) eqn:Hvalid; [|done].
  injection Hnew as <-.
  assert (Hall : Forall (fun i => 0 <= i < 64) bits).
  { apply Forall_forall. intros i Hi.
    rewrite forallb_forall in Hvalid.
    apply list_elem_of_In, Hvalid in Hi. unfold validBit in Hi. lia. }
  apply elem_of_GetBits. split.
  - rewrite Forall_forall in Hall. now apply Hall.
  - rewrite testbit_fold_lor.
    + rewrite bool_decide_eq_true_2 by done. apply orb_true_r.
    + rewrite Forall_forall in Hall. apply Hall in Hb. lia.
    + eapply Forall_impl; [exact Hall|]. simpl. lia.
Qed.

Lemma iterate_cons (b : Z) (rest accum : list Z) (size : nat) :
  iterate (b :: rest) accum size
  = if (length accum =? size)%nat then [NewBitMask accum]
    else (iterate rest (accum ++ [b]) size ++ iterate rest accum size)%list.
Proof.
  simpl. destruct (length accum =? size)%nat eqn:E; [done|].
  f_equal. destruct rest; simpl; now rewrite E.
Qed.

Lemma iterate_masks (bits accum : list Z) (size : nat) (x : option bitMask) :
  x ∈ iterate bits accum size ->
  exists accum', x = NewBitMask accum' /\ length accum' = size.
Proof.
  revert accum. induction bits as [|b rest IH]; intros accum Hx.
  - simpl in Hx. destruct (Nat.eqb_spec (length accum) size) as [E|E].
    + apply list_elem_of_singleton in Hx. eauto.
    + now apply elem_of_nil in Hx.
  - rewrite iterate_cons in Hx.
    destruct (Nat.eqb_spec (length accum) size) as [E|E].
    + apply list_elem_of_singleton in Hx. eauto.
    + apply elem_of_app in Hx as [Hx|Hx]; eauto.
Qed.

Lemma IterateBitMasks_nonempty (bits : list Z) (mask : bitMask) :
  Some mask ∈ IterateBitMasks bits -> 1 <= Count mask.
Proof.
  unfold IterateBitMasks. rewrite list_elem_of_In, in_flat_map.
  intros (size & Hsize & Hin).
  apply in_seq in Hsize. apply list_elem_of_In, iterate_masks in Hin.
  destruct Hin as (accum' & Hnew & Hlen).
  destruct accum' as [|b accum']; [simpl in Hlen; lia|].
  assert (Hb : b ∈ GetBits mask).
  { eapply NewBitMask_members; [symmetry; exact Hnew|left]. }
  rewrite Count_GetBits. destruct (GetBits mask); [|simpl; lia].
  now apply elem_of_nil in Hb.
Qed.
End BitMaskFacts.

(** The mask operations are only used through the facts above from here on. *)
(** ** The enumeration of masks *)

Transparent bitmask.GetBits bitmask.Count MaskToUInt64Array.

Section EnumerationFacts.
Import bitmask.

Lemma StronglySorted_List_filter {A} (R : relation A) (f : A -> bool) l :
  StronglySorted R l -> StronglySorted R (List.filter f l).
Proof.
  induction 1 as [|a l Hl IH Ha]; cbn [List.filter]; [constructor|].
  destruct (f a); [|exact IH]. constructor; [exact IH|].
  apply Forall_forall. intros x Hx.
  apply list_elem_of_In, filter_In in Hx as [Hx _].
  rewrite Forall_forall in Ha. apply Ha. now apply list_elem_of_In.
Qed.

Lemma StronglySorted_range (a n : nat) :
  StronglySorted Z.lt (Z.of_nat <$> seq a n).
Proof.
  revert a. induction n as [|n IH]; intros a; cbn [seq fmap list_fmap];
    [constructor|].
  constructor; [apply IH|]. apply Forall_forall. intros x Hx.
  apply list_elem_of_fmap in Hx as (k & -> & Hk).
  apply elem_of_seq in Hk. lia.
Qed.

Lemma GetBits_increasing (mask : bitMask) : StronglySorted Z.lt (GetBits mask).
Proof.
  unfold GetBits. apply StronglySorted_List_filter, StronglySorted_range.
Qed.

Lemma StronglySorted_lt_NoDup (l : list Z) : StronglySorted Z.lt l -> NoDup l.
Proof.
  induction 1 as [|a l Hl IH Ha]; constructor; [|exact IH].
  intros Hin. rewrite Forall_forall in Ha. apply Ha in Hin. lia.
Qed.

Lemma StronglySorted_sublist {A} (R : relation A) (l1 l2 : list A) :
  l1 `sublist_of` l2 -> StronglySorted R l2 -> StronglySorted R l1.
Proof.
  induction 1 as [|x l1 l2 Hsub IH|x l1 l2 Hsub IH]; intros Hsorted.
  - constructor.
  - apply StronglySorted_cons in Hsorted as [Hx Hl2].
    constructor; [now apply IH|].
    apply Forall_forall. intros y Hy. rewrite Forall_forall in Hx.
    apply Hx. eapply elem_of_sublist; eassumption.
  - apply StronglySorted_cons in Hsorted as [_ Hl2]. now apply IH.
Qed.

(** A mask built from an increasing list of IDs lists exactly those IDs. *)
Lemma NewBitMask_GetBits (accum : list Z) (mask : bitMask) :
  NewBitMask accum = Some mask -> StronglySorted Z.lt accum ->
  GetBits mask = accum.
Proof.
  intros Hnew Hsorted.
  apply (StronglySorted_unique_strong Z.lt);
    [intros; lia|apply GetBits_increasing|exact Hsorted|].
  apply NoDup_Permutation;
    [apply StronglySorted_lt_NoDup, GetBits_increasing
    |now apply StronglySorted_lt_NoDup|].
  intros i. split; [|now apply NewBitMask_members].
  intros Hi. apply elem_of_GetBits in Hi as [Hrange Hbit].
  unfold NewBitMask, Add in Hnew.
  destruct (forallb validBit accum) eqn:Hvalid; [|discriminate].
  injection Hnew as <-.
  rewrite testbit_fold_lor in Hbit.
  - rewrite Z.bits_0 in Hbit. cbn [orb] in Hbit.
    now apply bool_decide_eq_true_1 in Hbit.
  - lia.
  - apply Forall_forall. intros b Hb. rewrite forallb_forall in Hvalid.
    apply list_elem_of_In, Hvalid in Hb. unfold validBit in Hb. lia.
Qed.

(** Every mask handed to the callback for size [size] is built from [accum]
    followed by IDs chosen, in order, among [bits]. *)
Lemma iterate_chosen (bits accum : list Z) (size : nat) (x : option bitMask) :
  x ∈ iterate bits accum size ->
  exists chosen, x = NewBitMask (accum ++ chosen) /\
    length (accum ++ chosen) = size /\ chosen `sublist_of` bits.
Proof.
  revert accum. induction bits as [|b rest IH]; intros accum Hx.
  - simpl in Hx. destruct (Nat.eqb_spec (length accum) size) as [E|E].
    + apply list_elem_of_singleton in Hx. exists [].
      rewrite app_nil_r. split; [exact Hx|]. split; [exact E|constructor].
    + now apply elem_of_nil in Hx.
  - rewrite iterate_cons in Hx.
    destruct (Nat.eqb_spec (length accum) size) as [E|E].
    + apply list_elem_of_singleton in Hx. exists [].
      rewrite app_nil_r. split; [exact Hx|]. split; [exact E|].
      apply sublist_nil_l.
    + apply elem_of_app in Hx as [Hx|Hx].
      * apply IH in Hx as (chosen & -> & Hlen & Hsub).
        exists (b :: chosen). rewrite <- app_assoc in *.
        split; [reflexivity|]. split; [exact Hlen|now apply sublist_skip].
      * apply IH in Hx as (chosen & -> & Hlen & Hsub).
        exists chosen. split; [reflexivity|]. split; [exact Hlen|].
        now apply sublist_cons.
Qed.

Lemma IterateBitMasks_chosen (bits : list Z) (x : option bitMask) :
  x ∈ IterateBitMasks bits ->
  exists chosen, x = NewBitMask chosen /\ chosen <> [] /\
                 chosen `sublist_of` bits.
Proof.
  unfold IterateBitMasks. rewrite list_elem_of_In, in_flat_map.
  intros (size & Hsize & Hin). apply in_seq in Hsize.
  apply list_elem_of_In, iterate_chosen in Hin as (chosen & -> & Hlen & Hsub).
  exists chosen. split; [reflexivity|]. split; [|exact Hsub].
  intros ->. cbn in Hlen. lia.
Qed.

Lemma NewBitMask_valid (accum : list Z) :
  Forall (fun i => 0 <= i < 64) accum <-> is_Some (NewBitMask accum).
Proof.
  unfold NewBitMask, Add. split.
  - intros Hall. rewrite (proj2 (forallb_forall validBit accum)); [eauto|].
    intros i Hi. rewrite Forall_forall in Hall.
    apply list_elem_of_In, Hall in Hi. unfold validBit. lia.
  - destruct (forallb validBit accum) eqn:Hvalid; [|now intros [? ?]].
    intros _. apply Forall_forall. intros i Hi.
    rewrite forallb_forall in Hvalid.
    apply list_elem_of_In, Hvalid in Hi. unfold validBit in Hi. lia.
Qed.

Lemma iterate_single (bits : list Z) (k : Z) :
  k ∈ bits -> NewBitMask [k] ∈ iterate bits [] 1.
Proof.
  induction bits as [|b rest IH]; [now intros ?%elem_of_nil|].
  intros Hk. rewrite iterate_cons. cbn [length Nat.eqb app].
  apply elem_of_app. apply elem_of_cons in Hk as [->|Hk].
  - left. destruct rest; cbn; apply elem_of_cons; now left.
  - right. now apply IH.
Qed.

Lemma IterateBitMasks_single (bits : list Z) (k : Z) :
  k ∈ bits -> NewBitMask [k] ∈ IterateBitMasks bits.
Proof.
  intros Hk. unfold IterateBitMasks.
  apply list_elem_of_In, in_flat_map. exists 1%nat. split.
  - apply in_seq. destruct bits; [now apply elem_of_nil in Hk|cbn; lia].
  - now apply list_elem_of_In, iterate_single.
Qed.
End EnumerationFacts.

Section SnapshotNodes.

Lemma StronglySorted_le_NoDup_lt (l : list Z) :
  StronglySorted Z.le l -> NoDup l -> StronglySorted Z.lt l.
Proof.
  induction 1 as [|a l Hl IH Ha]; intros Hnd; [constructor|].
  apply NoDup_cons in Hnd as [Hnotin Hnd].
  constructor; [now apply IH|].
  apply Forall_forall. intros x Hx.
  rewrite Forall_forall in Ha. pose proof (Ha x Hx).
  assert (x <> a) by (intros ->; contradiction). lia.
Qed.

Lemma elem_of_numaNodesOf (ms : state.NUMANodeMap) (k : Z) :
  k ∈ numaNodesOf ms <-> is_Some (ms !! k).
Proof.
  unfold numaNodesOf, sortInts. rewrite merge_sort_Permutation.
  rewrite list_elem_of_fmap. split.
  - intros ([k' v] & -> & Hin). apply elem_of_map_to_list in Hin. eauto.
  - intros [v Hv]. exists (k, v). split; [reflexivity|].
    now apply elem_of_map_to_list.
Qed.

Lemma numaNodesOf_increasing (ms : state.NUMANodeMap) :
  StronglySorted Z.lt (numaNodesOf ms).
Proof.
  apply StronglySorted_le_NoDup_lt.
  - unfold numaNodesOf, sortInts. apply StronglySorted_merge_sort; apply _.
  - unfold numaNodesOf, sortInts. rewrite merge_sort_Permutation.
    apply NoDup_fst_map_to_list.
Qed.

(** The members of an enumerated mask are node IDs of the snapshot, taken in
    increasing order, and there is at least one. *)
Lemma enumerated_mask_bits (ms : state.NUMANodeMap) (mask : bitmask.bitMask) :
  Some mask ∈ bitmask.IterateBitMasks (numaNodesOf ms) ->
  bitmask.GetBits mask `sublist_of` numaNodesOf ms /\
  bitmask.GetBits mask <> [].
Proof.
  intros Hin. apply IterateBitMasks_chosen in Hin as (chosen & Hnew & Hne & Hsub).
  rewrite (NewBitMask_GetBits chosen mask); [now split|now symmetry|].
  eapply StronglySorted_sublist; [exact Hsub|apply numaNodesOf_increasing].
Qed.
End SnapshotNodes.

Opaque bitmask.GetBits bitmask.Count MaskToUInt64Array.

(** ** Hint calculator *)

Section CalculatorFacts.
Context `{Collaborators}.
Variable p : DynamicPolicy.

Lemma runCallbacks_spec cb masks acc out :
  runCallbacks cb masks acc = Return out ->
  exists hs, out = (acc ++ hs)%list /\
    forall h, h ∈ hs <->
      exists hint mask, h = Some hint /\ mask ∈ masks /\
                        cb mask = Return (Some hint).
Proof.
  revert acc. induction masks as [|mask rest IH]; intros acc Hrun; simpl in Hrun.
  - injection Hrun as <-. exists []. split; [by rewrite app_nil_r|].
    intros h. split; [by intros ?%elem_of_nil|].
    by intros (? & ? & _ & ?%elem_of_nil & _).
  - destruct (cb mask) as [[hint|]|] eqn:Hcb; [| |done].
    + apply IH in Hrun as (hs & -> & Hhs).
      exists (Some hint :: hs). split; [by rewrite <- app_assoc|].
      intros h. rewrite elem_of_cons, Hhs. split.
      * intros [->|(hint' & mask' & -> & Hin & Hcb')].
        -- exists hint, mask. split_and!; [done|left|done].
        -- exists hint', mask'. split_and!; [done|by right|done].
      * intros (hint' & mask' & -> & Hin & Hcb').
        apply elem_of_cons in Hin as [->|Hin].
        -- left. congruence.
        -- right. eauto.
    + apply IH in Hrun as (hs & -> & Hhs).
      exists hs. split; [done|]. intros h. rewrite Hhs. split.
      * intros (hint' & mask' & -> & Hin & Hcb').
        exists hint', mask'. split_and!; [done|by right|done].
      * intros (hint' & mask' & -> & Hin & Hcb').
        apply elem_of_cons in Hin as [->|Hin]; [congruence|eauto].
Qed.

Lemma availableCPUsInMask_Some ms ann bits acc s :
  availableCPUsInMask p ms ann bits acc = Some s ->
  s = acc ∪ subsetAvailable p ms bits /\
  Forall (fun n => is_Some (state.stateAt ms n)) bits.
Proof.
  revert acc. induction bits as [|n bits IH]; intros acc Hs; simpl in Hs.
  - injection Hs as <-. split; [|constructor].
    unfold subsetAvailable. rewrite fmap_nil, union_list_nil.
    now rewrite (right_id_L ∅ (∪)).
  - destruct (state.stateAt ms n) as [ns|] eqn:Hn; [|done].
    destruct (AnnotationsIndicateNUMAExclusive ann
              && (0 <? machine.Size (state.AllocatedCPUSet ns))); [done|].
    apply IH in Hs as [-> Hall]. split.
    + unfold subsetAvailable, machine.Union.
      rewrite fmap_cons, union_list_cons. unfold nodeAvailable at 2.
      rewrite Hn. now rewrite (assoc_L (∪)).
    + constructor; [by rewrite Hn|done].
Qed.

Lemma availableCPUsInMask_nil_state ms ann bits acc n :
  n ∈ bits -> state.stateAt ms n = None ->
  availableCPUsInMask p ms ann bits acc = None.
Proof.
  intros Hn Hnil.
  destruct (availableCPUsInMask p ms ann bits acc) as [s|] eqn:E; [|done].
  apply availableCPUsInMask_Some in E as [_ Hall].
  rewrite Forall_forall in Hall. apply Hall in Hn.
  rewrite Hnil in Hn. by destruct Hn.
Qed.

Lemma hintCallback_emit_inv R m nps ms ann mask hint :
  hintCallback p R m nps ms ann mask = Return (Some hint) ->
  exists bm, mask = Some bm /\
    m <= bitmask.Count bm /\
    (bindingNotExclusive ann = true -> bitmask.Count bm <= 1) /\
    (exists s, availableCPUsInMask p ms ann (bitmask.GetBits bm)
                 machine.NewCPUSet = Some s
               /\ R <= machine.Size s) /\
    (exists crossSockets,
        CheckNUMACrossSockets (bitmask.GetBits bm) (CPUTopology (machineInfo p))
        = (crossSockets, None)
        /\ (bitmask.Count bm <= nps -> crossSockets = false)) /\
    hint = {| pluginapi.Nodes := bitmask.GetBits bm;
              pluginapi.Preferred :=
                Z.of_nat (length (bitmask.GetBits bm)) =? m |}.
Proof.
  unfold hintCallback. destruct mask as [bm|]; [|discriminate].
  intros Hcb. exists bm. split; [reflexivity|].
  destruct (Z.ltb_spec (bitmask.Count bm) m) as [?|Hmin]; [discriminate|].
  destruct (bindingNotExclusive ann && (1 <? bitmask.Count bm)) eqn:Hbne;
    [discriminate|].
  destruct (availableCPUsInMask p ms ann (bitmask.GetBits bm) machine.NewCPUSet)
    as [s|] eqn:Hav; [|discriminate].
  destruct (Z.ltb_spec (machine.Size s) R) as [?|Hsize]; [discriminate|].
  destruct (CheckNUMACrossSockets (bitmask.GetBits bm)
              (CPUTopology (machineInfo p))) as [cross [e|]] eqn:Hcross;
    [discriminate|].
  destruct ((bitmask.Count bm <=? nps) && cross) eqn:Hskip; [discriminate|].
  injection Hcb as <-.
  split; [|split; [|split; [|split]]].
  - exact Hmin.
  - intros Hb. rewrite Hb in Hbne. cbn [andb] in Hbne.
    apply Z.ltb_ge in Hbne. exact Hbne.
  - exists s. split; [reflexivity|exact Hsize].
  - exists cross. split; [reflexivity|]. intros Hle.
    apply andb_false_iff in Hskip as [Hskip|Hskip]; [|exact Hskip].
    apply Z.leb_gt in Hskip. lia.
  - rewrite MaskToUInt64Array_GetBits. reflexivity.
Qed.

Lemma emittedHints_retErr e :
  emittedHints (retErr e) = [].
Proof. reflexivity. Qed.

Lemma emittedHints_retOk l :
  emittedHints (retOk {[ ResourceCPU := Some {| pluginapi.Hints := l |} ]}) = l.
Proof.
  unfold emittedHints, retOk, hintsAt. by rewrite lookup_singleton_eq.
Qed.

(** The three checks that [calculateHints] makes before it enumerates masks;
    past them the call returns the hints of the masks that pass the callback,
    unless the callback panics. *)
Lemma calculateHints_cases R ms ann :
  (exists e, calculateHints p R ms ann = retErr e) \/
  (bindingNotExclusive ann && (1 <? minNUMAsCountNeededOf p R) = false /\
   calculateHints p R ms ann =
     match runCallbacks
             (hintCallback p R (minNUMAsCountNeededOf p R) (numaPerSocketOf p)
                ms ann)
             (bitmask.IterateBitMasks (numaNodesOf ms)) [] with
     | Panic => Panic
     | Return cpuHints =>
         retOk {[ ResourceCPU := Some {| pluginapi.Hints := cpuHints |} ]}
     end).
Proof.
  unfold calculateHints, minNUMAsCountNeededOf, numaPerSocketOf, numaNodesOf.
  destruct (GetNUMANodesCountToFitCPUReq R (CPUTopology (machineInfo p)))
    as [[m x] [e|]]; cbn [fst snd]; [left; eauto|].
  destruct (bindingNotExclusive ann && (1 <? m)) eqn:Hpol; [left; eauto|].
  destruct (NUMAsPerSocket (machineInfo p)) as [nps [e|]]; cbn [fst snd];
    [left; eauto|].
  right. split; reflexivity.
Qed.

Lemma calculateHints_emitted_inv R ms ann h :
  h ∈ emittedHints (calculateHints p R ms ann) ->
  exists hint mask, h = Some hint /\
    mask ∈ bitmask.IterateBitMasks (numaNodesOf ms) /\
    hintCallback p R (minNUMAsCountNeededOf p R) (numaPerSocketOf p) ms ann
      mask = Return (Some hint) /\
    bindingNotExclusive ann && (1 <? minNUMAsCountNeededOf p R) = false.
Proof.
  destruct (calculateHints_cases R ms ann) as [[e ->]|[Hpol ->]].
  - rewrite emittedHints_retErr. by intros ?%elem_of_nil.
  - destruct (runCallbacks _ _ _) as [out|] eqn:Hrun;
      [|by intros ?%elem_of_nil].
    rewrite emittedHints_retOk. intros Hh.
    apply runCallbacks_spec in Hrun as (hs & -> & Hhs).
    rewrite app_nil_l in Hh. apply Hhs in Hh as (hint & mask & -> & Hin & Hcb).
    exists hint, mask. split; [reflexivity|]. split; [exact Hin|].
    split; [exact Hcb|exact Hpol].
Qed.

Lemma calculateHints_emits R ms ann mask hint :
  (exists hints, calculateHints p R ms ann = Return (Some hints, None)) ->
  mask ∈ bitmask.IterateBitMasks (numaNodesOf ms) ->
  hintCallback p R (minNUMAsCountNeededOf p R) (numaPerSocketOf p) ms ann
    mask = Return (Some hint) ->
  Some hint ∈ emittedHints (calculateHints p R ms ann).
Proof.
  destruct (calculateHints_cases R ms ann) as [[e ->]|[Hpol ->]].
  - intros [hints Hret]. discriminate Hret.
  - destruct (runCallbacks _ _ _) as [out|] eqn:Hrun.
    + intros _ Hin Hcb. rewrite emittedHints_retOk.
      apply runCallbacks_spec in Hrun as (hs & -> & Hhs).
      rewrite app_nil_l. apply Hhs. eauto.
    + intros [hints Hret]. discriminate Hret.
Qed.
End CalculatorFacts.

(** ** More on the hint calculator *)

Section CalculatorExtras.
Context `{Collaborators}.
Variable p : DynamicPolicy.

Lemma iterate_complete (bits accum chosen : list Z) (size : nat) :
  chosen `sublist_of` bits ->
  (length accum + length chosen)%nat = size ->
  bitmask.NewBitMask (accum ++ chosen) ∈ bitmask.iterate bits accum size.
Proof.
  revert accum chosen. induction bits as [|b rest IH]; intros accum chosen Hsub Hlen.
  - apply sublist_nil_r in Hsub as ->. rewrite app_nil_r.
    cbn [bitmask.iterate]. cbn [length] in Hlen.
    rewrite (proj2 (Nat.eqb_eq (length accum) size)) by lia.
    apply elem_of_cons. now left.
  - rewrite iterate_cons.
    destruct (Nat.eqb_spec (length accum) size) as [E|E].
    + destruct chosen; [|cbn [length] in Hlen; lia].
      rewrite app_nil_r. apply elem_of_cons. now left.
    + apply elem_of_app.
      apply sublist_cons_r in Hsub as [Hsub|(chosen' & -> & Hsub)].
      * right. now apply IH.
      * left. replace (accum ++ b :: chosen')%list
          with ((accum ++ [b]) ++ chosen')%list
          by now rewrite <- app_assoc.
        apply IH; [exact Hsub|]. rewrite length_app. cbn [length] in *. lia.
Qed.

Lemma IterateBitMasks_complete (bits chosen : list Z) :
  chosen <> [] -> chosen `sublist_of` bits ->
  bitmask.NewBitMask chosen ∈ bitmask.IterateBitMasks bits.
Proof.
  intros Hne Hsub. unfold bitmask.IterateBitMasks.
  apply list_elem_of_In, in_flat_map. exists (length chosen). split.
  - apply in_seq. apply sublist_length in Hsub.
    destruct chosen; [contradiction|cbn [length] in *; lia].
  - apply list_elem_of_In.
    now apply (iterate_complete bits [] chosen (length chosen)).
Qed.

Lemma hintCallback_not_Panic R m nps ms ann mask :
  hintCallback p R m nps ms ann (Some mask) <> Panic.
Proof.
  unfold hintCallback.
  destruct (bitmask.Count mask <? m); [discriminate|].
  destruct (bindingNotExclusive ann && (1 <? bitmask.Count mask));
    [discriminate|].
  destruct (availableCPUsInMask p ms ann (bitmask.GetBits mask)
              machine.NewCPUSet) as [s|]; [|discriminate].
  destruct (machine.Size s <? R); [discriminate|].
  destruct (CheckNUMACrossSockets (bitmask.GetBits mask)
              (CPUTopology (machineInfo p))) as [cross [e|]]; [discriminate|].
  destruct ((bitmask.Count mask <=? nps) && cross); discriminate.
Qed.

Lemma runCallbacks_omap cb masks acc out :
  runCallbacks cb masks acc = Return out ->
  out = (acc ++ omap (appended cb) masks)%list.
Proof.
  revert acc. induction masks as [|mask rest IH]; intros acc Hrun;
    cbn [runCallbacks] in Hrun.
  - injection Hrun as <-. cbn. now rewrite app_nil_r.
  - cbn [omap list_omap]. unfold appended at 1.
    destruct (cb mask) as [[hint|]|]; [| |discriminate].
    + apply IH in Hrun as ->. now rewrite <- app_assoc.
    + now apply IH in Hrun.
Qed.

Lemma runCallbacks_Panic cb masks acc :
  runCallbacks cb masks acc = Panic <-> exists mask, mask ∈ masks /\ cb mask = Panic.
Proof.
  revert acc. induction masks as [|mask rest IH]; intros acc;
    cbn [runCallbacks].
  - split; [discriminate|]. now intros (? & ?%elem_of_nil & _).
  - destruct (cb mask) as [[hint|]|] eqn:Hcb.
    + rewrite IH. split.
      * intros (m & Hin & Hp). exists m. split; [now apply elem_of_cons; right|exact Hp].
      * intros (m & Hin & Hp). apply elem_of_cons in Hin as [->|Hin];
          [congruence|eauto].
    + rewrite IH. split.
      * intros (m & Hin & Hp). exists m. split; [now apply elem_of_cons; right|exact Hp].
      * intros (m & Hin & Hp). apply elem_of_cons in Hin as [->|Hin];
          [congruence|eauto].
    + split; [|reflexivity]. intros _. exists mask.
      split; [apply elem_of_cons; now left|exact Hcb].
Qed.

(** [calculateHints], laid out by the outcome of its three pre-checks. *)
Lemma calculateHints_unfold R ms ann :
  (preChecksPass p R ann /\
   calculateHints p R ms ann =
     match runCallbacks
             (hintCallback p R (minNUMAsCountNeededOf p R) (numaPerSocketOf p)
                ms ann)
             (bitmask.IterateBitMasks (numaNodesOf ms)) [] with
     | Panic => Panic
     | Return cpuHints =>
         retOk {[ ResourceCPU := Some {| pluginapi.Hints := cpuHints |} ]}
     end) \/
  (~ preChecksPass p R ann /\ exists e, calculateHints p R ms ann = retErr e).
Proof.
  unfold calculateHints, preChecksPass, minNUMAsCountNeededOf, numaPerSocketOf,
    numaNodesOf.
  destruct (GetNUMANodesCountToFitCPUReq R (CPUTopology (machineInfo p)))
    as [[m x] [e|]]; cbn [fst snd].
  { right. split; [intros (? & _); discriminate|eauto]. }
  destruct (bindingNotExclusive ann && (1 <? m)) eqn:Hpol.
  { right. split; [intros (_ & ? & _); discriminate|eauto]. }
  destruct (NUMAsPerSocket (machineInfo p)) as [nps [e|]]; cbn [fst snd].
  { right. split; [intros (_ & _ & ?); discriminate|eauto]. }
  left. split; [split; [|split]|]; reflexivity.
Qed.

Lemma emittedHints_omap R ms ann hints :
  calculateHints p R ms ann = Return (Some hints, None) ->
  emittedHints (calculateHints p R ms ann) =
    omap (appended (hintCallback p R (minNUMAsCountNeededOf p R)
                      (numaPerSocketOf p) ms ann))
      (bitmask.IterateBitMasks (numaNodesOf ms)).
Proof.
  destruct (calculateHints_unfold R ms ann) as [[_ ->]|[_ [e ->]]];
    [|discriminate].
  destruct (runCallbacks _ _ _) as [out|] eqn:Hrun; [|discriminate].
  intros _. rewrite emittedHints_retOk.
  apply runCallbacks_omap in Hrun. now rewrite app_nil_l in Hrun.
Qed.

Lemma emittedHints_nil_unless_returned R ms ann :
  (forall hints, calculateHints p R ms ann <> Return (Some hints, None)) ->
  emittedHints (calculateHints p R ms ann) = [].
Proof.
  intros Hnot.
  destruct (calculateHints_unfold R ms ann) as [[_ Hc]|[_ [e Hc]]];
    rewrite Hc in *; [|reflexivity].
  destruct (runCallbacks _ _ _) as [out|]; [|reflexivity].
  exfalso. eapply Hnot. reflexivity.
Qed.

Lemma availableCPUsInMask_exclusive ms ann bits acc s :
  availableCPUsInMask p ms ann bits acc = Some s ->
  AnnotationsIndicateNUMAExclusive ann = true ->
  Forall (fun n => exists ns, state.stateAt ms n = Some ns /\
                     state.AllocatedCPUSet ns = ∅) bits.
Proof.
  intros Hs Hexcl. revert acc Hs.
  induction bits as [|n bits IH]; intros acc Hs; [constructor|].
  cbn [availableCPUsInMask] in Hs.
  destruct (state.stateAt ms n) as [ns|] eqn:Hn; [|discriminate].
  rewrite Hexcl in Hs. cbn [andb] in Hs.
  destruct (Z.ltb_spec 0 (machine.Size (state.AllocatedCPUSet ns)))
    as [|Hsize]; [discriminate|].
  constructor; [|eapply IH; exact Hs].
  exists ns. split; [exact Hn|].
  unfold machine.Size in Hsize. apply leibniz_equiv, size_empty_iff. lia.
Qed.

Lemma availableCPUsInMask_complete ms ann bits acc :
  Forall (fun n => exists ns, state.stateAt ms n = Some ns /\
                     (AnnotationsIndicateNUMAExclusive ann = true ->
                      state.AllocatedCPUSet ns = ∅)) bits ->
  availableCPUsInMask p ms ann bits acc = Some (acc ∪ subsetAvailable p ms bits).
Proof.
  intros Hall. revert acc.
  induction Hall as [|n bits (ns & Hn & Hidle) _ IH]; intros acc.
  - cbn [availableCPUsInMask]. unfold subsetAvailable.
    rewrite fmap_nil, union_list_nil. now rewrite (right_id_L ∅ (∪)).
  - cbn [availableCPUsInMask]. rewrite Hn.
    assert (AnnotationsIndicateNUMAExclusive ann
            && (0 <? machine.Size (state.AllocatedCPUSet ns)) = false) as ->.
    { destruct (AnnotationsIndicateNUMAExclusive ann); [|reflexivity].
      rewrite (Hidle eq_refl). unfold machine.Size. now rewrite size_empty. }
    rewrite IH. f_equal. unfold subsetAvailable, machine.Union.
    rewrite fmap_cons, union_list_cons. unfold nodeAvailable at 2.
    rewrite Hn. now rewrite (assoc_L (∪)).
Qed.

Lemma availableCPUsInMask_accepted ms ann bits s :
  availableCPUsInMask p ms ann bits machine.NewCPUSet = Some s ->
  s = subsetAvailable p ms bits /\
  Forall (fun n => exists ns, state.stateAt ms n = Some ns /\
                     (AnnotationsIndicateNUMAExclusive ann = true ->
                      state.AllocatedCPUSet ns = ∅)) bits.
Proof.
  intros Hs. split.
  - apply availableCPUsInMask_Some in Hs as [-> _].
    unfold machine.NewCPUSet. now rewrite (left_id_L ∅ (∪)).
  - destruct (AnnotationsIndicateNUMAExclusive ann) eqn:Hexcl.
    + eapply Forall_impl;
        [exact (availableCPUsInMask_exclusive _ _ _ _ _ Hs Hexcl)|].
      intros n (ns & ? & ?). eauto.
    + apply availableCPUsInMask_Some in Hs as [_ Hall].
      eapply Forall_impl; [exact Hall|].
      intros n [ns Hns]. exists ns. split; [exact Hns|discriminate].
Qed.

(** The callback appends a hint for a mask exactly when the mask's node
    subset is accepted, and the hint is the one built for that subset. *)
Lemma hintCallback_accepted R ms ann mask hint :
  hintCallback p R (minNUMAsCountNeededOf p R) (numaPerSocketOf p) ms ann
    (Some mask) = Return (Some hint) <->
  subsetAccepted p R ms ann (bitmask.GetBits mask) /\
  hint = hintFor p R (bitmask.GetBits mask).
Proof.
  split.
  - intros Hcb. apply hintCallback_emit_inv in Hcb
      as (bm & [= <-] & Hmin & Hone & (s & Hav & Hsize) & (cross & Hcross & Hloc)
          & ->).
    apply availableCPUsInMask_accepted in Hav as [-> Hall].
    rewrite Count_GetBits in Hmin, Hone, Hloc.
    split; [|reflexivity].
    split; [exact Hmin|]. split; [exact Hone|]. split; [exact Hall|].
    split; [exact Hsize|]. exists cross. split; [exact Hcross|exact Hloc].
  - intros [(Hmin & Hone & Hall & Hsize & cross & Hcross & Hloc) ->].
    unfold hintCallback. rewrite Count_GetBits.
    destruct (Z.ltb_spec (Z.of_nat (length (bitmask.GetBits mask)))
                (minNUMAsCountNeededOf p R)); [lia|].
    assert (bindingNotExclusive ann
            && (1 <? Z.of_nat (length (bitmask.GetBits mask))) = false) as ->.
    { destruct (bindingNotExclusive ann); [|reflexivity].
      cbn [andb]. apply Z.ltb_ge. now apply Hone. }
    rewrite (availableCPUsInMask_complete ms ann _ _ Hall).
    unfold machine.NewCPUSet. rewrite (left_id_L ∅ (∪)).
    destruct (Z.ltb_spec
                (machine.Size (subsetAvailable p ms (bitmask.GetBits mask))) R);
      [lia|].
    rewrite Hcross.
    assert ((Z.of_nat (length (bitmask.GetBits mask)) <=? numaPerSocketOf p)
            && cross = false) as ->.
    { destruct (Z.leb_spec (Z.of_nat (length (bitmask.GetBits mask)))
                  (numaPerSocketOf p)); [|reflexivity].
      now rewrite Hloc. }
    unfold hintFor. now rewrite MaskToUInt64Array_GetBits.
Qed.
End CalculatorExtras.



Section CalculatorTheorems.
Context `{Collaborators}.
Variable p : DynamicPolicy.

Lemma hintCallback_small_union R m nps ms ann mask :
  machine.Size (subsetAvailable p ms (bitmask.GetBits mask)) < R ->
  hintCallback p R m nps ms ann (Some mask) = Return None.
Proof.
  intros Hsmall. unfold hintCallback.
  destruct (bitmask.Count mask <? m); [reflexivity|].
  destruct (bindingNotExclusive ann && (1 <? bitmask.Count mask));
    [reflexivity|].
  destruct (availableCPUsInMask p ms ann (bitmask.GetBits mask)
              machine.NewCPUSet) as [s|] eqn:Hav; [|reflexivity].
  apply availableCPUsInMask_Some in Hav as [-> _].
  replace (machine.NewCPUSet ∪ subsetAvailable p ms (bitmask.GetBits mask))
    with (subsetAvailable p ms (bitmask.GetBits mask))
    by (unfold machine.NewCPUSet; now rewrite (left_id_L ∅ (∪))).
  destruct (Z.ltb_spec
              (machine.Size (subsetAvailable p ms (bitmask.GetBits mask))) R);
    [reflexivity|lia].
Qed.

(** C4.  Every hint emitted by the hint calculator, for any requested CPU
    count [R] and any snapshot, names nodes that all have a state and whose
    available CPUs (total minus allocated minus globally reserved), taken
    together, number at least [R]; a mask whose available union is smaller
    than [R] is skipped by the callback, so it is never emitted. *)
Theorem C4_emitted_hints_fit_request R ms ann hint :
  hint ∈ emittedHints (calculateHints p R ms ann) ->
  (exists h, hint = Some h /\
     Forall (fun n => is_Some (state.stateAt ms n)) (pluginapi.Nodes h) /\
     R <= machine.Size (subsetAvailable p ms (pluginapi.Nodes h))) /\
  (forall m nps mask,
     machine.Size (subsetAvailable p ms (bitmask.GetBits mask)) < R ->
     hintCallback p R m nps ms ann (Some mask) = Return None).
Proof.
  intros Hin. split; [|intros m nps mask; apply hintCallback_small_union].
  apply calculateHints_emitted_inv in Hin as (h & mask & -> & _ & Hcb & _).
  apply hintCallback_emit_inv in Hcb
    as (bm & -> & _ & _ & (s & Hav & Hsize) & _ & ->).
  apply availableCPUsInMask_Some in Hav as [-> Hall].
  exists {| pluginapi.Nodes := bitmask.GetBits bm;
            pluginapi.Preferred :=
              Z.of_nat (length (bitmask.GetBits bm))
              =? minNUMAsCountNeededOf p R |}.
  split; [reflexivity|]. split; [exact Hall|]. cbn [pluginapi.Nodes].
  unfold machine.NewCPUSet in Hsize.
  now rewrite (left_id_L ∅ (∪)) in Hsize.
Qed.

(** C5.  Every hint emitted by the hint calculator is preferred if and only
    if the size of its node subset equals the minimum number of NUMA nodes
    computed for the request; a hint over a larger subset is never
    preferred. *)
Theorem C5_preferred_iff_minimum_size R ms ann hint :
  hint ∈ emittedHints (calculateHints p R ms ann) ->
  exists h, hint = Some h /\
    (pluginapi.Preferred h = true <->
     Z.of_nat (length (pluginapi.Nodes h)) = minNUMAsCountNeededOf p R) /\
    (minNUMAsCountNeededOf p R < Z.of_nat (length (pluginapi.Nodes h)) ->
     pluginapi.Preferred h = false).
Proof.
  intros Hin.
  apply calculateHints_emitted_inv in Hin as (h & mask & -> & _ & Hcb & _).
  apply hintCallback_emit_inv in Hcb as (bm & -> & _ & _ & _ & _ & ->).
  eexists. split; [reflexivity|]. cbn [pluginapi.Nodes pluginapi.Preferred].
  split; [apply Z.eqb_eq|]. intros Hlt. apply Z.eqb_neq. lia.
Qed.

(** C6.  A mask whose size is at most the per-socket NUMA-node count and
    whose nodes span more than one socket is skipped, and no emitted hint of
    such a size crosses sockets; a mask larger than the per-socket count that
    passes the size, policy and capacity checks is emitted whatever the
    cross-socket check answers. *)
Theorem C6_cross_socket_exclusion R ms ann :
  (forall m nps mask,
     bitmask.Count mask <= nps ->
     CheckNUMACrossSockets (bitmask.GetBits mask) (CPUTopology (machineInfo p))
     = (true, None) ->
     hintCallback p R m nps ms ann (Some mask) = Return None) /\
  (forall hint,
     hint ∈ emittedHints (calculateHints p R ms ann) ->
     exists h, hint = Some h /\
       (Z.of_nat (length (pluginapi.Nodes h)) <= numaPerSocketOf p ->
        CheckNUMACrossSockets (pluginapi.Nodes h) (CPUTopology (machineInfo p))
        = (false, None))) /\
  (forall m nps mask s crossSockets,
     nps < bitmask.Count mask ->
     m <= bitmask.Count mask ->
     bindingNotExclusive ann && (1 <? bitmask.Count mask) = false ->
     availableCPUsInMask p ms ann (bitmask.GetBits mask) machine.NewCPUSet
     = Some s ->
     R <= machine.Size s ->
     CheckNUMACrossSockets (bitmask.GetBits mask) (CPUTopology (machineInfo p))
     = (crossSockets, None) ->
     hintCallback p R m nps ms ann (Some mask)
     = Return (Some {| pluginapi.Nodes := MaskToUInt64Array mask;
                       pluginapi.Preferred :=
                         Z.of_nat (length (bitmask.GetBits mask)) =? m |})).
Proof.
  split; [|split].
  - intros m nps mask Hle Hcross. unfold hintCallback.
    destruct (bitmask.Count mask <? m); [reflexivity|].
    destruct (bindingNotExclusive ann && (1 <? bitmask.Count mask));
      [reflexivity|].
    destruct (availableCPUsInMask p ms ann (bitmask.GetBits mask)
                machine.NewCPUSet) as [s|]; [|reflexivity].
    destruct (machine.Size s <? R); [reflexivity|].
    rewrite Hcross. apply Z.leb_le in Hle. now rewrite Hle.
  - intros hint Hin.
    apply calculateHints_emitted_inv in Hin as (h & mask & -> & _ & Hcb & _).
    apply hintCallback_emit_inv in Hcb
      as (bm & -> & _ & _ & _ & (cross & Hcross & Hsingle) & ->).
    eexists. split; [reflexivity|]. cbn [pluginapi.Nodes].
    rewrite <- Count_GetBits. intros Hle. rewrite Hcross.
    now rewrite (Hsingle Hle).
  - intros m nps mask s cross Hlarge Hmin Hpol Hav Hsize Hcross.
    unfold hintCallback.
    destruct (Z.ltb_spec (bitmask.Count mask) m); [lia|].
    rewrite Hpol, Hav.
    destruct (Z.ltb_spec (machine.Size s) R); [lia|].
    rewrite Hcross.
    destruct (Z.leb_spec (bitmask.Count mask) nps); [lia|reflexivity].
Qed.

(** C7.  For a request that declares NUMA binding without NUMA exclusivity:
    when the minimum node count needed exceeds one, [calculateHints] returns
    an error and no hints; every mask of size greater than one is skipped; and
    every emitted hint has a single-node subset. *)
Theorem C7_binding_without_exclusivity_fits_one_node R ms ann :
  bindingNotExclusive ann = true ->
  (1 < minNUMAsCountNeededOf p R ->
   exists e, calculateHints p R ms ann = retErr e) /\
  (forall m nps mask,
     1 < bitmask.Count mask ->
     hintCallback p R m nps ms ann (Some mask) = Return None) /\
  (forall hint,
     hint ∈ emittedHints (calculateHints p R ms ann) ->
     exists h, hint = Some h /\ length (pluginapi.Nodes h) = 1%nat).
Proof.
  intros Hbne. split; [|split].
  - intros Hmin.
    destruct (calculateHints_cases p R ms ann) as [Herr|[Hpol _]];
      [exact Herr|].
    rewrite Hbne in Hpol. cbn [andb] in Hpol. apply Z.ltb_ge in Hpol. lia.
  - intros m nps mask Hcount. unfold hintCallback.
    destruct (bitmask.Count mask <? m); [reflexivity|].
    rewrite Hbne. apply Z.ltb_lt in Hcount. now rewrite Hcount.
  - intros hint Hin.
    apply calculateHints_emitted_inv in Hin as (h & mask & -> & Hmask & Hcb & _).
    apply hintCallback_emit_inv in Hcb as (bm & -> & _ & Hone & _ & _ & ->).
    eexists. split; [reflexivity|]. cbn [pluginapi.Nodes].
    apply IterateBitMasks_nonempty in Hmask. specialize (Hone Hbne).
    rewrite Count_GetBits in Hmask, Hone. lia.
Qed.

Lemma hintCallback_bad_mask R m nps ms ann mask :
  (exists nodeID, nodeID ∈ bitmask.GetBits mask /\
                  state.stateAt ms nodeID = None) \/
  (exists crossSockets e,
     CheckNUMACrossSockets (bitmask.GetBits mask) (CPUTopology (machineInfo p))
     = (crossSockets, Some e)) ->
  hintCallback p R m nps ms ann (Some mask) = Return None.
Proof.
  intros Hbad. unfold hintCallback.
  destruct (bitmask.Count mask <? m); [reflexivity|].
  destruct (bindingNotExclusive ann && (1 <? bitmask.Count mask));
    [reflexivity|].
  destruct Hbad as [(n & Hn & Hnil)|(cross & e & Hcross)].
  - now rewrite (availableCPUsInMask_nil_state p ms ann _ _ n Hn Hnil).
  - destruct (availableCPUsInMask p ms ann (bitmask.GetBits mask)
                machine.NewCPUSet) as [s|]; [|reflexivity].
    destruct (machine.Size s <? R); [reflexivity|]. now rewrite Hcross.
Qed.

Lemma runCallbacks_returns R m nps ms ann :
  (forall k, is_Some (ms !! k) -> 0 <= k < 64) ->
  exists cpuHints,
    runCallbacks (hintCallback p R m nps ms ann)
      (bitmask.IterateBitMasks (numaNodesOf ms)) [] = Return cpuHints.
Proof.
  intros Hrange.
  destruct (runCallbacks _ _ _) as [out|] eqn:Hrun; [eauto|exfalso].
  apply runCallbacks_Panic in Hrun as (mask & Hin & Hpanic).
  destruct mask as [mask|]; [now apply hintCallback_not_Panic in Hpanic|].
  apply IterateBitMasks_chosen in Hin as (chosen & Hnew & _ & Hsub).
  assert (Hall : Forall (fun i => 0 <= i < 64) chosen).
  { apply Forall_forall. intros k Hk. apply Hrange, elem_of_numaNodesOf.
    eapply elem_of_sublist; eassumption. }
  apply NewBitMask_valid in Hall as [bm Hbm]. congruence.
Qed.

(** C1, amended.  A mask that references a NUMA node whose state is nil in
    the snapshot, or for which the cross-socket lookup fails, is skipped by
    the callback, and no emitted hint names its nodes; the enumeration goes
    on: when the three checks made before the enumeration pass (and the node
    IDs of the snapshot fit a bit mask, so that the callback is never handed a
    nil mask), [calculateHints] returns without error the hints of exactly
    the masks on which the callback appends one.  [calculateHints] returns an
    error exactly when [GetNUMANodesCountToFitCPUReq] fails, when a
    NUMA-bound non-exclusive request needs more than one node, or when
    [NUMAsPerSocket] fails, and it then returns no hint list. *)
Theorem C1_nil_state_or_failed_lookup_skips_the_mask R ms ann :
  (forall mask,
     (exists nodeID, nodeID ∈ bitmask.GetBits mask /\
                     state.stateAt ms nodeID = None) \/
     (exists crossSockets e,
        CheckNUMACrossSockets (bitmask.GetBits mask)
          (CPUTopology (machineInfo p)) = (crossSockets, Some e)) ->
     (forall m nps, hintCallback p R m nps ms ann (Some mask) = Return None) /\
     (forall h, Some h ∈ emittedHints (calculateHints p R ms ann) ->
                pluginapi.Nodes h <> bitmask.GetBits mask)) /\
  ((GetNUMANodesCountToFitCPUReq R (CPUTopology (machineInfo p))).2 = None ->
   bindingNotExclusive ann && (1 <? minNUMAsCountNeededOf p R) = false ->
   (NUMAsPerSocket (machineInfo p)).2 = None ->
   (forall k, is_Some (ms !! k) -> 0 <= k < 64) ->
   exists cpuHints,
     calculateHints p R ms ann
     = Return (Some {[ ResourceCPU :=
                         Some {| pluginapi.Hints := cpuHints |} ]}, None) /\
     forall h, h ∈ cpuHints <->
       exists hint mask', h = Some hint /\
         mask' ∈ bitmask.IterateBitMasks (numaNodesOf ms) /\
         hintCallback p R (minNUMAsCountNeededOf p R) (numaPerSocketOf p)
           ms ann mask' = Return (Some hint)) /\
  ((exists e, calculateHints p R ms ann = Return (None, Some e)) <->
   (GetNUMANodesCountToFitCPUReq R (CPUTopology (machineInfo p))).2 <> None \/
   bindingNotExclusive ann && (1 <? minNUMAsCountNeededOf p R) = true \/
   (NUMAsPerSocket (machineInfo p)).2 <> None) /\
  (forall hints e,
     calculateHints p R ms ann = Return (hints, Some e) -> hints = None).
Proof.
  split; [|split; [|split]].
  - intros mask Hbad. split.
    + intros m nps. now apply hintCallback_bad_mask.
    + intros h Hin Heq.
      apply calculateHints_emitted_inv in Hin
        as (hint & mask' & [= <-] & _ & Hcb & _).
      pose proof Hcb as Hinv.
      apply hintCallback_emit_inv in Hinv as (bm & -> & _ & _ & _ & _ & Hh).
      assert (Hbits : bitmask.GetBits bm = bitmask.GetBits mask)
        by (rewrite <- Heq, Hh; reflexivity).
      rewrite (hintCallback_bad_mask R _ _ ms ann bm) in Hcb; [discriminate|].
      now rewrite Hbits.
  - intros Hfit Hpol Hnps Hrange.
    destruct (calculateHints_cases p R ms ann) as [[e He]|[_ Hc]].
    + exfalso. revert He.
      unfold calculateHints, minNUMAsCountNeededOf in *.
      destruct (GetNUMANodesCountToFitCPUReq R (CPUTopology (machineInfo p)))
        as [[m' x] [e'|]]; cbn [fst snd] in *; [discriminate|].
      rewrite Hpol.
      destruct (NUMAsPerSocket (machineInfo p)) as [nps' [e'|]];
        cbn [fst snd] in *; [discriminate|].
      destruct (runCallbacks _ _ _); discriminate.
    + destruct (runCallbacks_returns R (minNUMAsCountNeededOf p R)
                  (numaPerSocketOf p) ms ann Hrange) as [cpuHints Hrun].
      rewrite Hrun in Hc. exists cpuHints. split; [exact Hc|].
      apply runCallbacks_spec in Hrun as (hs & -> & Hhs).
      rewrite app_nil_l. exact Hhs.
  - unfold calculateHints, minNUMAsCountNeededOf.
    destruct (GetNUMANodesCountToFitCPUReq R (CPUTopology (machineInfo p)))
      as [[m' x] [e|]]; cbn [fst snd].
    { split; [intros _; left; discriminate|intros _; unfold retErr; eauto]. }
    destruct (bindingNotExclusive ann && (1 <? m')) eqn:Hpol.
    { split; [intros _; right; left; reflexivity
             |intros _; unfold retErr; eauto]. }
    destruct (NUMAsPerSocket (machineInfo p)) as [nps' [e|]]; cbn [fst snd].
    { split; [intros _; right; right; discriminate
             |intros _; unfold retErr; eauto]. }
    destruct (runCallbacks _ _ _) as [out|]; unfold retOk.
    + split; [intros (? & ?); discriminate|].
      intros [?|[?|?]]; congruence.
    + split; [intros (? & ?); discriminate|].
      intros [?|[?|?]]; congruence.
  - intros hints e.
    destruct (calculateHints_cases p R ms ann) as [[e' ->]|[_ ->]].
    + unfold retErr. now intros [= <- _].
    + destruct (runCallbacks _ _ _); unfold retOk; discriminate.
Qed.
End CalculatorTheorems.

(** ** Affinity counter *)

Section CounterFacts.
Context `{Collaborators}.
Variable p : DynamicPolicy.

Lemma foldl_invariant {A B} (P : A -> Prop) (f : A -> B -> A) (l : list B) :
  (forall a b, P a -> P (f a b)) -> forall a, P a -> P (foldl f a l).
Proof.
  intros Hstep. induction l as [|b l IH]; intros a Ha; cbn [foldl];
    [exact Ha|]. apply IH, Hstep, Ha.
Qed.

Lemma nonNegative_empty : nonNegative ∅.
Proof. intros numa. unfold util.countAt. now rewrite lookup_empty. Qed.

Lemma nonNegative_incr c n : nonNegative c -> nonNegative (util.incr c n).
Proof.
  intros Hc numa. unfold util.incr, util.countAt at 1.
  destruct (decide (n = numa)) as [->|Hne].
  - rewrite lookup_insert_eq. simpl. specialize (Hc numa). lia.
  - rewrite lookup_insert_ne by exact Hne. apply Hc.
Qed.

Lemma nonNegative_countMatch seletor socket numa c :
  nonNegative c -> nonNegative (countMatch p seletor socket numa c).
Proof.
  intros Hc. unfold countMatch. destruct (bool_decide _).
  - apply (foldl_invariant nonNegative); [|exact Hc].
    intros a b. apply nonNegative_incr.
  - now apply nonNegative_incr.
Qed.

Lemma nonNegative_matchNUMAAffinity Seletors labels socket numa :
  nonNegative (matchNUMAAffinity p Seletors labels socket numa).
Proof.
  unfold matchNUMAAffinity.
  apply (foldl_invariant nonNegative); [|apply nonNegative_empty].
  intros c seletor Hc.
  apply (foldl_invariant nonNegative); [|exact Hc].
  intros c' kv Hc'. destruct (bool_decide _); [|exact Hc'].
  now apply nonNegative_countMatch.
Qed.

Lemma nonNegative_matchPodAffinity Seletors labels socket numa :
  nonNegative (matchPodAffinity p Seletors labels socket numa).
Proof.
  unfold matchPodAffinity.
  apply (foldl_invariant nonNegative); [|apply nonNegative_empty].
  intros c seletor Hc.
  apply (foldl_invariant nonNegative); [|exact Hc].
  intros c' kv Hc'.
  apply (foldl_invariant nonNegative); [|exact Hc'].
  intros c'' numaVal Hc''. destruct (bool_decide _); [|exact Hc''].
  now apply nonNegative_countMatch.
Qed.

Lemma nonNegative_foldl_Append c maps :
  (forall a b, nonNegative a -> nonNegative b -> nonNegative (Append a b)) ->
  nonNegative c -> Forall nonNegative maps ->
  nonNegative (foldl Append c maps).
Proof.
  intros HAppend Hc Hmaps. revert c Hc.
  induction Hmaps as [|m maps Hm _ IH]; intros c Hc; cbn [foldl];
    [exact Hc|]. apply IH, HAppend; assumption.
Qed.

(** The tallies of a state built by the pre-filter are never negative,
    provided that appending partial counts keeps them so. *)
Lemma prePodAffinityFilter_counts_nonNegative req st :
  (forall a b, nonNegative a -> nonNegative b -> nonNegative (Append a b)) ->
  prePodAffinityFilter p req = Return (Some st, None) ->
  nonNegative (existingAntiAffinityCounts st) /\
  nonNegative (antiAffinityCounts st) /\
  nonNegative (affinityCounts st).
Proof.
  intros HAppend. unfold prePodAffinityFilter.
  destruct (UnmarshalAffinity (pluginapi.Annotations req)) as [pa|e];
    [|discriminate].
  destruct (bool_decide _).
  { destruct (util.Affinity pa); discriminate. }
  destruct (getNumaNodesAffinityInfo p) as [[infos [e|]]|];
    [discriminate| |discriminate].
  intros [= <-].
  cbn [getAffinityCounts getAntiAffinityCounts getExistingAntiAffinityCounts
       existingAntiAffinityCounts antiAffinityCounts affinityCounts
       podAffinityInfo numaAffinityInfoList].
  split; [|split];
    (apply nonNegative_foldl_Append;
     [exact HAppend|apply nonNegative_empty|]);
    apply Forall_fmap, Forall_forall; intros info _; cbn.
  - apply nonNegative_matchNUMAAffinity.
  - apply nonNegative_matchPodAffinity.
  - apply nonNegative_matchPodAffinity.
Qed.

End CounterFacts.

Lemma Reference_append_nonNegative a b :
  nonNegative a -> nonNegative b -> nonNegative (Reference.append a b).
Proof.
  intros Ha Hb numa. specialize (Ha numa). specialize (Hb numa).
  unfold util.countAt, Reference.append in *. rewrite lookup_union_with.
  destruct (a !! numa), (b !! numa); cbn in *; lia.
Qed.

(** ** Hint filter and strategy dispatcher *)

Section FilterFacts.
Context `{Collaborators}.
Variable p : DynamicPolicy.

Lemma numaPasses_spec st numa :
  nonNegative (existingAntiAffinityCounts st) ->
  nonNegative (antiAffinityCounts st) ->
  numaPasses st numa = true <-> spec_nodeAdmissible st numa.
Proof.
  intros Hex Hanti. unfold numaPasses, spec_nodeAdmissible.
  specialize (Hex (int_of_uint64 numa)).
  specialize (Hanti (int_of_uint64 numa)).
  destruct (Z.ltb_spec 0
    (util.countAt (existingAntiAffinityCounts st) (int_of_uint64 numa)));
    [split; [discriminate|lia]|].
  destruct (Z.ltb_spec 0
    (util.countAt (antiAffinityCounts st) (int_of_uint64 numa)));
    [split; [discriminate|lia]|].
  destruct (pod_AffinityRequiredSelectors (podAffinityInfo st)) as [|sel sels];
    cbn [length Z.of_nat andb Z.ltb Z.compare].
  - split; [|reflexivity]. intros _. split; [lia|]. split; [lia|]. congruence.
  - change (0 <? Z.of_nat (length (sel :: sels))) with true. cbn [andb].
    destruct (Z.leb_spec
      (util.countAt (affinityCounts st) (int_of_uint64 numa)) 0).
    + split; [discriminate|]. intros (_ & _ & Haff).
      assert (sel :: sels <> []) as Hne by discriminate.
      apply Haff in Hne. lia.
    + split; [|reflexivity]. intros _. split; [lia|]. split; [lia|]. lia.
Qed.

Lemma hintNodesPass_Forall st numaList :
  hintNodesPass st numaList = true <->
  Forall (fun numa => numaPasses st numa = true) numaList.
Proof.
  induction numaList as [|numa rest IH]; cbn [hintNodesPass].
  - split; [constructor|reflexivity].
  - rewrite Forall_cons. destruct (numaPasses st numa).
    + rewrite IH. tauto.
    + split; [discriminate|]. intros [? _]. discriminate.
Qed.

Lemma filter_sublist {A} (f : A -> bool) (l : list A) :
  List.filter f l `sublist_of` l.
Proof.
  induction l as [|a l IH]; cbn [List.filter]; [constructor|].
  destruct (f a); [now apply sublist_skip|now apply sublist_cons].
Qed.

Lemma podAffinityFilter_returns st hints cpuHints :
  hintsAt hints ResourceCPU = Some cpuHints ->
  podAffinityFilter st hints =
    Return (Some {[ ResourceCPU :=
      Some {| pluginapi.Hints :=
                List.filter (hintPodAffinityFilter st)
                  (pluginapi.Hints cpuHints) |} ]}).
Proof. unfold podAffinityFilter. now intros ->. Qed.

(** C2.  For every pre-filter state, whose tallies are never negative, and
    every candidate hint list, the hint filter retains a hint if and only if
    every NUMA node of the hint has existing-anti-affinity count zero,
    new-pod-anti-affinity count zero and, when the new pod's
    required-affinity selector list is not empty, a strictly positive affinity
    count; a hint with a single failing node is dropped. *)
Theorem C2_filter_retains_exactly_admissible_hints st hints cpuHints hint :
  nonNegative (existingAntiAffinityCounts st) ->
  nonNegative (antiAffinityCounts st) ->
  hintsAt hints ResourceCPU = Some cpuHints ->
  exists out,
    podAffinityFilter st hints =
      Return (Some {[ ResourceCPU := Some {| pluginapi.Hints := out |} ]}) /\
    (hint ∈ out <->
     hint ∈ pluginapi.Hints cpuHints /\
     Forall (spec_nodeAdmissible st) (pluginapi.GetNodes hint)).
Proof.
  intros Hex Hanti Hcpu.
  exists (List.filter (hintPodAffinityFilter st) (pluginapi.Hints cpuHints)).
  split; [exact (podAffinityFilter_returns st hints cpuHints Hcpu)|].
  rewrite !list_elem_of_In, filter_In. unfold hintPodAffinityFilter.
  rewrite hintNodesPass_Forall.
  assert ((Forall (fun numa => numaPasses st numa = true)
             (pluginapi.GetNodes hint)) <->
          Forall (spec_nodeAdmissible st) (pluginapi.GetNodes hint)) as ->;
    [|reflexivity].
  apply Forall_iff. intros numa. now apply numaPasses_spec.
Qed.

(** C10.  The CPU hint list returned by the hint filter is a subsequence of
    the input CPU hint list: retained hints are the input values themselves,
    in their input order, and nothing is added. *)
Theorem C10_filter_output_is_subsequence st hints cpuHints :
  hintsAt hints ResourceCPU = Some cpuHints ->
  exists out,
    podAffinityFilter st hints =
      Return (Some {[ ResourceCPU := Some {| pluginapi.Hints := out |} ]}) /\
    out `sublist_of` pluginapi.Hints cpuHints.
Proof.
  intros Hcpu.
  exists (List.filter (hintPodAffinityFilter st) (pluginapi.Hints cpuHints)).
  split; [exact (podAffinityFilter_returns st hints cpuHints Hcpu)|].
  apply filter_sublist.
Qed.

Lemma handler_ends_with_affinitySelection req reqInt calcHints :
  calculatesFresh p req reqInt calcHints ->
  dedicatedCoresWithNUMABindingHintHandler p req
  = affinitySelection p req calcHints.
Proof.
  intros (Hmain & Hquantity & Hrecord & Hfile & Hcalc).
  unfold dedicatedCoresWithNUMABindingHintHandler.
  rewrite bool_decide_eq_false_2 by exact Hmain.
  rewrite Hquantity, Hrecord.
  destruct (GetHintsFromExtraStateFile _ _ _ _) as [fileHints extraErr].
  cbn [fst] in Hfile. subst fileHints. cbn [fst].
  rewrite Hcalc. destruct calcHints; reflexivity.
Qed.

(** C3.  For a request whose annotations declare NUMA exclusivity the
    pre-filter never produces a filter state.  When the request declares no
    affinity requirement the pre-filter returns neither state nor error and
    the handler packs the hints it was given, in particular those it obtained
    from the calculator, unfiltered; when it declares one, the pre-filter
    returns an error.  (An affinity annotation that does not parse is an
    error as well.) *)
Theorem C3_exclusive_request_skips_affinity_filter req hints :
  strAt (pluginapi.Annotations req) PodAnnotationMemoryEnhancementNumaExclusive
  = PodAnnotationMemoryEnhancementNumaExclusiveEnable ->
  (exists err, prePodAffinityFilter p req = Return (None, err)) /\
  match UnmarshalAffinity (pluginapi.Annotations req) with
  | Ok podAffinity =>
      match util.Affinity podAffinity with
      | None =>
          prePodAffinityFilter p req = Return (None, None) /\
          affinitySelection p req hints =
            Return (PackResourceHintsResponse (Some req) ResourceCPU hints) /\
          (forall reqInt,
             calculatesFresh p req reqInt hints ->
             dedicatedCoresWithNUMABindingHintHandler p req =
               Return (PackResourceHintsResponse (Some req) ResourceCPU hints))
      | Some _ =>
          exists e, prePodAffinityFilter p req = Return (None, Some e)
      end
  | Err e => prePodAffinityFilter p req = Return (None, Some e)
  end.
Proof.
  intros Hexcl.
  assert (Hpre :
    prePodAffinityFilter p req =
    match UnmarshalAffinity (pluginapi.Annotations req) with
    | Ok podAffinity =>
        match util.Affinity podAffinity with
        | None => Return (None, None)
        | Some _ =>
            retErr
              "can not find required affinity numa nodes while exclusive is enabled"
        end
    | Err e => retErr e
    end).
  { unfold prePodAffinityFilter.
    destruct (UnmarshalAffinity (pluginapi.Annotations req)) as [pa|e];
      [|reflexivity].
    now rewrite bool_decide_eq_true_2 by exact Hexcl. }
  destruct (UnmarshalAffinity (pluginapi.Annotations req)) as [pa|e].
  - destruct (util.Affinity pa) as [a|].
    + split; unfold retErr in Hpre; eauto.
    + assert (Hsel : affinitySelection p req hints =
                     Return (PackResourceHintsResponse (Some req) ResourceCPU
                               hints)).
      { unfold affinitySelection. now rewrite Hpre. }
      split; [eauto|]. split; [exact Hpre|]. split; [exact Hsel|].
      intros reqInt Hfresh.
      now rewrite (handler_ends_with_affinitySelection req reqInt hints Hfresh).
  - split; unfold retErr in Hpre; eauto.
Qed.

(** C9.  A dedicated-QoS request whose NUMA-binding annotation is absent or
    differs from the enabling value is answered with the error
    "not support dedicated_cores without NUMA binding" and no response. *)
Theorem C9_dedicated_without_binding_is_not_supported req :
  strAt (pluginapi.Annotations req) PodAnnotationMemoryEnhancementNumaBinding
  <> PodAnnotationMemoryEnhancementNumaBindingEnable ->
  dedicatedCoresHintHandler p (Some req) =
    Return (None, Some "not support dedicated_cores without NUMA binding"%string).
Proof.
  intros Hoff. unfold dedicatedCoresHintHandler.
  now rewrite bool_decide_eq_false_2 by exact Hoff.
Qed.
End FilterFacts.

(** ** Affinity info collector *)

Section CollectorFacts.
Context `{Collaborators}.
Variable p : DynamicPolicy.









End CollectorFacts.

Section CalculatorProperties.
Context `{Collaborators}.
Variable p : DynamicPolicy.

(** Every hint emitted by [calculateHints] names at least one node and at
    least the minimum number of nodes computed for the request; its node list
    is a sub-sequence of the sorted node IDs of the snapshot, hence strictly
    increasing, and every ID lies in [0, 63]. *)
Theorem emitted_hints_name_snapshot_nodes R ms ann hint :
  hint ∈ emittedHints (calculateHints p R ms ann) ->
  exists h, hint = Some h /\
    pluginapi.Nodes h <> [] /\
    pluginapi.Nodes h `sublist_of` numaNodesOf ms /\
    StronglySorted Z.lt (pluginapi.Nodes h) /\
    Forall (fun n => 0 <= n < 64) (pluginapi.Nodes h) /\
    minNUMAsCountNeededOf p R <= Z.of_nat (length (pluginapi.Nodes h)).
Proof.
  intros Hin.
  apply calculateHints_emitted_inv in Hin as (h & mask & -> & Hmask & Hcb & _).
  apply hintCallback_emit_inv in Hcb as (bm & -> & Hmin & _ & _ & _ & ->).
  apply enumerated_mask_bits in Hmask as [Hsub Hne].
  eexists. split; [reflexivity|]. cbn [pluginapi.Nodes].
  split; [exact Hne|]. split; [exact Hsub|].
  split; [apply GetBits_increasing|]. split.
  - apply Forall_forall. intros n Hn. now apply elem_of_GetBits in Hn as [? _].
  - now rewrite <- Count_GetBits.
Qed.

(** For a request that declares NUMA exclusivity, no node of an emitted hint
    has any CPU allocated. *)
Theorem exclusive_hints_use_idle_nodes R ms ann hint :
  AnnotationsIndicateNUMAExclusive ann = true ->
  hint ∈ emittedHints (calculateHints p R ms ann) ->
  exists h, hint = Some h /\
    Forall (fun n => exists ns, state.stateAt ms n = Some ns /\
                       state.AllocatedCPUSet ns = ∅) (pluginapi.Nodes h).
Proof.
  intros Hexcl Hin.
  apply calculateHints_emitted_inv in Hin as (h & mask & -> & _ & Hcb & _).
  apply hintCallback_emit_inv in Hcb
    as (bm & -> & _ & _ & (s & Hav & _) & _ & ->).
  eexists. split; [reflexivity|]. cbn [pluginapi.Nodes].
  exact (availableCPUsInMask_exclusive p ms ann _ _ s Hav Hexcl).
Qed.

(** Completeness of the calculator: when [calculateHints] returns a hint
    list, a non-empty sub-sequence of the snapshot's sorted node IDs, all in
    [0, 63], has its hint in the list if and only if it passes the checks of
    the callback. *)
Theorem accepted_subsets_are_exactly_the_hints R ms ann nodes :
  (exists hints, calculateHints p R ms ann = Return (Some hints, None)) ->
  nodes <> [] ->
  nodes `sublist_of` numaNodesOf ms ->
  Forall (fun n => 0 <= n < 64) nodes ->
  Some (hintFor p R nodes) ∈ emittedHints (calculateHints p R ms ann) <->
  subsetAccepted p R ms ann nodes.
Proof.
  intros Hok Hne Hsub Hvalid. split.
  - intros Hin.
    apply calculateHints_emitted_inv in Hin as (h & mask & [= <-] & _ & Hcb & _).
    destruct mask as [mask|];
      [|now apply hintCallback_emit_inv in Hcb as (? & ? & _)].
    apply hintCallback_accepted in Hcb as [Hadm Heq].
    apply (f_equal pluginapi.Nodes) in Heq. cbn [hintFor pluginapi.Nodes] in Heq.
    now rewrite Heq.
  - intros Hadm.
    destruct (proj1 (NewBitMask_valid nodes) Hvalid) as [mask Hnew].
    assert (Hbits : bitmask.GetBits mask = nodes).
    { apply NewBitMask_GetBits; [exact Hnew|].
      eapply StronglySorted_sublist; [exact Hsub|apply numaNodesOf_increasing]. }
    apply (calculateHints_emits p R ms ann (Some mask)); [exact Hok| |].
    + rewrite <- Hnew. now apply IterateBitMasks_complete.
    + apply hintCallback_accepted. rewrite Hbits. now split.
Qed.

(** [calculateHints] panics exactly when its pre-checks pass and the snapshot
    has a node ID outside [0, 63], for which no mask can be built. *)
Theorem calculateHints_panics_iff_node_id_out_of_range R ms ann :
  calculateHints p R ms ann = Panic <->
  preChecksPass p R ann /\
  exists k, is_Some (ms !! k) /\ ~ (0 <= k < 64).
Proof.
  destruct (calculateHints_unfold p R ms ann) as [[Hpre Hc]|[Hpre [e Hc]]];
    rewrite Hc.
  2:{ split; [discriminate|]. intros [? _]. contradiction. }
  split.
  - destruct (runCallbacks _ _ _) as [out|] eqn:Hrun; [discriminate|].
    intros _. split; [exact Hpre|].
    apply runCallbacks_Panic in Hrun as (mask & Hin & Hpanic).
    destruct mask as [mask|]; [now apply hintCallback_not_Panic in Hpanic|].
    apply IterateBitMasks_chosen in Hin as (chosen & Hnew & _ & Hsub).
    destruct (decide (Forall (fun i => 0 <= i < 64) chosen)) as [Hall|Hbad].
    { apply NewBitMask_valid in Hall as [m Hm]. congruence. }
    apply not_Forall_Exists in Hbad; [|intros ?; apply _].
    apply Exists_exists in Hbad as (k & Hk & Hrange).
    exists k. split; [|exact Hrange].
    apply elem_of_numaNodesOf. eapply elem_of_sublist; eassumption.
  - intros [_ (k & Hk & Hrange)].
    assert (Hpanic : runCallbacks
              (hintCallback p R (minNUMAsCountNeededOf p R)
                 (numaPerSocketOf p) ms ann)
              (bitmask.IterateBitMasks (numaNodesOf ms)) [] = Panic).
    { apply runCallbacks_Panic. exists None. split; [|reflexivity].
      assert (bitmask.NewBitMask [k] = None) as <-.
      { destruct (bitmask.NewBitMask [k]) as [m|] eqn:Hnew; [|reflexivity].
        assert (is_Some (bitmask.NewBitMask [k])) as Hsome by eauto.
        apply NewBitMask_valid, Forall_cons in Hsome as [? _]. contradiction. }
      now apply IterateBitMasks_single, elem_of_numaNodesOf. }
    now rewrite Hpanic.
Qed.


Lemma StronglySorted_all_related {A} (R : relation A) (l : list A) :
  (forall x y, x ∈ l -> y ∈ l -> R x y) -> StronglySorted R l.
Proof.
  induction l as [|a l IH]; intros Hall; [constructor|].
  constructor.
  - apply IH. intros x y Hx Hy. apply Hall; apply elem_of_cons; now right.
  - apply Forall_forall. intros y Hy.
    apply Hall; apply elem_of_cons; [now left|now right].
Qed.

Lemma blocks_sorted {A B} (key : B -> nat) (F : nat -> list A)
  (g : A -> option B) (a n : nat) :
  (forall i x y, x ∈ F i -> g x = Some y -> key y = i) ->
  StronglySorted (fun u v => (key u <= key v)%nat)
    (omap g (flat_map F (seq a n))).
Proof.
  intros Hkey. revert a. induction n as [|n IH]; intros a;
    cbn [seq flat_map]; [constructor|].
  rewrite omap_app. apply StronglySorted_app_2; [| |apply IH].
  - intros u v Hu Hv.
    apply list_elem_of_omap in Hu as (x & Hx & Hgx).
    apply list_elem_of_omap in Hv as (y & Hy & Hgy).
    apply list_elem_of_In, in_flat_map in Hy as (i & Hi & Hy).
    apply in_seq in Hi. apply list_elem_of_In in Hy.
    rewrite (Hkey _ _ _ Hx Hgx), (Hkey _ _ _ Hy Hgy). lia.
  - apply StronglySorted_all_related. intros u v Hu Hv.
    apply list_elem_of_omap in Hu as (x & Hx & Hgx).
    apply list_elem_of_omap in Hv as (y & Hy & Hgy).
    rewrite (Hkey _ _ _ Hx Hgx), (Hkey _ _ _ Hy Hgy). lia.
Qed.

(** The hints are listed by non-decreasing number of nodes: all single-node
    hints first, then the two-node hints, and so on. *)
Theorem hints_are_listed_by_increasing_size R ms ann :
  StronglySorted
    (fun u v => (length (pluginapi.GetNodes u)
                 <= length (pluginapi.GetNodes v))%nat)
    (emittedHints (calculateHints p R ms ann)).
Proof.
  destruct (calculateHints p R ms ann) as [[[hints|] [e|]]|] eqn:Hc;
    try (rewrite <- Hc, emittedHints_nil_unless_returned;
         [constructor|intros ?; congruence]).
  rewrite <- Hc, (emittedHints_omap p R ms ann hints Hc).
  unfold bitmask.IterateBitMasks. apply blocks_sorted.
  intros i x hint Hx Happ. unfold appended in Happ.
  destruct (hintCallback _ _ _ _ _ _ x) as [[h|]|] eqn:Hcb;
    [|discriminate|discriminate].
  injection Happ as <-.
  apply hintCallback_emit_inv in Hcb as (bm & -> & _ & _ & _ & _ & ->).
  cbn [pluginapi.GetNodes pluginapi.Nodes].
  apply iterate_chosen in Hx as (chosen & Hnew & Hlen & Hsub).
  rewrite app_nil_l in Hnew, Hlen.
  rewrite (NewBitMask_GetBits chosen bm); [exact Hlen|now symmetry|].
  eapply StronglySorted_sublist; [exact Hsub|apply numaNodesOf_increasing].
Qed.
End CalculatorProperties.

(** ** More on the affinity counter *)

Section CounterProperties.
Context `{Collaborators}.
Variable p : DynamicPolicy.

Lemma countAt_empty n : util.countAt ∅ n = 0.
Proof. unfold util.countAt. now rewrite lookup_empty. Qed.

Lemma countAt_incr c n k :
  util.countAt (util.incr c n) k
  = util.countAt c k + (if bool_decide (k = n) then 1 else 0).
Proof.
  unfold util.incr, util.countAt at 1. destruct (decide (k = n)) as [->|Hne].
  - rewrite lookup_insert_eq, bool_decide_eq_true_2 by reflexivity.
    reflexivity.
  - rewrite lookup_insert_ne by congruence.
    rewrite bool_decide_eq_false_2 by exact Hne.
    unfold util.countAt. lia.
Qed.

Lemma countAt_foldl_incr c l k :
  NoDup l ->
  util.countAt (foldl util.incr c l) k
  = util.countAt c k + (if bool_decide (k ∈ l) then 1 else 0).
Proof.
  intros Hnd. revert c. induction Hnd as [|n l Hnotin Hnd IH]; intros c;
    cbn [foldl].
  - rewrite bool_decide_eq_false_2 by apply not_elem_of_nil. lia.
  - rewrite IH, countAt_incr.
    destruct (decide (k = n)) as [->|Hne].
    + rewrite (bool_decide_eq_true_2 (n = n)) by reflexivity.
      rewrite (bool_decide_eq_false_2 (n ∈ l)) by exact Hnotin.
      rewrite (bool_decide_eq_true_2 (n ∈ n :: l))
        by (apply elem_of_cons; now left).
      lia.
    + rewrite (bool_decide_eq_false_2 (k = n)) by exact Hne.
      assert (bool_decide (k ∈ n :: l) = bool_decide (k ∈ l)) as ->.
      { apply bool_decide_ext. rewrite elem_of_cons. intuition congruence. }
      lia.
Qed.

Lemma ToSliceInt_NoDup (s : machine.CPUSet) : NoDup (machine.ToSliceInt s).
Proof.
  unfold machine.ToSliceInt, sortInts. rewrite merge_sort_Permutation.
  apply NoDup_elements.
Qed.

Lemma elem_of_ToSliceInt (s : machine.CPUSet) k :
  k ∈ machine.ToSliceInt s <-> k ∈ s.
Proof.
  unfold machine.ToSliceInt, sortInts. rewrite merge_sort_Permutation.
  apply elem_of_elements.
Qed.

Lemma countAt_countMatch seletor socket numa c n :
  util.countAt (countMatch p seletor socket numa c) n
  = util.countAt c n + matchIncrement p seletor socket numa n.
Proof.
  unfold countMatch, matchIncrement. destruct (bool_decide _).
  - rewrite countAt_foldl_incr by apply ToSliceInt_NoDup. f_equal.
    now rewrite (bool_decide_ext _ _ (elem_of_ToSliceInt _ n)).
  - apply countAt_incr.
Qed.

Lemma sumZ_cons x l : sumZ (x :: l) = x + sumZ l.
Proof. reflexivity. Qed.

Lemma sumZ_nonneg l : Forall (fun x => 0 <= x) l -> 0 <= sumZ l.
Proof.
  induction 1 as [|x l Hx _ IH]; [reflexivity|]. rewrite sumZ_cons. lia.
Qed.

Lemma sumZ_elem_le l x : Forall (fun y => 0 <= y) l -> x ∈ l -> x <= sumZ l.
Proof.
  induction 1 as [|y l Hy Hl IH]; [now intros ?%elem_of_nil|].
  rewrite sumZ_cons. pose proof (sumZ_nonneg l Hl).
  intros [->|Hin]%elem_of_cons; [lia|]. apply IH in Hin. lia.
Qed.

Lemma sumZ_zero l : Forall (fun y => y = 0) l -> sumZ l = 0.
Proof.
  induction 1 as [|y l -> _ IH]; [reflexivity|]. now rewrite sumZ_cons, IH.
Qed.

Lemma matchIncrement_range seletor socket numa n :
  0 <= matchIncrement p seletor socket numa n <= 1.
Proof. unfold matchIncrement. repeat destruct (bool_decide _); lia. Qed.

Lemma matchingPairs_nonneg labels seletor : 0 <= matchingPairs labels seletor.
Proof. unfold matchingPairs. lia. Qed.

Lemma matchingValues_nonneg labels seletor :
  0 <= matchingValues labels seletor.
Proof.
  unfold matchingValues. apply sumZ_nonneg, Forall_forall.
  intros x Hx. apply list_elem_of_fmap in Hx as (kv & -> & _). lia.
Qed.

(** The loops of [matchNUMAAffinity] and [matchPodAffinity], started from any
    count map. *)
Lemma countAt_foldl_matchNUMAAffinity Seletors labels socket numa n
    (c : util.TopologyAffinityCount) :
  util.countAt
    (foldl
       (fun topologyMap seletor =>
          foldl
            (fun topologyMap (kv : string * string) =>
               if bool_decide (strAt labels kv.1 = kv.2)
               then countMatch p seletor socket numa topologyMap
               else topologyMap)
            topologyMap (map_to_list (apiconsts.MatchLabels seletor)))
       c Seletors) n
  = util.countAt c n
    + sumZ ((fun seletor =>
               matchingPairs labels seletor
               * matchIncrement p seletor socket numa n) <$> Seletors).
Proof.
  revert c.
  induction Seletors as [|seletor rest IH]; intros c; cbn [foldl fmap list_fmap].
  - cbn. lia.
  - rewrite IH, sumZ_cons. unfold matchingPairs.
    generalize (map_to_list (apiconsts.MatchLabels seletor)).
    intros pairs. revert c.
    induction pairs as [|kv pairs IHp]; intros c; cbn [foldl List.filter].
    + cbn. lia.
    + destruct (bool_decide (strAt labels kv.1 = kv.2)).
      * rewrite IHp, countAt_countMatch. cbn [length]. lia.
      * rewrite IHp. lia.
Qed.

Lemma countAt_foldl_matchPodAffinity Seletors
    (labels : gmap string (list string)) socket numa n
    (c : util.TopologyAffinityCount) :
  util.countAt
    (foldl
       (fun topologyMap seletor =>
          foldl
            (fun topologyMap (kv : string * string) =>
               foldl
                 (fun topologyMap numaVal =>
                    if bool_decide (numaVal = kv.2)
                    then countMatch p seletor socket numa topologyMap
                    else topologyMap)
                 topologyMap (default [] (labels !! kv.1)))
            topologyMap (map_to_list (apiconsts.MatchLabels seletor)))
       c Seletors) n
  = util.countAt c n
    + sumZ ((fun seletor =>
               matchingValues labels seletor
               * matchIncrement p seletor socket numa n) <$> Seletors).
Proof.
  revert c.
  induction Seletors as [|seletor rest IH]; intros c; cbn [foldl fmap list_fmap].
  - cbn. lia.
  - rewrite IH, sumZ_cons. unfold matchingValues.
    generalize (map_to_list (apiconsts.MatchLabels seletor)).
    intros pairs. revert c.
    induction pairs as [|kv pairs IHp]; intros c;
      cbn [foldl foldr fmap list_fmap].
    + lia.
    + rewrite IHp.
      generalize (default [] (labels !! kv.1)). intros vals. revert c.
      induction vals as [|numaVal vals IHv]; intros c;
        cbn [foldl List.filter].
      * cbn [length]. lia.
      * destruct (bool_decide (numaVal = kv.2)).
        -- rewrite IHv, countAt_countMatch. cbn [length]. lia.
        -- rewrite IHv. lia.
Qed.

(** The tally of existing pods' selectors against the new pod's labels: each
    label pair of each selector that the labels satisfy adds one to the
    evaluated node, or to every node of its socket when the selector is
    socket-scoped, and nothing else is counted. *)
Theorem matchNUMAAffinity_tally Seletors labels socket numa n :
  util.countAt (matchNUMAAffinity p Seletors labels socket numa) n
  = sumZ ((fun seletor =>
             matchingPairs labels seletor
             * matchIncrement p seletor socket numa n) <$> Seletors).
Proof.
  unfold matchNUMAAffinity.
  rewrite countAt_foldl_matchNUMAAffinity, countAt_empty.
  apply Z.add_0_l.
Qed.

(** The tally of the new pod's selectors against the labels aggregated on a
    node: each value listed for a key that equals the value required by a
    selector adds one to the evaluated node, or to every node of its socket
    when the selector is socket-scoped. *)
Theorem matchPodAffinity_tally Seletors labels socket numa n :
  util.countAt (matchPodAffinity p Seletors labels socket numa) n
  = sumZ ((fun seletor =>
             matchingValues labels seletor
             * matchIncrement p seletor socket numa n) <$> Seletors).
Proof.
  unfold matchPodAffinity.
  rewrite countAt_foldl_matchPodAffinity, countAt_empty.
  apply Z.add_0_l.
Qed.
End CounterProperties.

(** ** The pre-filter and the filter together *)

Section PreFilterProperties.
Context `{Collaborators}.
Variable p : DynamicPolicy.

Lemma countAt_foldl_Append c maps n :
  AppendAdds ->
  util.countAt (foldl Append c maps) n
  = util.countAt c n + sumZ ((fun m => util.countAt m n) <$> maps).
Proof.
  intros Hadd. revert c. induction maps as [|m maps IH]; intros c;
    cbn [foldl fmap list_fmap].
  - cbn. lia.
  - rewrite IH, Hadd, sumZ_cons. lia.
Qed.

(** What the pre-filter returns as a state: the contexts of the collector,
    the request's own affinity info, and the three tallies appended node by
    node. *)
Lemma prePodAffinityFilter_state req st :
  prePodAffinityFilter p req = Return (Some st, None) ->
  exists podAffinity infos,
    UnmarshalAffinity (pluginapi.Annotations req) = Ok podAffinity /\
    getNumaNodesAffinityInfo p = Return (infos, None) /\
    numaAffinityInfoList st = infos /\
    podAffinityInfo st = requiredPodAffinityInfo podAffinity req /\
    existingAntiAffinityCounts st =
      foldl Append ∅
        ((fun info =>
            matchNUMAAffinity p (AntiAffinityRequiredSelectors info)
              (pluginapi.Labels req) (socketID info) (numaID info))
           <$> infos) /\
    antiAffinityCounts st =
      foldl Append ∅
        ((fun info =>
            matchPodAffinity p
              (pod_AntiAffinityRequiredSelectors
                 (requiredPodAffinityInfo podAffinity req))
              (labels info) (socketID info) (numaID info))
           <$> infos) /\
    affinityCounts st =
      foldl Append ∅
        ((fun info =>
            matchPodAffinity p
              (pod_AffinityRequiredSelectors
                 (requiredPodAffinityInfo podAffinity req))
              (labels info) (socketID info) (numaID info))
           <$> infos).
Proof.
  unfold prePodAffinityFilter.
  destruct (UnmarshalAffinity (pluginapi.Annotations req)) as [pa|e];
    [|discriminate].
  destruct (bool_decide _).
  { destruct (util.Affinity pa); discriminate. }
  destruct (getNumaNodesAffinityInfo p) as [[infos [e|]]|];
    [discriminate| |discriminate].
  intros [= <-]. exists pa, infos. repeat split; reflexivity.
Qed.

Lemma hintNodesPass_false st numaList numa :
  numa ∈ numaList -> numaPasses st numa = false ->
  hintNodesPass st numaList = false.
Proof.
  intros Hin Hfail.
  destruct (hintNodesPass st numaList) eqn:Hpass; [|reflexivity].
  apply hintNodesPass_Forall in Hpass. rewrite Forall_forall in Hpass.
  apply Hpass in Hin. congruence.
Qed.

Lemma matchingPairs_positive labels seletor k v :
  apiconsts.MatchLabels seletor !! k = Some v -> strAt labels k = v ->
  1 <= matchingPairs labels seletor.
Proof.
  intros Hk Hv. unfold matchingPairs.
  assert (Hin : In (k, v)
    (List.filter (fun kv : string * string =>
                    bool_decide (strAt labels kv.1 = kv.2))
       (map_to_list (apiconsts.MatchLabels seletor)))).
  { apply filter_In. split.
    - now apply list_elem_of_In, elem_of_map_to_list.
    - now apply bool_decide_eq_true_2. }
  destruct (List.filter _ _); [contradiction|cbn [length]; lia].
Qed.

Lemma matchingValues_positive labels seletor k v :
  apiconsts.MatchLabels seletor !! k = Some v ->
  v ∈ default [] (labels !! k) ->
  1 <= matchingValues labels seletor.
Proof.
  intros Hk Hv. unfold matchingValues.
  set (f := fun kv : string * string =>
              Z.of_nat (length (List.filter
                (fun numaVal => bool_decide (numaVal = kv.2))
                (default [] (labels !! kv.1))))).
  assert (Hone : 1 <= f (k, v)).
  { unfold f. cbn [fst snd].
    assert (Hin : In v (List.filter (fun numaVal => bool_decide (numaVal = v))
                          (default [] (labels !! k)))).
    { apply filter_In. split; [now apply list_elem_of_In|].
      now apply bool_decide_eq_true_2. }
    destruct (List.filter _ _); [contradiction|cbn [length]; lia]. }
  etransitivity; [exact Hone|].
  apply (sumZ_elem_le (f <$> map_to_list (apiconsts.MatchLabels seletor))).
  - apply Forall_forall. intros x Hx.
    apply list_elem_of_fmap in Hx as (kv & -> & _). unfold f. lia.
  - apply list_elem_of_fmap. exists (k, v). split; [reflexivity|].
    now apply elem_of_map_to_list.
Qed.

(** A term of a tally is a lower bound of the appended count. *)
Lemma tally_term_le {A} (infos : list A) (sels : A -> list apiconsts.Selector)
  (weight : A -> apiconsts.Selector -> Z)
  (inc : A -> apiconsts.Selector -> Z) info seletor :
  (forall i s, 0 <= weight i s) -> (forall i s, 0 <= inc i s) ->
  info ∈ infos -> seletor ∈ sels info ->
  weight info seletor * inc info seletor
  <= sumZ ((fun i => sumZ ((fun s => weight i s * inc i s) <$> sels i))
             <$> infos).
Proof.
  intros Hw Hi Hinfo Hsel.
  transitivity (sumZ ((fun s => weight info s * inc info s) <$> sels info)).
  - apply sumZ_elem_le.
    + apply Forall_forall. intros x Hx.
      apply list_elem_of_fmap in Hx as (s & -> & _).
      apply Z.mul_nonneg_nonneg; auto.
    + apply list_elem_of_fmap. eauto.
  - apply sumZ_elem_le.
    + apply Forall_forall. intros x Hx.
      apply list_elem_of_fmap in Hx as (i & -> & _).
      apply sumZ_nonneg, Forall_forall. intros y Hy.
      apply list_elem_of_fmap in Hy as (s & -> & _).
      apply Z.mul_nonneg_nonneg; auto.
    + apply list_elem_of_fmap. eauto.
Qed.

Lemma existing_count_formula req st n :
  AppendAdds ->
  prePodAffinityFilter p req = Return (Some st, None) ->
  util.countAt (existingAntiAffinityCounts st) n
  = sumZ ((fun info =>
             sumZ ((fun seletor =>
                      matchingPairs (pluginapi.Labels req) seletor
                      * matchIncrement p seletor (socketID info) (numaID info) n)
                     <$> AntiAffinityRequiredSelectors info))
            <$> numaAffinityInfoList st).
Proof.
  intros Hadd Hpre.
  apply prePodAffinityFilter_state in Hpre
    as (pa & infos & _ & _ & -> & _ & -> & _).
  rewrite countAt_foldl_Append, countAt_empty by exact Hadd.
  rewrite <- list_fmap_compose, Z.add_0_l. f_equal.
  apply list_fmap_ext. intros i info _. cbn [compose].
  unfold matchNUMAAffinity.
  rewrite countAt_foldl_matchNUMAAffinity, countAt_empty. apply Z.add_0_l.
Qed.

Lemma pod_count_formula (sels : list apiconsts.Selector) (infos : list numaInfo) n :
  AppendAdds ->
  util.countAt
    (foldl Append ∅
       ((fun info => matchPodAffinity p sels (labels info) (socketID info)
                       (numaID info)) <$> infos)) n
  = sumZ ((fun info =>
             sumZ ((fun seletor =>
                      matchingValues (labels info) seletor
                      * matchIncrement p seletor (socketID info) (numaID info) n)
                     <$> sels))
            <$> infos).
Proof.
  intros Hadd.
  rewrite countAt_foldl_Append, countAt_empty by exact Hadd.
  rewrite <- list_fmap_compose, Z.add_0_l. f_equal.
  apply list_fmap_ext. intros i info _. cbn [compose].
  unfold matchPodAffinity.
  rewrite countAt_foldl_matchPodAffinity, countAt_empty. apply Z.add_0_l.
Qed.

(** A resident pod's anti-affinity selector that the new pod's labels satisfy
    excludes every hint holding a node the selector counts against: the node
    of the resident pod, or every node of its socket for a socket-scoped
    selector. *)
Theorem resident_anti_affinity_excludes_hints req st info seletor k v n hint numa :
  AppendAdds ->
  prePodAffinityFilter p req = Return (Some st, None) ->
  info ∈ numaAffinityInfoList st ->
  seletor ∈ AntiAffinityRequiredSelectors info ->
  apiconsts.MatchLabels seletor !! k = Some v ->
  strAt (pluginapi.Labels req) k = v ->
  matchIncrement p seletor (socketID info) (numaID info) n = 1 ->
  numa ∈ pluginapi.GetNodes hint ->
  int_of_uint64 numa = n ->
  0 < util.countAt (existingAntiAffinityCounts st) n /\
  hintPodAffinityFilter st hint = false.
Proof.
  intros Hadd Hpre Hinfo Hsel Hk Hv Hinc Hnuma Hn.
  assert (Hpos : 0 < util.countAt (existingAntiAffinityCounts st) n).
  { rewrite (existing_count_formula req st n Hadd Hpre).
    pose proof (tally_term_le (numaAffinityInfoList st)
                  AntiAffinityRequiredSelectors
                  (fun _ s => matchingPairs (pluginapi.Labels req) s)
                  (fun i s => matchIncrement p s (socketID i) (numaID i) n)
                  info seletor
                  (fun _ s => matchingPairs_nonneg _ s)
                  (fun i s => proj1 (matchIncrement_range p s _ _ n))
                  Hinfo Hsel) as Hle.
    cbn beta in Hle. rewrite Hinc in Hle.
    pose proof (matchingPairs_positive _ _ _ _ Hk Hv). lia. }
  split; [exact Hpos|].
  unfold hintPodAffinityFilter.
  apply (hintNodesPass_false st _ numa Hnuma).
  unfold numaPasses. rewrite Hn.
  now rewrite (proj2 (Z.ltb_lt _ _) Hpos).
Qed.

(** An anti-affinity selector of the new pod that matches a label value
    aggregated on a node excludes every hint holding a node the selector
    counts against. *)
Theorem new_pod_anti_affinity_excludes_hints req st podAffinity antiAffinity
    info seletor k v n hint numa :
  AppendAdds ->
  prePodAffinityFilter p req = Return (Some st, None) ->
  UnmarshalAffinity (pluginapi.Annotations req) = Ok podAffinity ->
  util.AntiAffinity podAffinity = Some antiAffinity ->
  seletor ∈ util.Required antiAffinity ->
  info ∈ numaAffinityInfoList st ->
  apiconsts.MatchLabels seletor !! k = Some v ->
  v ∈ default [] (labels info !! k) ->
  matchIncrement p seletor (socketID info) (numaID info) n = 1 ->
  numa ∈ pluginapi.GetNodes hint ->
  int_of_uint64 numa = n ->
  0 < util.countAt (antiAffinityCounts st) n /\
  hintPodAffinityFilter st hint = false.
Proof.
  intros Hadd Hpre Hparse Hanti Hsel Hinfo Hk Hv Hinc Hnuma Hn.
  assert (Hpos : 0 < util.countAt (antiAffinityCounts st) n).
  { apply prePodAffinityFilter_state in Hpre
      as (pa & infos & Hpa & _ & <- & _ & _ & -> & _).
    rewrite Hparse in Hpa. injection Hpa as <-.
    rewrite (pod_count_formula _ _ n Hadd).
    cbn [requiredPodAffinityInfo pod_AntiAffinityRequiredSelectors].
    rewrite Hanti.
    pose proof (tally_term_le (numaAffinityInfoList st)
                  (fun _ => util.Required antiAffinity)
                  (fun i s => matchingValues (labels i) s)
                  (fun i s => matchIncrement p s (socketID i) (numaID i) n)
                  info seletor
                  (fun i s => matchingValues_nonneg _ s)
                  (fun i s => proj1 (matchIncrement_range p s _ _ n))
                  Hinfo Hsel) as Hle.
    cbn beta in Hle. rewrite Hinc in Hle.
    pose proof (matchingValues_positive _ _ _ _ Hk Hv). lia. }
  split; [exact Hpos|].
  unfold hintPodAffinityFilter.
  apply (hintNodesPass_false st _ numa Hnuma).
  unfold numaPasses. rewrite Hn.
  destruct (0 <? util.countAt (existingAntiAffinityCounts st) n);
    [reflexivity|].
  now rewrite (proj2 (Z.ltb_lt _ _) Hpos).
Qed.

(** When the new pod requires affinity and no node aggregates a label value
    that one of its affinity selectors asks for, every hint that names a node
    is dropped. *)
Theorem unmatched_required_affinity_drops_every_hint req st hint :
  AppendAdds ->
  prePodAffinityFilter p req = Return (Some st, None) ->
  pod_AffinityRequiredSelectors (podAffinityInfo st) <> [] ->
  (forall info seletor,
     info ∈ numaAffinityInfoList st ->
     seletor ∈ pod_AffinityRequiredSelectors (podAffinityInfo st) ->
     matchingValues (labels info) seletor = 0) ->
  pluginapi.GetNodes hint <> [] ->
  (forall n, util.countAt (affinityCounts st) n = 0) /\
  hintPodAffinityFilter st hint = false.
Proof.
  intros Hadd Hpre Hreq Hnone Hnodes.
  assert (Hzero : forall n, util.countAt (affinityCounts st) n = 0).
  { intros n.
    apply prePodAffinityFilter_state in Hpre
      as (pa & infos & _ & _ & <- & Hpod & _ & _ & ->).
    rewrite Hpod in Hnone. rewrite (pod_count_formula _ _ n Hadd).
    apply sumZ_zero, Forall_forall. intros x Hx.
    apply list_elem_of_fmap in Hx as (info & -> & Hinfo).
    apply sumZ_zero, Forall_forall. intros y Hy.
    apply list_elem_of_fmap in Hy as (seletor & -> & Hsel).
    now rewrite (Hnone info seletor Hinfo Hsel). }
  split; [exact Hzero|].
  unfold hintPodAffinityFilter.
  destruct (pluginapi.GetNodes hint) as [|numa rest]; [contradiction|].
  cbn [hintNodesPass].
  assert (numaPasses st numa = false) as ->; [|reflexivity].
  unfold numaPasses.
  destruct (0 <? util.countAt (existingAntiAffinityCounts st) _);
    [reflexivity|].
  destruct (0 <? util.countAt (antiAffinityCounts st) _); [reflexivity|].
  rewrite Hzero.
  destruct (pod_AffinityRequiredSelectors (podAffinityInfo st));
    [contradiction|reflexivity].
Qed.
End PreFilterProperties.

(** ** More on the hint filter *)

Section FilterProperties.
Context `{Collaborators}.
Variable p : DynamicPolicy.

Lemma List_filter_idempotent {A} (f : A -> bool) (l : list A) :
  List.filter f (List.filter f l) = List.filter f l.
Proof.
  induction l as [|a l IH]; [reflexivity|]. cbn [List.filter].
  destruct (f a) eqn:Hfa; [|exact IH]. cbn [List.filter].
  now rewrite Hfa, IH.
Qed.

Lemma List_filter_all {A} (f : A -> bool) (l : list A) :
  (forall x, x ∈ l -> f x = true) -> List.filter f l = l.
Proof.
  induction l as [|a l IH]; intros Hall; [reflexivity|]. cbn [List.filter].
  rewrite (Hall a) by (apply elem_of_cons; now left).
  f_equal. apply IH. intros x Hx. apply Hall, elem_of_cons. now right.
Qed.

Lemma hintsAt_singleton (l : pluginapi.ListOfTopologyHints) :
  hintsAt (Some {[ ResourceCPU := Some l ]}) ResourceCPU = Some l.
Proof. unfold hintsAt. now rewrite lookup_singleton_eq. Qed.

(** Filtering is idempotent: the filter applied to its own output returns
    that output. *)
Theorem podAffinityFilter_idempotent st hints out :
  podAffinityFilter st hints = Return out ->
  podAffinityFilter st out = Return out.
Proof.
  unfold podAffinityFilter.
  destruct (hintsAt hints ResourceCPU) as [cpuHints|]; [|discriminate].
  intros [= <-]. rewrite hintsAt_singleton.
  cbn [pluginapi.Hints]. now rewrite List_filter_idempotent.
Qed.

(** A hint without nodes (or a nil hint) always passes, and a hint that
    passes keeps passing when nodes are removed from it or reordered. *)
Theorem hintPodAffinityFilter_anti_monotone st hint hint' :
  hintPodAffinityFilter st None = true /\
  (pluginapi.GetNodes hint = [] -> hintPodAffinityFilter st hint = true) /\
  (hintPodAffinityFilter st hint = true ->
   pluginapi.GetNodes hint' ⊆ pluginapi.GetNodes hint ->
   hintPodAffinityFilter st hint' = true).
Proof.
  split; [reflexivity|]. split.
  - unfold hintPodAffinityFilter. now intros ->.
  - unfold hintPodAffinityFilter. rewrite !hintNodesPass_Forall, !Forall_forall.
    intros Hpass Hsub numa Hnuma. apply Hpass, Hsub, Hnuma.
Qed.

(** With no resident pod declaring anti-affinity and a request declaring
    neither affinity nor anti-affinity selectors, the state built by the
    pre-filter lets every hint through: the filter returns the input CPU hint
    list unchanged (and only the CPU resource). *)
Theorem unconstrained_request_keeps_every_hint req st hints cpuHints :
  AppendAdds ->
  prePodAffinityFilter p req = Return (Some st, None) ->
  (forall info, info ∈ numaAffinityInfoList st ->
                AntiAffinityRequiredSelectors info = []) ->
  pod_AffinityRequiredSelectors (podAffinityInfo st) = [] ->
  pod_AntiAffinityRequiredSelectors (podAffinityInfo st) = [] ->
  hintsAt hints ResourceCPU = Some cpuHints ->
  podAffinityFilter st hints
  = Return (Some {[ ResourceCPU := Some cpuHints ]}).
Proof.
  intros Hadd Hpre Hres Haff Hanti Hcpu.
  assert (Hex : forall n, util.countAt (existingAntiAffinityCounts st) n = 0).
  { intros n. rewrite (existing_count_formula p req st n Hadd Hpre).
    apply sumZ_zero, Forall_forall. intros x Hx.
    apply list_elem_of_fmap in Hx as (info & -> & Hinfo).
    now rewrite (Hres info Hinfo). }
  assert (Hnew : forall n, util.countAt (antiAffinityCounts st) n = 0).
  { intros n.
    apply prePodAffinityFilter_state in Hpre
      as (pa & infos & _ & _ & _ & Hpod & _ & -> & _).
    rewrite Hpod in Hanti. rewrite Hanti, (pod_count_formula p _ _ n Hadd).
    apply sumZ_zero, Forall_forall. intros x Hx.
    now apply list_elem_of_fmap in Hx as (info & -> & _). }
  unfold podAffinityFilter. rewrite Hcpu. do 4 f_equal.
  destruct cpuHints as [l]. cbn [pluginapi.Hints]. f_equal.
  apply List_filter_all. intros hint _.
  unfold hintPodAffinityFilter. apply hintNodesPass_Forall, Forall_forall.
  intros numa _. unfold numaPasses. now rewrite Hex, Hnew, Haff.
Qed.
End FilterProperties.

(** ** Dropping a stale allocation record *)

Section PodEntriesProperties.

Lemma lookupEntry_deleteEntry_eq {A} (l : list (string * A)) k :
  state.lookupEntry (state.deleteEntry l k) k = None.
Proof.
  unfold state.lookupEntry, state.deleteEntry.
  induction l as [|[k' a] l IH]; [reflexivity|]. cbn [List.filter fst].
  destruct (decide (k' = k)) as [->|Hne].
  - rewrite bool_decide_eq_true_2 by reflexivity. exact IH.
  - rewrite (bool_decide_eq_false_2 (k' = k)) by exact Hne.
    cbn [negb List.find fst].
    now rewrite (bool_decide_eq_false_2 (k' = k)) by exact Hne.
Qed.

Lemma lookupEntry_deleteEntry_ne {A} (l : list (string * A)) k k' :
  k' <> k ->
  state.lookupEntry (state.deleteEntry l k) k' = state.lookupEntry l k'.
Proof.
  intros Hne. unfold state.lookupEntry, state.deleteEntry.
  induction l as [|[j a] l IH]; [reflexivity|]. cbn [List.filter fst].
  destruct (decide (j = k)) as [->|Hjk].
  - rewrite bool_decide_eq_true_2 by reflexivity. cbn [negb List.find fst].
    rewrite (bool_decide_eq_false_2 (k = k')) by congruence. exact IH.
  - rewrite (bool_decide_eq_false_2 (j = k)) by exact Hjk.
    cbn [negb List.find fst].
    destruct (bool_decide (j = k')); [reflexivity|exact IH].
Qed.

Lemma lookupEntry_replace {A} (l : list (string * A)) k a' k' :
  state.lookupEntry
    ((fun kv : string * A =>
        if bool_decide (kv.1 = k) then (kv.1, a') else kv) <$> l) k'
  = if bool_decide (k' = k)
    then (fun _ => a') <$> state.lookupEntry l k'
    else state.lookupEntry l k'.
Proof.
  unfold state.lookupEntry.
  induction l as [|[j a] l IH]; cbn [fmap list_fmap List.find fst].
  - now destruct (bool_decide (k' = k)).
  - destruct (decide (j = k)) as [->|Hjk].
    + rewrite (bool_decide_eq_true_2 (k = k)) by reflexivity. cbn [fst].
      destruct (decide (k = k')) as [<-|Hkk].
      * now rewrite !bool_decide_eq_true_2 by reflexivity.
      * rewrite (bool_decide_eq_false_2 (k = k')) by exact Hkk.
        exact IH.
    + rewrite (bool_decide_eq_false_2 (j = k)) by exact Hjk. cbn [fst].
      destruct (decide (j = k')) as [<-|Hjk'].
      * rewrite (bool_decide_eq_true_2 (j = j)) by reflexivity.
        now rewrite (bool_decide_eq_false_2 (j = k)) by exact Hjk.
      * rewrite (bool_decide_eq_false_2 (j = k')) by exact Hjk'.
        exact IH.
Qed.

(** The allocation record of a container, as [GetAllocationInfo] finds it. *)
Lemma record_replace (entries : state.PodEntries) uid containers' name' :
  is_Some (state.lookupEntry entries uid) ->
  (state.lookupEntry
     ((fun kv : string * state.ContainerEntries =>
         if bool_decide (kv.1 = uid) then (kv.1, containers') else kv)
        <$> entries) uid
   ≫= fun containers => state.lookupEntry containers name')
  = state.lookupEntry containers' name'.
Proof.
  intros [c Hc]. rewrite lookupEntry_replace.
  rewrite bool_decide_eq_true_2 by reflexivity. now rewrite Hc.
Qed.

Lemma deleteEntry_nil_lookup {A} (l : list (string * A)) k k' :
  state.deleteEntry l k = [] -> k' <> k -> state.lookupEntry l k' = None.
Proof.
  intros Hnil Hne. rewrite <- (lookupEntry_deleteEntry_ne l k k' Hne).
  now rewrite Hnil.
Qed.

(** After the stale record of container [name] of pod [uid] has been
    dropped, looking it up finds nothing; the records of the pod's other
    containers and the entries of other pods are as before; and no pod is
    left with an empty container map if none was before. *)
Theorem dropContainer_removes_only_the_record (entries : state.PodEntries)
    uid name :
  (state.lookupEntry (dropContainer entries uid name) uid
   ≫= fun containers => state.lookupEntry containers name) = None /\
  (forall name', name' <> name ->
     (state.lookupEntry (dropContainer entries uid name) uid
      ≫= fun containers => state.lookupEntry containers name')
     = (state.lookupEntry entries uid
        ≫= fun containers => state.lookupEntry containers name')) /\
  (forall uid', uid' <> uid ->
     state.lookupEntry (dropContainer entries uid name) uid'
     = state.lookupEntry entries uid') /\
  (Forall (fun pod => pod.2 <> []) entries ->
   Forall (fun pod => pod.2 <> []) (dropContainer entries uid name)).
Proof.
  unfold dropContainer. cbv zeta.
  destruct (state.lookupEntry entries uid) as [containers|] eqn:Hpod.
  2:{ repeat split; rewrite ?Hpod; try reflexivity; auto. }
  destruct (state.deleteEntry containers name) as [|c rest] eqn:Hdel.
  - split; [now rewrite lookupEntry_deleteEntry_eq|]. split; [|split].
    + intros name' Hne. rewrite lookupEntry_deleteEntry_eq, ?Hpod. cbn.
      symmetry. now apply (deleteEntry_nil_lookup containers name).
    + intros uid' Hne. now apply lookupEntry_deleteEntry_ne.
    + intros Hall. unfold state.deleteEntry.
      apply Forall_forall. intros pod Hin.
      apply list_elem_of_In, filter_In in Hin as [Hin _].
      rewrite Forall_forall in Hall. now apply Hall, list_elem_of_In.
  - split; [|split; [|split]].
    + rewrite record_replace by (rewrite ?Hpod; eauto).
      pose proof (lookupEntry_deleteEntry_eq containers name) as Hgone.
      now rewrite Hdel in Hgone.
    + intros name' Hne. rewrite record_replace by (rewrite ?Hpod; eauto).
      rewrite ?Hpod. cbn.
      pose proof (lookupEntry_deleteEntry_ne containers name name' Hne)
        as Hkept.
      now rewrite Hdel in Hkept.
    + intros uid' Hne. rewrite lookupEntry_replace.
      now rewrite bool_decide_eq_false_2 by exact Hne.
    + intros Hall. apply Forall_fmap, Forall_forall. intros pod Hin.
      cbn. destruct (bool_decide (pod.1 = uid)); cbn [snd]; [discriminate|].
      rewrite Forall_forall in Hall. now apply Hall.
Qed.
End PodEntriesProperties.

(** ** More on the strategy dispatcher *)

Section DispatcherProperties.
Context `{Collaborators}.
Variable p : DynamicPolicy.

(** A sidecar of a NUMA-bound dedicated pod is answered with the
    no-preference hint set, whatever its quantity, the machine state, the
    stored records or its affinity annotations are. *)
Theorem sidecar_has_no_numa_preference req :
  strAt (pluginapi.Annotations req) PodAnnotationMemoryEnhancementNumaBinding
  = PodAnnotationMemoryEnhancementNumaBindingEnable ->
  pluginapi.ContainerType_ req = pluginapi.ContainerType_SIDECAR ->
  dedicatedCoresHintHandler p (Some req)
  = Return (PackResourceHintsResponse (Some req) ResourceCPU noPreference).
Proof.
  intros Hbound Hsidecar.
  unfold dedicatedCoresHintHandler, dedicatedCoresWithNUMABindingHintHandler.
  now rewrite !bool_decide_eq_true_2 by assumption.
Qed.

(** When hints cannot be regenerated from the stored record, the record is
    dropped and the machine state is rebuilt from the remaining entries: a
    failure to rebuild is returned as an error, and otherwise the calculator
    runs on the rebuilt state, not on the stored one. *)
Theorem stale_record_is_dropped_before_recalculation req reqInt allocationInfo
    machineState' :
  pluginapi.ContainerType_ req <> pluginapi.ContainerType_SIDECAR ->
  GetQuantityFromResourceReq req = (reqInt, None) ->
  state.lookupEntry (podEntries (state p)) (pluginapi.PodUid req)
    ≫= (fun containers =>
          state.lookupEntry containers (pluginapi.ContainerName req))
  = Some allocationInfo ->
  RegenerateHints allocationInfo reqInt = None ->
  (forall e,
     generateMachineStateFromPodEntries (CPUTopology (machineInfo p))
       (dropContainer (podEntries (state p)) (pluginapi.PodUid req)
          (pluginapi.ContainerName req))
     = (machineState', Some e) ->
     dedicatedCoresWithNUMABindingHintHandler p req
     = retErr (Errorf "GenerateMachineStateFromPodEntries failed with error: "
                 e)) /\
  (forall hints,
     generateMachineStateFromPodEntries (CPUTopology (machineInfo p))
       (dropContainer (podEntries (state p)) (pluginapi.PodUid req)
          (pluginapi.ContainerName req))
     = (machineState', None) ->
     (GetHintsFromExtraStateFile (pluginapi.PodName req) ResourceCPU
        (extraStateFileAbsPath p) (GetFilteredNUMASet machineState')).1
     = None ->
     calculateHints p reqInt machineState' (pluginapi.Annotations req)
     = Return (hints, None) ->
     dedicatedCoresWithNUMABindingHintHandler p req
     = affinitySelection p req hints).
Proof.
  intros Hmain Hquantity Hrecord Hregen.
  unfold dedicatedCoresWithNUMABindingHintHandler.
  rewrite bool_decide_eq_false_2 by exact Hmain.
  rewrite Hquantity, Hrecord, Hregen. split.
  - intros e ->. reflexivity.
  - intros hints -> Hfile Hcalc.
    destruct (GetHintsFromExtraStateFile _ _ _ _) as [fileHints extraErr].
    cbn [fst] in Hfile. subst fileHints. cbn [fst].
    rewrite Hcalc. now destruct hints.
Qed.

(** An error of the calculator is returned, wrapped, with no response; in
    particular a NUMA-bound non-exclusive request that needs more than one
    NUMA node is rejected by the handler. *)
Theorem calculator_error_rejects_the_request req reqInt :
  pluginapi.ContainerType_ req <> pluginapi.ContainerType_SIDECAR ->
  GetQuantityFromResourceReq req = (reqInt, None) ->
  state.lookupEntry (podEntries (state p)) (pluginapi.PodUid req)
    ≫= (fun containers =>
          state.lookupEntry containers (pluginapi.ContainerName req)) = None ->
  (GetHintsFromExtraStateFile (pluginapi.PodName req) ResourceCPU
     (extraStateFileAbsPath p)
     (GetFilteredNUMASet (machineState (state p)))).1 = None ->
  (forall hints e,
     calculateHints p reqInt (machineState (state p))
       (pluginapi.Annotations req) = Return (hints, Some e) ->
     dedicatedCoresWithNUMABindingHintHandler p req
     = retErr (Errorf "calculateHints failed with error: " e)) /\
  (bindingNotExclusive (pluginapi.Annotations req) = true ->
   1 < minNUMAsCountNeededOf p reqInt ->
   exists e,
     dedicatedCoresWithNUMABindingHintHandler p req
     = retErr (Errorf "calculateHints failed with error: " e)).
Proof.
  intros Hmain Hquantity Hrecord Hfile.
  assert (Hwrap : forall hints e,
    calculateHints p reqInt (machineState (state p))
      (pluginapi.Annotations req) = Return (hints, Some e) ->
    dedicatedCoresWithNUMABindingHintHandler p req
    = retErr (Errorf "calculateHints failed with error: " e)).
  { intros hints e Hcalc.
    unfold dedicatedCoresWithNUMABindingHintHandler.
    rewrite bool_decide_eq_false_2 by exact Hmain.
    rewrite Hquantity, Hrecord.
    destruct (GetHintsFromExtraStateFile _ _ _ _) as [fileHints extraErr].
    cbn [fst] in Hfile. subst fileHints. cbn [fst].
    now rewrite Hcalc. }
  split; [exact Hwrap|].
  intros Hbne Hmin.
  destruct (calculateHints_unfold p reqInt (machineState (state p))
              (pluginapi.Annotations req)) as [[Hpre _]|[_ [e He]]].
  - destruct Hpre as (_ & Hpol & _). rewrite Hbne in Hpol.
    cbn [andb] in Hpol. apply Z.ltb_ge in Hpol. lia.
  - exists e. exact (Hwrap None e He).
Qed.

(** When the pre-filter fails, the hints obtained so far are discarded: the
    handler answers with the no-preference hint set together with the
    pre-filter's error. *)
Theorem prefilter_error_discards_the_hints req reqInt calcHints st err :
  calculatesFresh p req reqInt calcHints ->
  prePodAffinityFilter p req = Return (st, Some err) ->
  dedicatedCoresWithNUMABindingHintHandler p req
  = Return ((PackResourceHintsResponse (Some req) ResourceCPU noPreference).1,
            Some err).
Proof.
  intros Hfresh Hpre.
  rewrite (handler_ends_with_affinitySelection p req reqInt calcHints Hfresh).
  unfold affinitySelection. rewrite Hpre. now destruct st.
Qed.
End DispatcherProperties.


(** ** Evaluation on sample machines *)

Section Evaluation.
Import Reference Samples.
#[local] Existing Instance Reference.collaborators.

(** Membership in a concrete list, decided by evaluation. *)
Lemma elem_of_by_evaluation {A} `{EqDecision A} (x : A) (l : list A) :
  bool_decide (x ∈ l) = true -> x ∈ l.
Proof. apply bool_decide_eq_true_1. Qed.

Lemma nonNegative_by_evaluation (c : util.TopologyAffinityCount) :
  bool_decide (map_Forall (fun _ v => 0 <= v) c) = true -> nonNegative c.
Proof.
  intros Hall%bool_decide_eq_true_1 numa. unfold util.countAt.
  destruct (c !! numa) as [v|] eqn:Hv; [|reflexivity].
  exact (Hall numa v Hv).
Qed.

Example idle_machine_six_cpus :
  emittedHints (calculateHints (policyOn idleMachine) 6 idleMachine ∅)
  = [hintOn [0; 1] true; hintOn [2; 3] true;
     hintOn [0; 1; 2] false; hintOn [0; 1; 3] false;
     hintOn [0; 2; 3] false; hintOn [1; 2; 3] false;
     hintOn [0; 1; 2; 3] false].
Proof. vm_compute. reflexivity. Qed.

Example bound_request_single_nodes :
  emittedHints
    (calculateHints (policyOn idleMachine) 4 idleMachine boundAnnotations)
  = [hintOn [0] true; hintOn [1] true; hintOn [2] true; hintOn [3] true].
Proof. vm_compute. reflexivity. Qed.

Example exclusive_request_avoids_busy_node :
  emittedHints
    (calculateHints (policyOn machineWithPod) 4 machineWithPod
       exclusiveAnnotations)
  = [hintOn [1] true; hintOn [2] true; hintOn [3] true; hintOn [2; 3] false;
     hintOn [1; 2; 3] false].
Proof. vm_compute. reflexivity. Qed.

(** C1 as stated fails: with node 1 of the sample machine holding a nil
    state, the mask made of node 1 is enumerated, yet [calculateHints] returns
    a hint list and no error. *)
Lemma C1_counterexample_nil_state_is_not_an_error :
  ~ (forall (p : DynamicPolicy) (R : Z) (ms : state.NUMANodeMap)
            (ann : gmap string string) (mask : bitmask.bitMask) (nodeID : Z),
       Some mask ∈ bitmask.IterateBitMasks (numaNodesOf ms) ->
       nodeID ∈ bitmask.GetBits mask ->
       state.stateAt ms nodeID = None ->
       exists e, calculateHints p R ms ann = Return (None, Some e)).
Proof.
  intros Hclaim.
  destruct (Hclaim (policyOn machineWithNilNode) 4 machineWithNilNode ∅ 2 1)
    as [e He].
  - apply elem_of_by_evaluation. vm_compute. reflexivity.
  - apply elem_of_by_evaluation. vm_compute. reflexivity.
  - vm_compute. reflexivity.
  - vm_compute in He. discriminate He.
Qed.

(** Node IDs of a concrete snapshot, checked by evaluation. *)
Lemma node_ids_by_evaluation (ms : state.NUMANodeMap) :
  bool_decide (map_Forall (fun k _ => 0 <= k < 64) ms) = true ->
  forall k, is_Some (ms !! k) -> 0 <= k < 64.
Proof.
  intros Hall%bool_decide_eq_true_1 k [v Hk]. exact (Hall k v Hk).
Qed.

(** Mask 2 holds node 1, whose state is nil on the sample machine. *)
Lemma C1_witness :
  (exists nodeID, nodeID ∈ bitmask.GetBits 2 /\
                  state.stateAt machineWithNilNode nodeID = None) /\
  hintCallback (policyOn machineWithNilNode) 4 1 2 machineWithNilNode ∅
    (Some 2) = Return None /\
  ~ (hintOn [1] true
       ∈ emittedHints
           (calculateHints (policyOn machineWithNilNode) 4 machineWithNilNode
              ∅)) /\
  exists cpuHints,
    calculateHints (policyOn machineWithNilNode) 4 machineWithNilNode ∅
    = Return (Some {[ cpu := Some {| pluginapi.Hints := cpuHints |} ]}, None) /\
    cpuHints = [hintOn [0] true; hintOn [2] true; hintOn [3] true;
                hintOn [2; 3] false; hintOn [0; 2; 3] false].
Proof.
  assert (Hnil : exists nodeID, nodeID ∈ bitmask.GetBits 2 /\
                   state.stateAt machineWithNilNode nodeID = None).
  { exists 1. split; [apply elem_of_by_evaluation|]; vm_compute; reflexivity. }
  destruct (C1_nil_state_or_failed_lookup_skips_the_mask (H := collaborators)
              (policyOn machineWithNilNode) 4 machineWithNilNode ∅)
    as (Hskip & Hgoes_on & _).
  destruct (Hskip 2 (or_introl Hnil)) as [Hcb Hout].
  split; [exact Hnil|]. split; [exact (Hcb 1 2)|]. split.
  - intros Hin. apply (Hout _ Hin). vm_compute. reflexivity.
  - destruct Hgoes_on as (cpuHints & Hret & _).
    + vm_compute. reflexivity.
    + vm_compute. reflexivity.
    + vm_compute. reflexivity.
    + apply node_ids_by_evaluation. vm_compute. reflexivity.
    + exists cpuHints. split; [exact Hret|].
      vm_compute in Hret. now injection Hret as <-.
Defined.

Lemma C4_witness :
  hintOn [0; 1] true
    ∈ emittedHints (calculateHints (policyOn idleMachine) 6 idleMachine ∅) /\
  exists h, hintOn [0; 1] true = Some h /\
    Forall (fun n => is_Some (state.stateAt idleMachine n)) (pluginapi.Nodes h)
    /\ 6 <= machine.Size
              (subsetAvailable (policyOn idleMachine) idleMachine
                 (pluginapi.Nodes h)).
Proof.
  assert (Hin : hintOn [0; 1] true
    ∈ emittedHints (calculateHints (policyOn idleMachine) 6 idleMachine ∅)).
  { apply elem_of_by_evaluation. vm_compute. reflexivity. }
  split; [exact Hin|].
  exact (proj1 (C4_emitted_hints_fit_request (policyOn idleMachine) 6
                  idleMachine ∅ _ Hin)).
Defined.

Lemma C5_witness :
  hintOn [0; 1; 2] false
    ∈ emittedHints (calculateHints (policyOn idleMachine) 6 idleMachine ∅) /\
  exists h, hintOn [0; 1; 2] false = Some h /\
    (pluginapi.Preferred h = true <->
     Z.of_nat (length (pluginapi.Nodes h))
     = minNUMAsCountNeededOf (policyOn idleMachine) 6) /\
    (minNUMAsCountNeededOf (policyOn idleMachine) 6
     < Z.of_nat (length (pluginapi.Nodes h)) ->
     pluginapi.Preferred h = false).
Proof.
  assert (Hin : hintOn [0; 1; 2] false
    ∈ emittedHints (calculateHints (policyOn idleMachine) 6 idleMachine ∅)).
  { apply elem_of_by_evaluation. vm_compute. reflexivity. }
  split; [exact Hin|].
  exact (C5_preferred_iff_minimum_size (policyOn idleMachine) 6
           idleMachine ∅ _ Hin).
Defined.

(** Mask 5 holds nodes 0 and 2, one on each socket; mask 7 holds nodes 0, 1
    and 2. *)
Lemma C6_witness :
  (bitmask.Count 5 <= 2 /\
   checkNUMACrossSockets (bitmask.GetBits 5) cpuTopology = (true, None) /\
   hintCallback (policyOn idleMachine) 6 2 2 idleMachine ∅ (Some 5)
   = Return None) /\
  (2 < bitmask.Count 7 /\
   checkNUMACrossSockets (bitmask.GetBits 7) cpuTopology = (true, None) /\
   hintCallback (policyOn idleMachine) 6 2 2 idleMachine ∅ (Some 7)
   = Return (hintOn [0; 1; 2] false)).
Proof.
  assert (Hcount5 : bitmask.Count 5 <= 2) by (vm_compute; discriminate).
  assert (Hcross5 :
    checkNUMACrossSockets (bitmask.GetBits 5) cpuTopology = (true, None))
    by (vm_compute; reflexivity).
  assert (Hcount7 : 2 < bitmask.Count 7) by (vm_compute; reflexivity).
  assert (Hcross7 :
    checkNUMACrossSockets (bitmask.GetBits 7) cpuTopology = (true, None))
    by (vm_compute; reflexivity).
  split; (split; [assumption|split; [assumption|]]).
  - exact (proj1 (C6_cross_socket_exclusion (policyOn idleMachine) 6
                    idleMachine ∅) 2 2 5 Hcount5 Hcross5).
  - rewrite (proj2 (proj2 (C6_cross_socket_exclusion (policyOn idleMachine) 6
                             idleMachine ∅))
               2 2 7 (list_to_set (Z.of_nat <$> seq 0 12)) true Hcount7).
    + vm_compute. reflexivity.
    + vm_compute. discriminate.
    + vm_compute. reflexivity.
    + vm_compute. reflexivity.
    + vm_compute. discriminate.
    + exact Hcross7.
Defined.

Lemma C7_witness :
  bindingNotExclusive boundAnnotations = true /\
  (1 < minNUMAsCountNeededOf (policyOn idleMachine) 6 /\
   exists e, calculateHints (policyOn idleMachine) 6 idleMachine
               boundAnnotations = retErr e) /\
  (hintOn [2] true
     ∈ emittedHints (calculateHints (policyOn idleMachine) 4 idleMachine
                       boundAnnotations) /\
   exists h, hintOn [2] true = Some h /\ length (pluginapi.Nodes h) = 1%nat).
Proof.
  assert (Hbne : bindingNotExclusive boundAnnotations = true)
    by (vm_compute; reflexivity).
  assert (Hmin : 1 < minNUMAsCountNeededOf (policyOn idleMachine) 6)
    by (vm_compute; reflexivity).
  assert (Hin : hintOn [2] true
     ∈ emittedHints (calculateHints (policyOn idleMachine) 4 idleMachine
                       boundAnnotations)).
  { apply elem_of_by_evaluation. vm_compute. reflexivity. }
  split; [exact Hbne|]. split; (split; [assumption|]).
  - exact (proj1 (C7_binding_without_exclusivity_fits_one_node
                    (policyOn idleMachine) 6 idleMachine boundAnnotations Hbne)
             Hmin).
  - exact (proj2 (proj2 (C7_binding_without_exclusivity_fits_one_node
                    (policyOn idleMachine) 4 idleMachine boundAnnotations Hbne))
             _ Hin).
Defined.


Example filter_sample :
  podAffinityFilter sampleFilterState sampleHints
  = Return (Some {[ cpu := Some {| pluginapi.Hints :=
                      [hintOn [0] true; hintOn [2] true;
                       hintOn [0; 2] false] |} ]}).
Proof. vm_compute. reflexivity. Qed.

Lemma C2_witness :
  nonNegative (existingAntiAffinityCounts sampleFilterState) /\
  nonNegative (antiAffinityCounts sampleFilterState) /\
  hintsAt sampleHints cpu = Some sampleCPUHints /\
  exists out,
    podAffinityFilter sampleFilterState sampleHints =
      Return (Some {[ cpu := Some {| pluginapi.Hints := out |} ]}) /\
    (hintOn [0; 2] false ∈ out <->
     hintOn [0; 2] false ∈ pluginapi.Hints sampleCPUHints /\
     Forall (spec_nodeAdmissible sampleFilterState) [0; 2]).
Proof.
  assert (Hex : nonNegative (existingAntiAffinityCounts sampleFilterState)).
  { apply nonNegative_by_evaluation. vm_compute. reflexivity. }
  assert (Hanti : nonNegative (antiAffinityCounts sampleFilterState)).
  { apply nonNegative_by_evaluation. vm_compute. reflexivity. }
  assert (Hcpu : hintsAt sampleHints cpu = Some sampleCPUHints)
    by (vm_compute; reflexivity).
  split; [exact Hex|]. split; [exact Hanti|]. split; [exact Hcpu|].
  exact (C2_filter_retains_exactly_admissible_hints sampleFilterState
           sampleHints sampleCPUHints (hintOn [0; 2] false) Hex Hanti Hcpu).
Defined.

Lemma C10_witness :
  hintsAt sampleHints cpu = Some sampleCPUHints /\
  exists out,
    podAffinityFilter sampleFilterState sampleHints =
      Return (Some {[ cpu := Some {| pluginapi.Hints := out |} ]}) /\
    out `sublist_of` pluginapi.Hints sampleCPUHints.
Proof.
  assert (Hcpu : hintsAt sampleHints cpu = Some sampleCPUHints)
    by (vm_compute; reflexivity).
  split; [exact Hcpu|].
  exact (C10_filter_output_is_subsequence sampleFilterState sampleHints
           sampleCPUHints Hcpu).
Defined.

(** An exclusive request without affinity requirements, for which the
    handler runs the calculator. *)
Lemma C3_witness :
  strAt exclusiveAnnotations numaExclusiveKey = enable /\
  prePodAffinityFilter (policyOn idleMachine) (request ∅ exclusiveAnnotations)
  = Return (None, None) /\
  affinitySelection (policyOn idleMachine) (request ∅ exclusiveAnnotations)
    sampleHints
  = Return (packResourceHintsResponse (Some (request ∅ exclusiveAnnotations))
              cpu sampleHints) /\
  respondedHints
    (dedicatedCoresWithNUMABindingHintHandler (policyOn idleMachine)
       (request ∅ exclusiveAnnotations))
  = emittedHints
      (calculateHints (policyOn idleMachine) 4 idleMachine
         exclusiveAnnotations).
Proof.
  assert (Hexcl : strAt exclusiveAnnotations numaExclusiveKey = enable)
    by (vm_compute; reflexivity).
  split; [exact Hexcl|].
  destruct (proj2 (C3_exclusive_request_skips_affinity_filter
                     (H := collaborators)
                     (policyOn idleMachine) (request ∅ exclusiveAnnotations)
                     sampleHints Hexcl)) as (Hpre & Hsel & _).
  split; [exact Hpre|]. split; [exact Hsel|].
  vm_compute. reflexivity.
Defined.

Example exclusive_request_with_affinity_is_rejected :
  prePodAffinityFilter (policyOn idleMachine)
    (request ∅ (<[interPodAffinityKey := "numa:app=db"%string]>
                  exclusiveAnnotations))
  = Return (None,
            Some "can not find required affinity numa nodes while exclusive is enabled"%string).
Proof. vm_compute. reflexivity. Qed.

(** A request without the NUMA-binding annotation. *)
Lemma C9_witness :
  strAt (pluginapi.Annotations (request ∅ ∅)) numaBindingKey <> enable /\
  dedicatedCoresHintHandler (policyOn idleMachine) (Some (request ∅ ∅)) =
    Return (None,
            Some "not support dedicated_cores without NUMA binding"%string).
Proof.
  assert (Hoff :
    strAt (pluginapi.Annotations (request ∅ ∅)) numaBindingKey <> enable)
    by (vm_compute; discriminate).
  split; [exact Hoff|].
  exact (C9_dedicated_without_binding_is_not_supported
           (policyOn idleMachine) (request ∅ ∅) Hoff).
Defined.

Example collector_on_machine_with_pod :
  match getNumaNodesAffinityInfo (policyOn machineWithPod) with
  | Return (infos, None) => labels <$> infos
  | _ => []
  end
  = ([ {[ "app"%string := ["db"%string] ]}; ∅; ∅; ∅ ]
     : list (gmap string (list string))).
Proof. vm_compute. reflexivity. Qed.



Example handler_without_constraints :
  respondedHints
    (dedicatedCoresHintHandler (policyOn machineWithGuard)
       (Some (request ∅ boundAnnotations)))
  = [hintOn [0] true; hintOn [1] true; hintOn [2] true; hintOn [3] true].
Proof. vm_compute. reflexivity. Qed.

Example handler_respects_resident_anti_affinity :
  respondedHints
    (dedicatedCoresHintHandler (policyOn machineWithGuard)
       (Some (request {[ "env"%string := "prod"%string ]} boundAnnotations)))
  = [hintOn [1] true; hintOn [2] true; hintOn [3] true].
Proof. vm_compute. reflexivity. Qed.

Example handler_requires_matching_affinity :
  respondedHints
    (dedicatedCoresHintHandler (policyOn machineWithGuard)
       (Some (request ∅
                (<[interPodAffinityKey := "socket:app=db"%string]>
                   boundAnnotations))))
  = [hintOn [0] true; hintOn [1] true].
Proof. vm_compute. reflexivity. Qed.

Example handler_affinity_without_match_is_empty :
  respondedHints
    (dedicatedCoresHintHandler (policyOn machineWithGuard)
       (Some (request ∅
                (<[interPodAffinityKey := "socket:rack=a"%string]>
                   boundAnnotations))))
  = [].
Proof. vm_compute. reflexivity. Qed.

(** *** Further evaluation *)

Import MoreSamples.

Lemma Reference_append_adds : AppendAdds (H := collaborators).
Proof.
  intros a b n. unfold util.countAt. cbn [Append collaborators].
  unfold append. rewrite lookup_union_with.
  destruct (a !! n), (b !! n); cbn; lia.
Qed.

Lemma emitted_hints_name_snapshot_nodes_witness :
  hintOn [0; 1] true
    ∈ emittedHints (calculateHints (policyOn idleMachine) 6 idleMachine ∅) /\
  exists h, hintOn [0; 1] true = Some h /\
    pluginapi.Nodes h <> [] /\
    pluginapi.Nodes h `sublist_of` numaNodesOf idleMachine /\
    StronglySorted Z.lt (pluginapi.Nodes h) /\
    Forall (fun n => 0 <= n < 64) (pluginapi.Nodes h) /\
    minNUMAsCountNeededOf (policyOn idleMachine) 6
    <= Z.of_nat (length (pluginapi.Nodes h)).
Proof.
  assert (Hin : hintOn [0; 1] true
    ∈ emittedHints (calculateHints (policyOn idleMachine) 6 idleMachine ∅)).
  { apply elem_of_by_evaluation. vm_compute. reflexivity. }
  split; [exact Hin|].
  exact (emitted_hints_name_snapshot_nodes (policyOn idleMachine) 6
           idleMachine ∅ _ Hin).
Defined.

(** Node 0 of the sample machine has two CPUs allocated. *)
Lemma exclusive_hints_use_idle_nodes_witness :
  AnnotationsIndicateNUMAExclusive exclusiveAnnotations = true /\
  hintOn [2; 3] false
    ∈ emittedHints (calculateHints (policyOn machineWithPod) 4 machineWithPod
                      exclusiveAnnotations) /\
  exists h, hintOn [2; 3] false = Some h /\
    Forall (fun n => exists ns, state.stateAt machineWithPod n = Some ns /\
                       state.AllocatedCPUSet ns = ∅) (pluginapi.Nodes h).
Proof.
  assert (Hexcl : AnnotationsIndicateNUMAExclusive exclusiveAnnotations = true)
    by (vm_compute; reflexivity).
  assert (Hin : hintOn [2; 3] false
    ∈ emittedHints (calculateHints (policyOn machineWithPod) 4 machineWithPod
                      exclusiveAnnotations)).
  { apply elem_of_by_evaluation. vm_compute. reflexivity. }
  split; [exact Hexcl|]. split; [exact Hin|].
  exact (exclusive_hints_use_idle_nodes (policyOn machineWithPod) 4
           machineWithPod exclusiveAnnotations _ Hexcl Hin).
Defined.

(** Nodes 0 and 1 together are accepted for six CPUs; nodes 0 and 2 sit on
    different sockets and are not. *)
Lemma accepted_subsets_are_exactly_the_hints_witness :
  (Some (hintFor (policyOn idleMachine) 6 [0; 1])
     ∈ emittedHints (calculateHints (policyOn idleMachine) 6 idleMachine ∅) <->
   subsetAccepted (policyOn idleMachine) 6 idleMachine ∅ [0; 1]) /\
  hintOn [0; 1] true
    ∈ emittedHints (calculateHints (policyOn idleMachine) 6 idleMachine ∅).
Proof.
  split.
  - apply (accepted_subsets_are_exactly_the_hints (policyOn idleMachine) 6
             idleMachine ∅ [0; 1]).
    + eexists. vm_compute. reflexivity.
    + discriminate.
    + replace (numaNodesOf idleMachine) with [0; 1; 2; 3]
        by (vm_compute; reflexivity).
      repeat constructor.
    + repeat constructor; lia.
  - apply elem_of_by_evaluation. vm_compute. reflexivity.
Defined.


(** The pod resident on node 0 refuses pods labelled [env=prod]; the request
    carries that label, so a hint over node 0 is dropped. *)
Lemma resident_anti_affinity_excludes_hints_witness :
  exists st,
    prePodAffinityFilter (policyOn machineWithGuard) prodRequest
    = Return (Some st, None) /\
    numaAffinityInfoList st !! 0%nat = Some guardedInfo /\
    0 < util.countAt (existingAntiAffinityCounts st) 0 /\
    hintPodAffinityFilter st (hintOn [0; 1] false) = false.
Proof.
  destruct (prePodAffinityFilter (policyOn machineWithGuard) prodRequest)
    as [[[st|] [e|]]|] eqn:Hpre;
    try (vm_compute in Hpre; discriminate Hpre).
  exists st. split; [reflexivity|].
  assert (Hinfo : numaAffinityInfoList st !! 0%nat = Some guardedInfo).
  { vm_compute in Hpre. injection Hpre as <-. vm_compute. reflexivity. }
  split; [exact Hinfo|].
  apply (resident_anti_affinity_excludes_hints (H := collaborators)
           (policyOn machineWithGuard) prodRequest st guardedInfo prodSelector
           "env" "prod" 0 (hintOn [0; 1] false) 0).
  - exact Reference_append_adds.
  - exact Hpre.
  - exact (list_elem_of_lookup_2 _ _ _ Hinfo).
  - apply elem_of_cons. now left.
  - vm_compute. reflexivity.
  - vm_compute. reflexivity.
  - vm_compute. reflexivity.
  - apply elem_of_cons. now left.
  - vm_compute. reflexivity.
Defined.

(** The request refuses pods labelled [app=db], which node 0 hosts. *)
Lemma new_pod_anti_affinity_excludes_hints_witness :
  exists st,
    prePodAffinityFilter (policyOn machineWithGuard) avoidingRequest
    = Return (Some st, None) /\
    numaAffinityInfoList st !! 0%nat = Some guardedInfo /\
    0 < util.countAt (antiAffinityCounts st) 0 /\
    hintPodAffinityFilter st (hintOn [0] true) = false.
Proof.
  destruct (prePodAffinityFilter (policyOn machineWithGuard) avoidingRequest)
    as [[[st|] [e|]]|] eqn:Hpre;
    try (vm_compute in Hpre; discriminate Hpre).
  exists st. split; [reflexivity|].
  assert (Hinfo : numaAffinityInfoList st !! 0%nat = Some guardedInfo).
  { vm_compute in Hpre. injection Hpre as <-. vm_compute. reflexivity. }
  split; [exact Hinfo|].
  apply (new_pod_anti_affinity_excludes_hints (H := collaborators)
           (policyOn machineWithGuard) avoidingRequest st
           {| util.Affinity := None;
              util.AntiAffinity := Some {| util.Required := [sampleSelector] |} |}
           {| util.Required := [sampleSelector] |}
           guardedInfo sampleSelector "app" "db" 0 (hintOn [0] true) 0).
  - exact Reference_append_adds.
  - exact Hpre.
  - vm_compute. reflexivity.
  - reflexivity.
  - apply elem_of_cons. now left.
  - exact (list_elem_of_lookup_2 _ _ _ Hinfo).
  - vm_compute. reflexivity.
  - apply elem_of_by_evaluation. vm_compute. reflexivity.
  - vm_compute. reflexivity.
  - apply elem_of_cons. now left.
  - vm_compute. reflexivity.
Defined.

(** The request requires a pod labelled [rack=a] on its socket; no resident
    pod carries that label. *)
Lemma unmatched_required_affinity_drops_every_hint_witness :
  exists st,
    prePodAffinityFilter (policyOn machineWithGuard) rackRequest
    = Return (Some st, None) /\
    pod_AffinityRequiredSelectors (podAffinityInfo st) <> [] /\
    (forall n, util.countAt (affinityCounts st) n = 0) /\
    hintPodAffinityFilter st (hintOn [3] true) = false.
Proof.
  destruct (prePodAffinityFilter (policyOn machineWithGuard) rackRequest)
    as [[[st|] [e|]]|] eqn:Hpre;
    try (vm_compute in Hpre; discriminate Hpre).
  exists st. split; [reflexivity|].
  pose proof Hpre as Hst. vm_compute in Hst. injection Hst as Hst.
  assert (Hreq : pod_AffinityRequiredSelectors (podAffinityInfo st) <> []).
  { rewrite <- Hst. vm_compute. discriminate. }
  split; [exact Hreq|].
  apply (unmatched_required_affinity_drops_every_hint (H := collaborators)
           (policyOn machineWithGuard) rackRequest st (hintOn [3] true)).
  - exact Reference_append_adds.
  - exact Hpre.
  - exact Hreq.
  - rewrite <- Hst. intros info seletor Hinfo Hsel.
    vm_compute in Hinfo, Hsel.
    apply list_elem_of_singleton in Hsel as ->.
    repeat (apply elem_of_cons in Hinfo as [->|Hinfo];
            [vm_compute; reflexivity|]).
    now apply elem_of_nil in Hinfo.
  - discriminate.
Defined.

(** The tallies of the state built for the request labelled [env=prod]. *)
Lemma prePodAffinityFilter_counts_nonNegative_witness :
  exists st,
    prePodAffinityFilter (policyOn machineWithGuard) prodRequest
    = Return (Some st, None) /\
    nonNegative (existingAntiAffinityCounts st) /\
    nonNegative (antiAffinityCounts st) /\
    nonNegative (affinityCounts st).
Proof.
  destruct (prePodAffinityFilter (policyOn machineWithGuard) prodRequest)
    as [[[st|] [e|]]|] eqn:Hpre;
    try (vm_compute in Hpre; discriminate Hpre).
  exists st. split; [reflexivity|].
  exact (prePodAffinityFilter_counts_nonNegative (H := collaborators)
           (policyOn machineWithGuard) prodRequest st
           Reference_append_nonNegative Hpre).
Defined.

Lemma podAffinityFilter_idempotent_witness :
  podAffinityFilter sampleFilterState sampleHints = Return filteredSampleHints /\
  podAffinityFilter sampleFilterState filteredSampleHints
  = Return filteredSampleHints.
Proof.
  assert (Hout : podAffinityFilter sampleFilterState sampleHints
                 = Return filteredSampleHints) by (vm_compute; reflexivity).
  split; [exact Hout|].
  exact (podAffinityFilter_idempotent sampleFilterState sampleHints
           filteredSampleHints Hout).
Defined.

(** No pod is resident on the idle machine and the request declares no
    selector: the filter returns the hints it is given. *)
Lemma unconstrained_request_keeps_every_hint_witness :
  exists st,
    prePodAffinityFilter (policyOn idleMachine) (request ∅ boundAnnotations)
    = Return (Some st, None) /\
    podAffinityFilter st sampleHints
    = Return (Some {[ cpu := Some sampleCPUHints ]}).
Proof.
  destruct (prePodAffinityFilter (policyOn idleMachine)
              (request ∅ boundAnnotations))
    as [[[st|] [e|]]|] eqn:Hpre;
    try (vm_compute in Hpre; discriminate Hpre).
  exists st. split; [reflexivity|].
  pose proof Hpre as Hst. vm_compute in Hst. injection Hst as Hst.
  apply (unconstrained_request_keeps_every_hint (H := collaborators)
           (policyOn idleMachine) (request ∅ boundAnnotations) st sampleHints
           sampleCPUHints).
  - exact Reference_append_adds.
  - exact Hpre.
  - rewrite <- Hst. intros info Hinfo. vm_compute in Hinfo.
    repeat (apply elem_of_cons in Hinfo as [->|Hinfo]; [reflexivity|]).
    now apply elem_of_nil in Hinfo.
  - rewrite <- Hst. reflexivity.
  - rewrite <- Hst. reflexivity.
  - vm_compute. reflexivity.
Defined.

Lemma sidecar_has_no_numa_preference_witness :
  pluginapi.ContainerType_ sidecarRequest = pluginapi.ContainerType_SIDECAR /\
  dedicatedCoresHintHandler (policyOn machineWithGuard) (Some sidecarRequest)
  = Return (packResourceHintsResponse (Some sidecarRequest) cpu noPreference).
Proof.
  split; [reflexivity|].
  apply (sidecar_has_no_numa_preference (H := collaborators)
           (policyOn machineWithGuard) sidecarRequest).
  - vm_compute. reflexivity.
  - reflexivity.
Defined.

(** The stored record cannot be turned into hints and the machine state
    cannot be rebuilt without it. *)
Lemma stale_record_is_dropped_before_recalculation_witness :
  dropContainer (podEntries (state policyWithRecord)) "uid-1" "main" = [] /\
  dedicatedCoresWithNUMABindingHintHandler policyWithRecord
    (request ∅ boundAnnotations)
  = retErr (Errorf "GenerateMachineStateFromPodEntries failed with error: "
              "machine state cannot be regenerated").
Proof.
  split; [vm_compute; reflexivity|].
  apply (proj1 (stale_record_is_dropped_before_recalculation
                  (H := collaborators) policyWithRecord
                  (request ∅ boundAnnotations) 4 storedRecord ∅
                  ltac:(discriminate) eq_refl
                  ltac:(vm_compute; reflexivity) eq_refl)).
  vm_compute. reflexivity.
Defined.

(** Four CPUs need two nodes of the narrow machine, which a NUMA-bound
    non-exclusive request may not span. *)
Lemma calculator_error_rejects_the_request_witness :
  bindingNotExclusive boundAnnotations = true /\
  1 < minNUMAsCountNeededOf narrowPolicy 4 /\
  exists e,
    dedicatedCoresWithNUMABindingHintHandler narrowPolicy
      (request ∅ boundAnnotations)
    = retErr (Errorf "calculateHints failed with error: " e).
Proof.
  assert (Hbne : bindingNotExclusive boundAnnotations = true)
    by (vm_compute; reflexivity).
  assert (Hmin : 1 < minNUMAsCountNeededOf narrowPolicy 4)
    by (vm_compute; reflexivity).
  split; [exact Hbne|]. split; [exact Hmin|].
  apply (proj2 (calculator_error_rejects_the_request (H := collaborators)
                  narrowPolicy (request ∅ boundAnnotations) 4
                  ltac:(discriminate) eq_refl
                  ltac:(vm_compute; reflexivity)
                  ltac:(vm_compute; reflexivity))).
  - exact Hbne.
  - exact Hmin.
Defined.

(** The affinity annotation of the request does not parse. *)
Lemma prefilter_error_discards_the_hints_witness :
  exists calcHints err,
    calculatesFresh (policyOn idleMachine) garbledRequest 4 calcHints /\
    prePodAffinityFilter (policyOn idleMachine) garbledRequest
    = Return (None, Some err) /\
    dedicatedCoresWithNUMABindingHintHandler (policyOn idleMachine)
      garbledRequest
    = Return ((packResourceHintsResponse (Some garbledRequest) cpu
                 noPreference).1, Some err).
Proof.
  destruct (calculateHints (policyOn idleMachine) 4 idleMachine
              (pluginapi.Annotations garbledRequest))
    as [[calcHints [e|]]|] eqn:Hcalc;
    try (vm_compute in Hcalc; discriminate Hcalc).
  destruct (prePodAffinityFilter (policyOn idleMachine) garbledRequest)
    as [[[st|] [err|]]|] eqn:Hpre;
    try (vm_compute in Hpre; discriminate Hpre).
  exists calcHints, err.
  assert (Hfresh : calculatesFresh (policyOn idleMachine) garbledRequest 4
                     calcHints).
  { split; [discriminate|]. split; [reflexivity|].
    split; [vm_compute; reflexivity|]. split; [vm_compute; reflexivity|].
    exact Hcalc. }
  split; [exact Hfresh|]. split; [reflexivity|].
  exact (prefilter_error_discards_the_hints (H := collaborators)
           (policyOn idleMachine) garbledRequest 4 calcHints None err
           Hfresh Hpre).
Defined.

End Evaluation.
